(** * PipGPT backend: chat listing, generation gateway, document sync

    A shallow embedding of the request handlers of the PipGPT backend
    (the Express server file and [utils/bedrockService.js]) together with
    the properties its specification states about them, and further
    properties of the same handlers: their error answers, the
    invariants of the stores, and how requests compose.

    Conventions of the embedding.
    - A handler is a function from the stores it touches to a response
      and the new stores.  JavaScript [try]/[catch] is a small state and
      exception monad ([Js]): a [throw] keeps every store update made
      before it, exactly as the mutation of a module-level object or a
      completed [await]ed database write does.
    - A MongoDB collection is the list of its documents in insertion
      order; [find]/[findOne]/[updateOne] act on the first match.
    - What the surroundings decide is an input: the clock ([now]), the
      [ObjectId] that Mongoose gives a new chat, the outcome of a call
      to AWS.  Database and network transport are taken to work; the
      errors modelled are the ones the code and its schemas produce
      (validation, casts, duplicate keys, type errors).
    - JavaScript strings are modelled by [string]; [substring] counts
      characters of that type.
    - The [_id] of a chat or a document is an ObjectId.  The model
      keeps the string that names it and compares ids as ObjectIds
      ([toHexString]): a request may spell the hexadecimal digits in
      either case.  The ids of the listing entries are strings and are
      compared as such. *)

From Stdlib Require Import ZArith String Ascii List Lia.
From stdpp Require Import base decidable option list gmap strings.

Local Open Scope Z_scope.
Local Open Scope string_scope.
Local Open Scope list_scope.

(* ================================================================== *)
(** * JavaScript preliminaries *)
(* ================================================================== *)

(** Exceptions the modelled code can raise. *)
Inductive Err : Type :=
  | ValidationError                 (* a Mongoose schema validator rejected a save *)
  | CastError                       (* a value could not be cast to ObjectId *)
  | DuplicateKey                    (* MongoDB E11000 on _id *)
  | TypeError                       (* a call on a value that is no function *)
  | InvalidDataSource (key : string)(* new Error(`Invalid data source: ${key}`) *)
  | UpstreamError.                  (* a rejected AWS SDK call *)

#[global] Instance Err_eq_dec : EqDecision Err.
Proof. solve_decision. Defined.

Inductive Outcome (A : Type) : Type :=
  | Returns (a : A)
  | Throws (e : Err).
Arguments Returns {A} a.
Arguments Throws {A} e.

(** A computation over a store [St] that may throw. *)
Definition Js (St A : Type) : Type := St -> Outcome A * St.

Definition ret {St A} (a : A) : Js St A := fun s => (Returns a, s).

Definition bind {St A B} (m : Js St A) (k : A -> Js St B) : Js St B :=
  fun s => match m s with
           | (Returns a, s') => k a s'
           | (Throws e, s') => (Throws e, s')
           end.

Definition throw {St A} (e : Err) : Js St A := fun s => (Throws e, s).

(** [try { m } catch (error) { h error }]: the handler runs in the store
    the body left behind. *)
Definition try_catch {St A} (m : Js St A) (h : Err -> Js St A) : Js St A :=
  fun s => match m s with
           | (Returns a, s') => (Returns a, s')
           | (Throws e, s') => h e s'
           end.

Definition get {St} : Js St St := fun s => (Returns s, s).
Definition put {St} (s : St) : Js St unit := fun _ => (Returns tt, s).
Definition modify {St} (f : St -> St) : Js St unit := fun s => (Returns tt, f s).

Notation "'let*' x ':=' m 'in' k" := (bind m (fun x => k))
  (at level 10, x name, m at level 100, k at level 200).
Notation "'do' m 'then' k" := (bind m (fun _ => k))
  (at level 10, m at level 100, k at level 200).

(** The value a handler finally sends, and the store it leaves. *)
Definition run {St A} (m : Js St A) (s : St) (dflt : A) : A * St :=
  match m s with
  | (Returns a, s') => (a, s')
  | (Throws _, s') => (dflt, s')
  end.

(** Names every object literal inherits from [Object.prototype]: a
    bracket lookup [obj[key]] with one of these keys yields a function
    (or, for [__proto__], the prototype object) when [obj] has no own
    property of that name. *)
Definition objectPrototypeNames : list string :=
  [ "constructor"; "__defineGetter__"; "__defineSetter__"; "hasOwnProperty";
    "__lookupGetter__"; "__lookupSetter__"; "isPrototypeOf";
    "propertyIsEnumerable"; "toString"; "valueOf"; "__proto__";
    "toLocaleString" ].

(** [s] is truthy as a JavaScript string. *)
Definition truthy (s : string) : bool := negb (bool_decide (s = "")).

(** [a.slice(-n)]: the last [n] elements, all of them when there are fewer. *)
Definition slice_last {A} (n : nat) (a : list A) : list A :=
  drop (length a - n)%nat a.

(** The line feed of the template strings. *)
Definition LF : string := String (ascii_of_nat 10) EmptyString.

(** [a.join(sep)]. *)
Definition join (sep : string) (a : list string) : string := String.concat sep a.

(** [url.split("/").pop()]: what follows the last slash. *)
Fixpoint last_segment_from (acc s : string) : string :=
  match s with
  | EmptyString => acc
  | String c s' =>
      if Ascii.eqb c "/"%char then last_segment_from EmptyString s'
      else last_segment_from (acc +:+ String c EmptyString) s'
  end.

Definition last_segment (s : string) : string := last_segment_from EmptyString s.

(** ** ObjectIds

    An [ObjectId] is twelve bytes; [toHexString()] writes them as 24
    hexadecimal digits in lower case, and this string stands for the id
    in the model.  [new ObjectId(s)] and Mongoose's cast of an [_id]
    read a string of 24 hexadecimal digits in either case; the strings
    of twelve bytes that older drivers accept as well name the id with
    these bytes. *)
Definition isHexDigit (c : ascii) : bool :=
  let n := nat_of_ascii c in
  ((48 <=? n) && (n <=? 57) || (97 <=? n) && (n <=? 102) || (65 <=? n) && (n <=? 70))%nat.

Definition isObjectIdHex (s : string) : bool :=
  (String.length s =? 24)%nat && forallb isHexDigit (list_ascii_of_string s).

(** A hexadecimal digit in lower case. *)
Definition lowerHexDigit (c : ascii) : ascii :=
  let n := nat_of_ascii c in
  if ((65 <=? n) && (n <=? 70))%nat then ascii_of_nat (n + 32) else c.

Fixpoint lowerHex (s : string) : string :=
  match s with
  | EmptyString => EmptyString
  | String c s' => String (lowerHexDigit c) (lowerHex s')
  end.

(** The digit of a value below sixteen, and the two digits of a byte. *)
Definition hexDigitOf (n : nat) : ascii :=
  if (n <? 10)%nat then ascii_of_nat (48 + n) else ascii_of_nat (87 + n).

Fixpoint hexOfBytes (s : string) : string :=
  match s with
  | EmptyString => EmptyString
  | String c s' =>
      String (hexDigitOf (nat_of_ascii c / 16)) (String (hexDigitOf (nat_of_ascii c mod 16))
        (hexOfBytes s'))
  end.

(** The hex string of the [ObjectId] a string names. *)
Definition toHexString (id : string) : string :=
  if isObjectIdHex id then lowerHex id else hexOfBytes id.

(** The stored [_id] is the [ObjectId] with the hex string [oid]: ids
    are compared as ObjectIds, not as the strings that name them. *)
Definition hasObjectId (oid : string) (stored : string) : bool :=
  bool_decide (toHexString stored = oid).

Arguments toHexString : simpl never.
Arguments hasObjectId : simpl never.

(** HTTP responses: a status and a JSON (or plain) body. *)
Inductive Body (Payload : Type) : Type :=
  | Message (m : string)            (* { message: m } *)
  | MessageError (m : string) (e : Err) (* { message: m, error: err.message } *)
  | ErrorField (m : string)         (* { error: m } *)
  | ResponseField (m : string)      (* { response: m } *)
  | Text (m : string)               (* res.send("...") *)
  | Data (p : Payload).             (* a document, list or result object *)
Arguments Message {Payload} m.
Arguments MessageError {Payload} m e.
Arguments ErrorField {Payload} m.
Arguments ResponseField {Payload} m.
Arguments Text {Payload} m.
Arguments Data {Payload} p.

Record Response (Payload : Type) : Type := mkResponse
  { status : nat; body : Body Payload }.
Arguments mkResponse {Payload} status body.
Arguments status {Payload} r.
Arguments body {Payload} r.

(* ================================================================== *)
(** * Chat store and the two listing projections *)
(* ================================================================== *)

(** [models/chat.js]: one turn of a conversation ([img] is never set by
    the handlers). *)
Record Turn : Type := mkTurn { role : string; content : string }.

(** [models/chat.js]: the Chat collection's documents.  The schema has
    plain [createdAt]/[updatedAt] fields defaulting to [Date.now] and no
    [timestamps] option, so no update touches them. *)
Record ChatDoc : Type := mkChat
  { chat_id : string;
    chat_userId : string;
    history : list Turn;
    chat_createdAt : Z;
    chat_updatedAt : Z }.

(** A listing entry, [{ _id, title, createdAt }]. *)
Record Summary : Type := mkSummary
  { _id : string; title : string; createdAt : Z }.

(** [models/pinnedChats.js] and [models/userChats.js]: one listing
    document.  The array is called [pinnedChats] in the former and
    [chats] in the latter; [updatedAt] is the stamp of the schema option
    [timestamps] ([None] for a schema without it). *)
Record ListingDoc : Type := mkListing
  { userId : string;
    chats : list Summary;
    updatedAt : option Z }.

#[global] Instance Turn_eq_dec : EqDecision Turn.
Proof. solve_decision. Defined.
#[global] Instance ChatDoc_eq_dec : EqDecision ChatDoc.
Proof. solve_decision. Defined.
#[global] Instance Summary_eq_dec : EqDecision Summary.
Proof. solve_decision. Defined.
#[global] Instance ListingDoc_eq_dec : EqDecision ListingDoc.
Proof. solve_decision. Defined.

(** The three collections. *)
Record Db : Type := mkDb
  { Chat : list ChatDoc;
    UserChats : list ListingDoc;
    PinnedChats : list ListingDoc }.

Definition emptyDb : Db := mkDb [] [] [].

Definition setChat (f : list ChatDoc -> list ChatDoc) (db : Db) : Db :=
  mkDb (f (Chat db)) (UserChats db) (PinnedChats db).
Definition setUserChats (f : list ListingDoc -> list ListingDoc) (db : Db) : Db :=
  mkDb (Chat db) (f (UserChats db)) (PinnedChats db).
Definition setPinnedChats (f : list ListingDoc -> list ListingDoc) (db : Db) : Db :=
  mkDb (Chat db) (UserChats db) (f (PinnedChats db)).

(** ** MongoDB operations on a collection *)

(** [Model.findOne(q)]: the first document that matches. *)
Definition findOne {D} (q : D -> bool) (coll : list D) : option D := List.find q coll.

(** The collection after the update [f] of the first document matching [q]. *)
Fixpoint updateFirst {D} (q : D -> bool) (f : D -> D) (coll : list D) : list D :=
  match coll with
  | [] => []
  | d :: rest => if q d then f d :: rest else d :: updateFirst q f rest
  end.

(** What [updateOne] reports: [modifiedCount] counts a matched document
    only when the update changed it. *)
Record UpdateResult : Type := mkUpdateResult
  { matchedCount : nat; modifiedCount : nat }.

Definition updateOne {D} `{EqDecision D} (q : D -> bool) (f : D -> D)
    (coll : list D) : UpdateResult * list D :=
  match findOne q coll with
  | None => (mkUpdateResult 0 0, coll)
  | Some d =>
      (mkUpdateResult 1 (if decide (f d = d) then 0 else 1), updateFirst q f coll)
  end.

(** [updateOne(q, u, { upsert: true })]: insert [fresh] when nothing matches. *)
Definition upsertOne {D} `{EqDecision D} (q : D -> bool) (f : D -> D) (fresh : D)
    (coll : list D) : list D :=
  match findOne q coll with
  | None => coll ++ [fresh]
  | Some _ => updateFirst q f coll
  end.

(** [Model.deleteOne(q)]: drop the first match, report how many went. *)
Fixpoint deleteFirst {D} (q : D -> bool) (coll : list D) : list D :=
  match coll with
  | [] => []
  | d :: rest => if q d then rest else d :: deleteFirst q rest
  end.

Definition deleteOne {D} (q : D -> bool) (coll : list D) : nat * list D :=
  (if existsb q coll then 1%nat else 0%nat, deleteFirst q coll).

(** The query [{ userId: u }]. *)
Definition byUser (u : string) (d : ListingDoc) : bool := bool_decide (userId d = u).

(** The element test [_id === chatId]. *)
Definition hasId (chatId : string) (c : Summary) : bool := bool_decide (_id c = chatId).

(** The query [{ userId: u, "chats._id": chatId }]. *)
Definition byUserAndChat (u chatId : string) (d : ListingDoc) : bool :=
  byUser u d && existsb (hasId chatId) (chats d).

(** The stamp Mongoose adds to every write of a schema with [timestamps]. *)
Definition touch (stamps : bool) (now : Z) (d : ListingDoc) : ListingDoc :=
  if stamps then mkListing (userId d) (chats d) (Some now) else d.

(** [{ $push: { chats: c } }]. *)
Definition push (c : Summary) (d : ListingDoc) : ListingDoc :=
  mkListing (userId d) (chats d ++ [c]) (updatedAt d).

(** [{ $pull: { chats: { _id: chatId } } }], also [a.filter(c => c._id !== chatId)]. *)
Definition pull (chatId : string) (d : ListingDoc) : ListingDoc :=
  mkListing (userId d) (filter (fun c => _id c <> chatId) (chats d)) (updatedAt d).

Definition setTitle (newTitle : string) (c : Summary) : Summary :=
  mkSummary (_id c) newTitle (createdAt c).

(** [{ $set: { "chats.$.title": newTitle } }]: the positional operator
    addresses the first element the query matched. *)
Definition setTitleAt (chatId newTitle : string) (d : ListingDoc) : ListingDoc :=
  mkListing (userId d) (updateFirst (hasId chatId) (setTitle newTitle) (chats d)) (updatedAt d).

(** The [required] validators of a listing document, run by [save()] on
    the document and on every element of its array: a required string
    must be present and not empty. *)
Definition validSummary (c : Summary) : bool := truthy (_id c) && truthy (title c).
Definition validListing (d : ListingDoc) : bool :=
  truthy (userId d) && forallb validSummary (chats d).
Definition validTurn (t : Turn) : bool := truthy (role t) && truthy (content t).

(** ** The listing projections *)

(** What [GET /api/userchats] and [GET /api/pinnedchats] list for a user:
    the array of the user's first document, or nothing. *)
Definition listing (coll : list ListingDoc) (u : string) : list Summary :=
  match findOne (byUser u) coll with
  | Some d => chats d
  | None => []
  end.

Definition ActiveChats (db : Db) (u : string) : list Summary := listing (UserChats db) u.
Definition PinnedChatsOf (db : Db) (u : string) : list Summary := listing (PinnedChats db) u.

(** The ids listed. *)
Definition ids (l : list Summary) : list string := map _id l.

(** How many entries of a listing carry an id. *)
Definition countId (chatId : string) (l : list Summary) : nat :=
  length (filter (fun c => _id c = chatId) l).

(** ** The chat handlers *)

(** What the surroundings contribute to one request: the clock reading
    ([Date.now()]) and the [ObjectId] Mongoose generates should the
    request create a chat. *)
Record Env : Type := mkEnv { now : Z; newObjectId : string }.

(** The JSON payloads the chat handlers send. *)
Inductive Payload : Type :=
  | ChatIdOf (chatId : string)          (* { chatId } *)
  | Summaries (l : list Summary)        (* a listing *)
  | ChatOf (c : option ChatDoc)         (* a chat document, or null *)
  | Updated (r : UpdateResult).         (* the result object of updateOne *)

Definition Resp : Type := Response Payload.

(** Every chat handler works for this one user. *)
Definition demouser : string := "demouser".

(** The requests of the chat routes.  Body fields and path parameters
    are strings; for the routes that test or validate a field (create,
    pin) the empty string stands for a missing one as well, both being
    rejected alike. *)
Inductive Request : Type :=
  | CreateChat (text assistantResponse : string)   (* POST /api/chats *)
  | GetUserChats                                   (* GET /api/userchats *)
  | GetChat (id : string)                          (* GET /api/chats/:id *)
  | AppendChat (id question assistantResponse : string) (* PUT /api/chats/:id *)
  | DeleteChat (id : string)                       (* DELETE /api/chats/:id *)
  | RenameChat (id newTitle : string)              (* PUT /api/chats/:id/rename *)
  | PinChat (chatId title : string)                (* POST /api/pinnedchats *)
  | UnpinChat (chatId : string)                    (* DELETE /api/pinnedchats/:chatId *)
  | GetPinnedChats.                                (* GET /api/pinnedchats *)

Section Backend.

(** [models/userChats.js] is not among the sources.  Its entries have
    the summary shape of the pinned ones; whether the schema stamps
    [updatedAt] ([timestamps]) and which [createdAt] its default gives
    an entry created at a given time are left open. *)
Variable ucTimestamps : bool.
Variable ucCreatedAt : Z -> Z.

(** Which strings the [ObjectId] constructor (and Mongoose's cast of
    an [_id] of the Chat collection) accepts. *)
Variable validObjectId : string -> bool.

(** [new ObjectId(id)] and the cast of [{ _id: id }] on a model: the
    [ObjectId] the string names, by its hex string. *)
Definition castObjectId {St} (id : string) : Js St string :=
  if validObjectId id then ret (toHexString id) else throw CastError.

(** [newChat.save()]: validate, then insert under the generated id. *)
Definition Chat_save (env : Env) (u : string) (h : list Turn) : Js Db ChatDoc :=
  let newChat := mkChat (newObjectId env) u h (now env) (now env) in
  if negb (truthy u && forallb validTurn h) then throw ValidationError
  else
    let* db := get in
    if existsb (fun c => hasObjectId (toHexString (newObjectId env)) (chat_id c)) (Chat db)
    then throw DuplicateKey
    else do modify (setChat (fun coll => coll ++ [newChat])) then ret newChat.

(** [doc.save()] of a listing document: validate, stamp, then insert
    it when it [isNew], and otherwise store it in the place of the
    document it was read from (the user's first one). *)
Definition Listing_save (stamps : bool) (env : Env) (isNew : bool) (d : ListingDoc)
    (coll : list ListingDoc) : Outcome (list ListingDoc) :=
  if negb (validListing d) then Throws ValidationError
  else
    let d' := touch stamps (now env) d in
    Returns (if isNew then coll ++ [d']
             else updateFirst (byUser (userId d)) (fun _ => d') coll).

Definition PinnedChats_save (env : Env) (isNew : bool) (d : ListingDoc) : Js Db unit :=
  let* db := get in
  match Listing_save true env isNew d (PinnedChats db) with
  | Returns coll => put (setPinnedChats (fun _ => coll) db)
  | Throws e => throw e
  end.

Definition UserChats_save (env : Env) (isNew : bool) (d : ListingDoc) : Js Db unit :=
  let* db := get in
  match Listing_save ucTimestamps env isNew d (UserChats db) with
  | Returns coll => put (setUserChats (fun _ => coll) db)
  | Throws e => throw e
  end.

(** [UserChats.updateOne(q, u)] and [PinnedChats.updateOne(q, u)]. *)
Definition UserChats_updateOne (env : Env) (q : ListingDoc -> bool)
    (f : ListingDoc -> ListingDoc) : Js Db UpdateResult :=
  let* db := get in
  let '(r, coll) := updateOne q (fun d => touch ucTimestamps (now env) (f d)) (UserChats db) in
  do put (setUserChats (fun _ => coll) db) then ret r.

Definition PinnedChats_updateOne (env : Env) (q : ListingDoc -> bool)
    (f : ListingDoc -> ListingDoc) : Js Db UpdateResult :=
  let* db := get in
  let '(r, coll) := updateOne q (fun d => touch true (now env) (f d)) (PinnedChats db) in
  do put (setPinnedChats (fun _ => coll) db) then ret r.

(** POST /api/chats *)
Definition createChat (env : Env) (text assistantResponse : string) : Js Db Resp :=
  try_catch
    (let* savedChat :=
       Chat_save env demouser
         [ mkTurn "user" text; mkTurn "assistant" assistantResponse ] in
     let* db := get in
     let userChats := List.filter (byUser demouser) (UserChats db) in
     let entry := mkSummary (chat_id savedChat) (substring 0 30 text) (ucCreatedAt (now env)) in
     do (if bool_decide (length userChats = 0%nat)
         then UserChats_save env true (mkListing demouser [entry] None)
         else do UserChats_updateOne env (byUser demouser) (push entry) then ret tt)
     then ret (mkResponse 201 (Data (ChatIdOf (chat_id savedChat)))))
    (fun err => ret (mkResponse 500 (MessageError "Error creating chat!" err))).

(** GET /api/userchats *)
Definition getUserChats : Js Db Resp :=
  try_catch
    (let* db := get in
     ret (mkResponse 200 (Data (Summaries (ActiveChats db demouser)))))
    (fun _ => ret (mkResponse 500 (Text "Error fetching user chats!"))).

(** GET /api/chats/:id *)
Definition getChat (id : string) : Js Db Resp :=
  try_catch
    (let* oid := castObjectId id in
     let* db := get in
     let chat := findOne (fun c => hasObjectId oid (chat_id c)
                                   && bool_decide (chat_userId c = demouser)) (Chat db) in
     ret (mkResponse 200 (Data (ChatOf chat))))
    (fun _ => ret (mkResponse 500 (Text "Error fetching chat!"))).

(** PUT /api/chats/:id *)
Definition appendChat (id question assistantResponse : string) : Js Db Resp :=
  try_catch
    (let newItems := [ mkTurn "user" question; mkTurn "assistant" assistantResponse ] in
     let* oid := castObjectId id in
     let* db := get in
     let '(updatedChat, coll) :=
       updateOne (fun c => hasObjectId oid (chat_id c)
                           && bool_decide (chat_userId c = demouser))
                 (fun c => mkChat (chat_id c) (chat_userId c) (history c ++ newItems)
                                  (chat_createdAt c) (chat_updatedAt c))
                 (Chat db) in
     do put (setChat (fun _ => coll) db)
     then ret (mkResponse 200 (Data (Updated updatedChat))))
    (fun _ => ret (mkResponse 500 (Text "Error updating chat!"))).

(** DELETE /api/chats/:id *)
Definition deleteChat (env : Env) (chatId : string) : Js Db Resp :=
  try_catch
    (do UserChats_updateOne env (byUser demouser) (pull chatId) then
     do PinnedChats_updateOne env (byUser demouser) (pull chatId) then
     let* oid := castObjectId chatId in
     let* db := get in
     let '(deletedCount, coll) :=
       deleteOne (fun c => hasObjectId oid (chat_id c)) (Chat db) in
     do put (setChat (fun _ => coll) db) then
     if bool_decide (0 < deletedCount)%nat
     then ret (mkResponse 200 (Message "Chat deleted successfully!"))
     else ret (mkResponse 404 (Message "Chat not found!")))
    (fun _ => ret (mkResponse 500 (Message "Error deleting chat!"))).

(** PUT /api/chats/:id/rename *)
Definition renameChat (env : Env) (chatId newTitle : string) : Js Db Resp :=
  try_catch
    (let* updated :=
       UserChats_updateOne env (byUserAndChat demouser chatId) (setTitleAt chatId newTitle) in
     let* updated :=
       (if bool_decide (modifiedCount updated = 0%nat)
        then PinnedChats_updateOne env (byUserAndChat demouser chatId)
               (setTitleAt chatId newTitle)
        else ret updated) in
     if bool_decide (0 < modifiedCount updated)%nat
     then ret (mkResponse 200 (Message "Chat renamed successfully!"))
     else ret (mkResponse 404 (Message "Chat not found in UserChats or PinnedChats!")))
    (fun _ => ret (mkResponse 500 (Message "Error renaming chat!"))).

(** POST /api/pinnedchats *)
Definition pinChat (env : Env) (chatId title : string) : Js Db Resp :=
  try_catch
    (let* db := get in
     let found := findOne (byUser demouser) (PinnedChats db) in
     let pinnedChats :=
       match found with Some d => d | None => mkListing demouser [] None end in
     let isAlreadyPinned := existsb (hasId chatId) (chats pinnedChats) in
     do (if negb isAlreadyPinned
         then
           do PinnedChats_save env (bool_decide (found = None))
                (push (mkSummary chatId title (now env)) pinnedChats) then
           do UserChats_updateOne env (byUser demouser) (pull chatId) then ret tt
         else ret tt)
     then ret (mkResponse 201 (Message "Chat pinned successfully!")))
    (fun _ => ret (mkResponse 500 (Message "Error pinning chat!"))).

(** [UserChats.updateOne({ userId }, { $push: { chats: c } }, { upsert: true })] *)
Definition UserChats_pushUpsert (env : Env) (u : string) (c : Summary) : Js Db unit :=
  modify (setUserChats
    (upsertOne (byUser u)
       (fun d => touch ucTimestamps (now env) (push c d))
       (touch ucTimestamps (now env) (mkListing u [c] None)))).

(** DELETE /api/pinnedchats/:chatId *)
Definition unpinChat (env : Env) (chatId : string) : Js Db Resp :=
  try_catch
    (let* db := get in
     do (match findOne (byUser demouser) (PinnedChats db) with
         | Some pinnedChats =>
             match List.find (hasId chatId) (chats pinnedChats) with
             | Some chatToMove =>
                 do PinnedChats_save env false (pull chatId pinnedChats) then
                 UserChats_pushUpsert env demouser chatToMove
             | None => ret tt
             end
         | None => ret tt
         end)
     then ret (mkResponse 200 (Message "Chat unpinned successfully!")))
    (fun _ => ret (mkResponse 500 (Message "Error unpinning chat!"))).

(** GET /api/pinnedchats *)
Definition getPinnedChats : Js Db Resp :=
  try_catch
    (let* db := get in
     ret (mkResponse 200 (Data (Summaries (PinnedChatsOf db demouser)))))
    (fun _ => ret (mkResponse 500 (Message "Error fetching pinned chats!"))).

(** The route table; the last error middleware answers what a handler
    lets escape. *)
Definition route (env : Env) (req : Request) : Js Db Resp :=
  match req with
  | CreateChat text assistantResponse => createChat env text assistantResponse
  | GetUserChats => getUserChats
  | GetChat id => getChat id
  | AppendChat id question assistantResponse => appendChat id question assistantResponse
  | DeleteChat id => deleteChat env id
  | RenameChat id newTitle => renameChat env id newTitle
  | PinChat chatId title => pinChat env chatId title
  | UnpinChat chatId => unpinChat env chatId
  | GetPinnedChats => getPinnedChats
  end.

Definition handle (env : Env) (req : Request) (db : Db) : Resp * Db :=
  run (route env req) db (mkResponse 500 (Text "Internal Server Error")).

(** A sequence of requests served one after the other. *)
Fixpoint serve (trace : list (Env * Request)) (db : Db) : Db :=
  match trace with
  | [] => db
  | (env, req) :: rest => serve rest (snd (handle env req db))
  end.

(** The id Mongoose generates for a new chat is not yet listed for the
    user. *)
Definition freshId (env : Env) (req : Request) (db : Db) : Prop :=
  match req with
  | CreateChat _ _ =>
      (newObjectId env ∉ ids (ActiveChats db demouser)) /\
      (newObjectId env ∉ ids (PinnedChatsOf db demouser))
  | _ => True
  end.

(** ... at every creation of a trace. *)
Fixpoint freshIds (trace : list (Env * Request)) (db : Db) : Prop :=
  match trace with
  | [] => True
  | (env, req) :: rest =>
      freshId env req db /\ freshIds rest (snd (handle env req db))
  end.

(** No id is listed both as active and as pinned, for any user. *)
Definition mutuallyExclusive (db : Db) : Prop :=
  forall u chatId,
    ~ (chatId ∈ ids (ActiveChats db u) /\ chatId ∈ ids (PinnedChatsOf db u)).

(** No listing of the user names an id twice, and none names it in
    both projections. *)
Definition listingInv (db : Db) (u : string) : Prop :=
  NoDup (ids (ActiveChats db u)) /\
  NoDup (ids (PinnedChatsOf db u)) /\
  (forall chatId, chatId ∈ ids (ActiveChats db u) -> chatId ∉ ids (PinnedChatsOf db u)).

(* ================================================================ *)
(** * Conversation context store and generation gateway *)
(* ================================================================ *)

(** A JavaScript value as far as a truthiness test tells values apart. *)
Inductive JsValue : Type :=
  | Undefined
  | Str (s : string)
  | Object.                          (* an object or a function *)

Definition truthyValue (v : JsValue) : bool :=
  match v with
  | Undefined => false
  | Str s => truthy s
  | Object => true
  end.

Definition ofEnv (v : option string) : JsValue :=
  match v with Some s => Str s | None => Undefined end.

(** The variables of [process.env] the modelled code reads besides
    the identifiers of the knowledge base and the model. *)
Record ProcessEnv : Type := mkProcessEnv
  { DATA_SOURCE_ID : option string;
    DATA_SOURCE_ONE_ID : option string;
    DATA_SOURCE_TWO_ID : option string }.

Variable processEnv : ProcessEnv.

(** A command sent to a generation backend. *)
Inductive Call : Type :=
  | RetrieveAndGenerate (text : string) (dataSourceId : option JsValue)
  | InvokeModel (prompt : string).

(** [userSessions] of one module instance with the log of the commands
    its clients sent. *)
Record Gateway : Type := mkGateway
  { userSessions : gmap string (list string);
    calls : list Call }.

Definition emptyGateway : Gateway := mkGateway ∅ [].

(** What a backend answers to a command, given the commands sent before:
    the text of its answer when there is one, or a rejection.  For
    the free-form backend the answer is what [JSON.parse] and
    [outputs?.[0]?.text] make of the body, a failure of either being a
    throw as well. *)
Variable upstream : list Call -> Call -> Outcome (option string).

Definition send (c : Call) : Js Gateway (option string) :=
  fun g => (upstream (calls g) c, mkGateway (userSessions g) (calls g ++ [c])).

(** [userSessions[userId]]: an own property, a name found on the
    prototype chain, or nothing. *)
Inductive Slot : Type :=
  | Own (chatHistory : list string)
  | Inherited
  | Missing.

Definition lookupSession (sessions : gmap string (list string)) (userId : string) : Slot :=
  match sessions !! userId with
  | Some h => Own h
  | None => if bool_decide (userId ∈ objectPrototypeNames) then Inherited else Missing
  end.

(** [if (!userSessions[userId]) userSessions[userId] = [];
     const chatHistory = userSessions[userId];] followed by the first
    use of [chatHistory] as an array: an inherited function has no
    [slice]. *)
Definition openSession (userId : string) : Js Gateway (list string) :=
  let* g := get in
  match lookupSession (userSessions g) userId with
  | Own chatHistory => ret chatHistory
  | Missing =>
      do put (mkGateway (<[userId := []]> (userSessions g)) (calls g)) then ret []
  | Inherited => throw TypeError
  end.

(** [userSessions[userId].push(turn)] *)
Definition pushTurn (userId turn : string) : Js Gateway unit :=
  modify (fun g => mkGateway (alter (fun h => h ++ [turn]) userId (userSessions g)) (calls g)).

(** [chatHistory.slice(-5).join("\n")] *)
Definition conversationContext (chatHistory : list string) : string :=
  join LF (slice_last 5 chatHistory).

(** [`Context: ${conversationContext}\nUser: ${query}`] *)
Definition promptOf (context query : string) : string :=
  "Context: " +:+ context +:+ LF +:+ "User: " +:+ query.

(** [text || "No response generated."] *)
Definition orFallback (text : option string) : string :=
  match text with
  | Some t => if truthy t then t else "No response generated."
  | None => "No response generated."
  end.

(** The body both gateway functions and the route share. *)
Definition generate (mk : string -> Call) (query userId : string) : Js Gateway string :=
  let* chatHistory := openSession userId in
  let context := conversationContext chatHistory in
  do pushTurn userId ("User: " +:+ query) then
  let* text := send (mk (promptOf context query)) in
  let generatedText := orFallback text in
  do pushTurn userId ("Bot: " +:+ generatedText) then
  ret generatedText.

(** [utils/bedrockService.js]: grounded mode. *)
Definition retrieveAndGenerateResponse (query userId : string) : Js Gateway string :=
  try_catch
    (generate (fun text => RetrieveAndGenerate text None) query userId)
    (fun _ => ret "Error retrieving from Knowledge Base").

(** [utils/bedrockService.js]: free-form mode. *)
Definition generateWithBedrock (query userId : string) : Js Gateway string :=
  try_catch
    (generate InvokeModel query userId)
    (fun _ => ret "Error in AI generation").

(** POST /api/retrieve-and-generate, on the server's own [userSessions]. *)
Definition retrieveAndGenerate (userId query : string) : Js Gateway (Response unit) :=
  try_catch
    (let* generatedText :=
       generate (fun text => RetrieveAndGenerate text None) query userId in
     ret (mkResponse 200 (ResponseField generatedText)))
    (fun _ => ret (mkResponse 500 (ErrorField "Error retrieving from Knowledge Base"))).

(** The static mapping of [fetchInstantResponse], read with brackets. *)
Definition dataSourceKeys : list string := [ "amp-data-pipgpt"; "amp-test-data-2" ].

Definition dataSources (key : string) : JsValue :=
  if bool_decide (key = "amp-data-pipgpt") then ofEnv (DATA_SOURCE_ONE_ID processEnv)
  else if bool_decide (key = "amp-test-data-2") then ofEnv (DATA_SOURCE_TWO_ID processEnv)
  else if bool_decide (key ∈ objectPrototypeNames) then Object
  else Undefined.

Definition fetchInstantResponse (query dataSource : string) : Js Gateway string :=
  try_catch
    (let dataSourceId := dataSources dataSource in
     if negb (truthyValue dataSourceId) then throw (InvalidDataSource dataSource)
     else
       let* text := send (RetrieveAndGenerate ("User query: " +:+ query) (Some dataSourceId)) in
       ret (orFallback text))
    (fun _ => ret "Error retrieving response.").

(** POST /api/instant-lookup *)
Definition instantLookup (query dataSource : string) : Js Gateway (Response unit) :=
  if negb (truthy query) || negb (truthy dataSource)
  then ret (mkResponse 400 (ErrorField "Query and Data Source are required"))
  else
    try_catch
      (let* response := fetchInstantResponse query dataSource in
       ret (mkResponse 200 (ResponseField (orFallback (Some response)))))
      (fun _ => ret (mkResponse 500 (ErrorField "Failed to retrieve response."))).

(* ================================================================ *)
(** * Document registry and index synchronisation *)
(* ================================================================ *)

(** [models/document.js] *)
Record DocumentDoc : Type := mkDocument
  { doc_id : string;
    doc_userId : string;
    fileName : string;
    fileUrl : string;
    contentType : string;
    uploadedAt : Z }.

(** The input of a [StartIngestionJobCommand].  A [clientToken] is the
    value of one call of [uuidv4()], named by the number of the draw. *)
Record IngestionJob : Type := mkIngestionJob
  { knowledgeBaseId : string;
    dataSourceId : option string;
    clientToken : nat;
    description : string }.

(** The Document collection, the keys of the S3 bucket, the ingestion
    commands sent so far and the number of uuids drawn.  A store may
    hold any records, keys and jobs. *)
Record Cloud : Type := mkCloud
  { Document : list DocumentDoc;
    bucket : list string;
    ingestionJobs : list IngestionJob;
    uuidCount : nat }.

(** Which AWS calls of one request are rejected. *)
Record Aws : Type := mkAws
  { deleteObjectFails : bool;
    listObjectsFails : bool;
    startIngestionFails : bool }.

Definition KNOWLEDGE_BASE_ID : string := "QAMQE57LAY".

(** [uuidv4()]: the next value of the generator. *)
Definition uuidv4 : Js Cloud nat :=
  fun c => (Returns (uuidCount c),
            mkCloud (Document c) (bucket c) (ingestionJobs c) (S (uuidCount c))).

(** [s3.send(new ListObjectsV2Command(...))] and the keys read off it. *)
Definition listObjectKeys (aws : Aws) : Js Cloud (list string) :=
  if listObjectsFails aws then throw UpstreamError
  else let* c := get in ret (bucket c).

(** [s3.send(new DeleteObjectCommand(...))] *)
Definition deleteObject (aws : Aws) (key : string) : Js Cloud unit :=
  if deleteObjectFails aws then throw UpstreamError
  else modify (fun c => mkCloud (Document c) (filter (fun k => k <> key) (bucket c))
                                (ingestionJobs c) (uuidCount c)).

(** [bedrockClient.send(new StartIngestionJobCommand(input))]: the
    command is submitted, and may be rejected. *)
Definition startIngestionJob (aws : Aws) (input : IngestionJob) : Js Cloud unit :=
  do modify (fun c => mkCloud (Document c) (bucket c) (ingestionJobs c ++ [input])
                              (uuidCount c)) then
  if startIngestionFails aws then throw UpstreamError else ret tt.

Definition triggerBedrockReIngestion (aws : Aws) : Js Cloud unit :=
  try_catch
    (let* objectKeys := listObjectKeys aws in
     if bool_decide (0 < length objectKeys)%nat
     then
       let* token := uuidv4 in
       startIngestionJob aws
         (mkIngestionJob KNOWLEDGE_BASE_ID (DATA_SOURCE_ID processEnv) token
            "Re-ingestion after file deletion")
     else ret tt)
    (fun _ => ret tt).

(** The query [{ _id: id }] on the Document model. *)
Definition byDocId (id : string) (d : DocumentDoc) : bool :=
  hasObjectId (toHexString id) (doc_id d).

(** DELETE /api/documents/:id *)
Definition deleteDocument (aws : Aws) (id : string) : Js Cloud (Response unit) :=
  try_catch
    (let* oid := castObjectId id in
     let* c := get in
     match findOne (fun d => hasObjectId oid (doc_id d)) (Document c) with
     | None => ret (mkResponse 404 (Message "Document not found!"))
     | Some document =>
         let fileKey := last_segment (fileUrl document) in
         do deleteObject aws fileKey then
         do modify (fun c => mkCloud (deleteFirst (fun d => hasObjectId oid (doc_id d))
                                        (Document c)) (bucket c)
                                     (ingestionJobs c) (uuidCount c)) then
         do triggerBedrockReIngestion aws then
         ret (mkResponse 200 (Message "Document deleted and Bedrock Knowledge Base updated!"))
     end)
    (fun err => ret (mkResponse 500 (MessageError "Error deleting document" err))).

(** Every token on record was drawn from the generator. *)
Definition tokensDrawn (c : Cloud) : Prop :=
  forall job, job ∈ ingestionJobs c -> (clientToken job < uuidCount c)%nat.

(** The buffer of a user: the own property's array, nothing otherwise. *)
Definition bufferOf (g : Gateway) (userId : string) : list string :=
  default [] (userSessions g !! userId).

(** The three entry points that generate with conversation context:
    the two gateway functions and the route of the server file. *)
Inductive EntryPoint : Type := Grounded | FreeForm | Route.

(** The command an entry point sends for a prompt. *)
Definition commandOf (ep : EntryPoint) (prompt : string) : Call :=
  match ep with
  | Grounded | Route => RetrieveAndGenerate prompt None
  | FreeForm => InvokeModel prompt
  end.

(** The store an entry point leaves behind. *)
Definition after (ep : EntryPoint) (query userId : string) (g : Gateway) : Gateway :=
  match ep with
  | Grounded => snd (retrieveAndGenerateResponse query userId g)
  | FreeForm => snd (generateWithBedrock query userId g)
  | Route => snd (retrieveAndGenerate userId query g)
  end.

(** A response that reports success and carries a text. *)
Definition successWithText (r : Response unit) : Prop :=
  status r = 200%nat /\ exists text, body r = ResponseField text.

(* ================================================================ *)
(** * Document upload and read *)
(* ================================================================ *)

(** [req.file] of multer, without the bytes. *)
Record UploadedFile : Type := mkUploadedFile
  { originalname : string; mimetype : string }.

(** What the surroundings contribute to one document request: the two
    variables of [process.env] that make up an object's URL, the text
    of the uuid of a draw, the clock, the [ObjectId] of a new record,
    and which AWS calls are rejected. *)
Record DocEnv : Type := mkDocEnv
  { S3_BUCKET_NAME : string;
    AWS_REGION : string;
    uuidText : nat -> string;
    docNow : Z;
    newDocumentId : string;
    putObjectFails : bool;
    signFails : bool;
    awsOf : Aws }.

(** What [getSignedUrl] was asked to sign. *)
Record SignedUrl : Type := mkSignedUrl
  { signedKey : string; expiresIn : nat }.

(** The JSON payloads the document handlers send. *)
Inductive DocPayload : Type :=
  | Saved (d : DocumentDoc)             (* the stored record *)
  | Documents (l : list DocumentDoc)    (* a list of records *)
  | FileUrl (u : SignedUrl).            (* { fileUrl: signedUrl } *)

(** [s3.send(new PutObjectCommand(...))]: a key names one object. *)
Definition putObject (fails : bool) (key : string) : Js Cloud unit :=
  if fails then throw UpstreamError
  else modify (fun c => mkCloud (Document c)
                          (if bool_decide (key ∈ bucket c) then bucket c
                           else bucket c ++ [key])
                          (ingestionJobs c) (uuidCount c)).

Definition triggerBedrockIngestion (a : Aws) (fileKey : string) : Js Cloud unit :=
  try_catch
    (let* token := uuidv4 in
     startIngestionJob a
       (mkIngestionJob KNOWLEDGE_BASE_ID (DATA_SOURCE_ID processEnv) token
          ("Ingestion for file: " +:+ fileKey)))
    (fun _ => ret tt).

(** [`https://${S3_BUCKET_NAME}.s3.${AWS_REGION}.amazonaws.com/${key}`] *)
Definition objectUrl (env : DocEnv) (key : string) : string :=
  "https://" +:+ S3_BUCKET_NAME env +:+ ".s3." +:+ AWS_REGION env +:+ ".amazonaws.com/" +:+ key.

(** [`${uuidv4()}-${originalFileName}`] *)
Definition uniqueFileNameOf (env : DocEnv) (u : nat) (originalFileName : string) : string :=
  uuidText env u +:+ "-" +:+ originalFileName.

Definition uploadFileToS3 (env : DocEnv) (originalFileName : string) : Js Cloud string :=
  let* u := uuidv4 in
  let uniqueFileName := uniqueFileNameOf env u originalFileName in
  try_catch
    (do putObject (putObjectFails env) uniqueFileName then
     do triggerBedrockIngestion (awsOf env) uniqueFileName then
     ret (objectUrl env uniqueFileName))
    (fun error => throw error).

(** The [required] validators of [models/document.js]. *)
Definition validDocument (d : DocumentDoc) : bool :=
  truthy (doc_userId d) && truthy (fileName d) && truthy (fileUrl d) && truthy (contentType d).

(** [newDocument.save()] *)
Definition Document_save (d : DocumentDoc) : Js Cloud DocumentDoc :=
  if negb (validDocument d) then throw ValidationError
  else
    let* c := get in
    if existsb (byDocId (doc_id d)) (Document c) then throw DuplicateKey
    else
      do put (mkCloud (Document c ++ [d]) (bucket c) (ingestionJobs c) (uuidCount c))
      then ret d.

(** POST /api/documents/upload.  [userId] is the field of the body; the
    empty string stands for a missing one as well, the validator of
    the record rejecting both. *)
Definition uploadDocument (env : DocEnv) (userId : string) (file : option UploadedFile)
    : Js Cloud (Response DocPayload) :=
  match file with
  | None => ret (mkResponse 400 (Message "No file uploaded"))
  | Some f =>
      try_catch
        (let* fileUrl := uploadFileToS3 env (originalname f) in
         let* savedDocument :=
           Document_save
             (mkDocument (newDocumentId env) userId (originalname f) fileUrl (mimetype f)
                (docNow env)) in
         ret (mkResponse 201 (Data (Saved savedDocument))))
        (fun err => ret (mkResponse 500 (MessageError "Error uploading document" err)))
  end.

(** GET /api/documents, for the [userId] of the query string. *)
Definition getDocuments (userId : string) : Js Cloud (Response DocPayload) :=
  try_catch
    (let* c := get in
     ret (mkResponse 200
            (Data (Documents
                     (List.filter (fun d => bool_decide (doc_userId d = userId))
                        (Document c))))))
    (fun err => ret (mkResponse 500 (MessageError "Error fetching documents" err))).

(** [getSignedUrl(s3, command, { expiresIn })] *)
Definition getSignedUrl (fails : bool) (key : string) (seconds : nat) : Js Cloud SignedUrl :=
  if fails then throw UpstreamError else ret (mkSignedUrl key seconds).

(** GET /api/documents/:id *)
Definition getDocument (env : DocEnv) (id : string) : Js Cloud (Response DocPayload) :=
  try_catch
    (let* oid := castObjectId id in
     let* c := get in
     match findOne (fun d => hasObjectId oid (doc_id d)) (Document c) with
     | None => ret (mkResponse 404 (Message "Document not found!"))
     | Some document =>
         let* signedUrl :=
           getSignedUrl (signFails env) (last_segment (fileUrl document)) 3600 in
         ret (mkResponse 200 (Data (FileUrl signedUrl)))
     end)
    (fun err => ret (mkResponse 500 (MessageError "Error fetching document" err))).

(** The document routes, and a sequence of requests served in turn. *)
Inductive DocRequest : Type :=
  | UploadDocument (userId : string) (file : option UploadedFile)
  | GetDocuments (userId : string)
  | GetDocument (id : string)
  | DeleteDocument (id : string).

Definition handleDocument (env : DocEnv) (req : DocRequest) (c : Cloud) : Cloud :=
  match req with
  | UploadDocument userId file => snd (uploadDocument env userId file c)
  | GetDocuments userId => snd (getDocuments userId c)
  | GetDocument id => snd (getDocument env id c)
  | DeleteDocument id => snd (deleteDocument (awsOf env) id c)
  end.

Fixpoint serveDocuments (trace : list (DocEnv * DocRequest)) (c : Cloud) : Cloud :=
  match trace with
  | [] => c
  | (env, req) :: rest => serveDocuments rest (handleDocument env req c)
  end.

(** No two ingestion jobs on record carry the same token, and every
    one of them was drawn. *)
Definition tokensDistinct (c : Cloud) : Prop :=
  NoDup (map clientToken (ingestionJobs c)) /\ tokensDrawn c.

Definition emptyCloud : Cloud := mkCloud [] [] [] 0.

(** A string without a slash. *)
Fixpoint slashFree (s : string) : bool :=
  match s with
  | EmptyString => true
  | String c s' => negb (Ascii.eqb c "/"%char) && slashFree s'
  end.

(* ================================================================ *)
(** * Auxiliary notions for the statements *)
(* ================================================================ *)

(** The status a computation answers with (0 when it lets a throw escape). *)
Definition status_of {St P} (r : Outcome (Response P) * St) : nat :=
  match fst r with Returns x => status x | Throws _ => 0%nat end.

Definition pinnedResponse : Resp := mkResponse 201 (Message "Chat pinned successfully!").
Definition unpinnedResponse : Resp := mkResponse 200 (Message "Chat unpinned successfully!").

Definition createdEntry (env : Env) (text : string) : Summary :=
  mkSummary (newObjectId env) (substring 0 30 text) (ucCreatedAt (now env)).

Definition createdChat (env : Env) (text assistantResponse : string) : ChatDoc :=
  mkChat (newObjectId env) demouser
    [ mkTurn "user" text; mkTurn "assistant" assistantResponse ] (now env) (now env).

(** The query [{ _id: chatId }] on the Chat model. *)
Definition byChatId (chatId : string) (c : ChatDoc) : bool :=
  hasObjectId (toHexString chatId) (chat_id c).

(** How the listings of [demouser] before ([a], [p]) and after ([a'],
    [p']) a request are related. *)
Inductive Effect (env : Env) :
    Request -> list Summary -> list Summary -> list Summary -> list Summary -> Prop :=
  | eff_same req a p a' p' :
      ids a' = ids a -> ids p' = ids p -> Effect env req a p a' p'
  | eff_create text assistantResponse a p :
      Effect env (CreateChat text assistantResponse) a p
        (a ++ [mkSummary (newObjectId env) (substring 0 30 text) (ucCreatedAt (now env))]) p
  | eff_pin chatId title a p :
      chatId ∉ ids p ->
      Effect env (PinChat chatId title) a p
        (filter (fun c => _id c <> chatId) a)
        (p ++ [mkSummary chatId title (now env)])
  | eff_unpin chatId chatToMove a p :
      chatToMove ∈ p -> _id chatToMove = chatId ->
      Effect env (UnpinChat chatId) a p
        (a ++ [chatToMove])
        (filter (fun c => _id c <> chatId) p)
  | eff_delete chatId a p :
      Effect env (DeleteChat chatId) a p
        (filter (fun c => _id c <> chatId) a)
        (filter (fun c => _id c <> chatId) p).

(** The listings of the other users stay as they are. *)
Definition othersKept (db db' : Db) : Prop :=
  forall u, u <> demouser ->
    ActiveChats db' u = ActiveChats db u /\ PinnedChatsOf db' u = PinnedChatsOf db u.

Definition effectOf (env : Env) (req : Request) (db db' : Db) : Prop :=
  othersKept db db' /\
  Effect env req (ActiveChats db demouser) (PinnedChatsOf db demouser)
    (ActiveChats db' demouser) (PinnedChatsOf db' demouser).

(** What a rename must keep of a listing entry. *)
Definition idAndDate (c : Summary) : string * Z := (_id c, createdAt c).

(** The text a generation can end with: what the backend produced, or
    the fallback when it produced nothing. *)
Definition generatedOrFallback (g : Gateway) (text : string) : Prop :=
  text = "No response generated." \/
  exists c, upstream (calls g) c = Returns (Some text).

(** The job [triggerBedrockReIngestion] submits in a store. *)
Definition reIngestionJob (c : Cloud) : IngestionJob :=
  mkIngestionJob KNOWLEDGE_BASE_ID (DATA_SOURCE_ID processEnv) (uuidCount c)
    "Re-ingestion after file deletion".

(** The key [uploadFileToS3] stores a file under in a store, the job
    [triggerBedrockIngestion] then submits for it, and the record the
    upload route builds. *)
Definition uploadKey (env : DocEnv) (f : UploadedFile) (c : Cloud) : string :=
  uniqueFileNameOf env (uuidCount c) (originalname f).

Definition ingestionJobOf (key : string) (c : Cloud) : IngestionJob :=
  mkIngestionJob KNOWLEDGE_BASE_ID (DATA_SOURCE_ID processEnv) (S (uuidCount c))
    ("Ingestion for file: " +:+ key).

Definition uploadedDocument (env : DocEnv) (userId : string) (f : UploadedFile) (c : Cloud)
    : DocumentDoc :=
  mkDocument (newDocumentId env) userId (originalname f)
    (objectUrl env (uploadKey env f c)) (mimetype f) (docNow env).

(** An upload nothing stands against: S3 takes the object, the fields
    of the record are there, and its id is not on record. *)
Definition uploadable (env : DocEnv) (userId : string) (f : UploadedFile) (c : Cloud) : Prop :=
  putObjectFails env = false /\
  userId <> "" /\ originalname f <> "" /\ mimetype f <> "" /\
  existsb (byDocId (newDocumentId env)) (Document c) = false.

(** The records of a user, as [Document.find({ userId })] lists them. *)
Definition documentsOf (c : Cloud) (u : string) : list DocumentDoc :=
  List.filter (fun d => bool_decide (doc_userId d = u)) (Document c).

(* ================================================================ *)
(** * Scenario data *)
(* ================================================================ *)

(** The schema parameters of the scenarios: a UserChats schema like the
    PinnedChats one, and 24 hexadecimal digits ([isObjectIdHex]) as the
    ObjectId syntax. *)
Definition stampNow (now : Z) : Z := now.

Definition idA : string := "65f1a0c2e4b0a1b2c3d4e5f6".
Definition idB : string := "65f1a0c2e4b0a1b2c3d4e5f7".

Definition at_ (t : Z) : Env := mkEnv t "".
Definition creating (t : Z) (id : string) : Env := mkEnv t id.

(** A user creates two chats, pins the first, renames it, unpins it,
    pins it again and deletes the second. *)
Definition sampleTrace : list (Env * Request) :=
  [ (creating 100 idA, CreateChat "What is AMP?" "AMP is...");
    (creating 200 idB, CreateChat "How do I upload a document to the knowledge base?" "Use the upload page.");
    (at_ 300, PinChat idA "What is AMP?");
    (at_ 400, RenameChat idA "AMP basics");
    (at_ 500, UnpinChat idA);
    (at_ 600, PinChat idA "AMP basics");
    (at_ 700, DeleteChat idB) ].

(** One pinned chat, as a pin at time 300 left it. *)
Definition pinnedDb : Db :=
  mkDb [ mkChat idA demouser [ mkTurn "user" "What is AMP?"; mkTurn "assistant" "AMP is..." ] 100 100 ]
       [ mkListing demouser [] (Some 300) ]
       [ mkListing demouser [ mkSummary idA "What is AMP?" 300 ] (Some 300) ].

(** One active chat, as its creation at time 100 left it. *)
Definition activeDb : Db :=
  mkDb [ mkChat idA demouser [ mkTurn "user" "What is AMP?"; mkTurn "assistant" "AMP is..." ] 100 100 ]
       [ mkListing demouser [ mkSummary idA "What is AMP?" 100 ] (Some 100) ]
       [].

(** Backends: one that is down, one that answers. *)
Definition backendDown (_ : list Call) (_ : Call) : Outcome (option string) :=
  Throws UpstreamError.
Definition backendUp (_ : list Call) (_ : Call) : Outcome (option string) :=
  Returns (Some "AMP is a bank.").

Definition sampleEnv : ProcessEnv := mkProcessEnv (Some "DS0") (Some "DS1") (Some "DS2").

(** C2 as the specification words it: after unpin and pin of a pinned
    chat the id is pinned again, not active, and the pinned entry has
    the title and [createdAt] the entry had before. *)
Definition roundTripKeepsFields (env1 env2 : Env)
    (chatId newTitle : string) (db : Db) : Prop :=
  forall original,
    original ∈ PinnedChatsOf db demouser -> _id original = chatId ->
    let db2 := snd (pinChat env2 chatId newTitle (snd (unpinChat env1 chatId db))) in
    chatId ∈ ids (PinnedChatsOf db2 demouser) /\
    (chatId ∉ ids (ActiveChats db2 demouser)) /\
    exists c, c ∈ PinnedChatsOf db2 demouser /\ _id c = chatId /\
              title c = title original /\ createdAt c = createdAt original.

(** C3 as the specification words it: a 400 and no backend call. *)
Definition failsFastWith400 (g : Gateway) (r : Outcome (Response unit) * Gateway) : Prop :=
  status_of r = 400%nat /\ calls (snd r) = calls g.

(** C4 as the specification words it: the caller gets a successful
    response that carries a text. *)
Definition answersSuccess (o : Outcome (Response unit)) : Prop :=
  match o with
  | Returns r => successWithText r
  | Throws _ => False
  end.

(** A bucket with two objects and the record of one of them. *)
Definition sampleCloud : Cloud :=
  mkCloud
    [ mkDocument idA "u1" "rates.pdf"
        "https://docs.s3.ap-southeast-2.amazonaws.com/1b4e28ba-rates.pdf"
        "application/pdf" 100 ]
    [ "1b4e28ba-rates.pdf"; "7c9e6679-fees.pdf" ]
    [ mkIngestionJob KNOWLEDGE_BASE_ID (Some "DS0") 1 "Ingestion for file: 1b4e28ba-rates.pdf";
      mkIngestionJob KNOWLEDGE_BASE_ID (Some "DS0") 3 "Ingestion for file: 7c9e6679-fees.pdf" ]
    4.

Definition ingestionDown : Aws := mkAws false false true.

(** [pinnedDb] after the unpin at time 500, and that after the pin at
    time 600, for a UserChats schema with [timestamps]. *)
Definition unpinnedDb : Db :=
  mkDb [ mkChat idA demouser [ mkTurn "user" "What is AMP?"; mkTurn "assistant" "AMP is..." ] 100 100 ]
       [ mkListing demouser [ mkSummary idA "What is AMP?" 300 ] (Some 500) ]
       [ mkListing demouser [] (Some 500) ].

Definition repinnedDb : Db :=
  mkDb [ mkChat idA demouser [ mkTurn "user" "What is AMP?"; mkTurn "assistant" "AMP is..." ] 100 100 ]
       [ mkListing demouser [] (Some 600) ]
       [ mkListing demouser [ mkSummary idA "AMP basics" 600 ] (Some 600) ].

(** Two users with a conversation each. *)
Definition twoSessions : Gateway :=
  mkGateway (<["u2" := [ "User: hi"; "Bot: hello" ]]> (<["u1" := [ "User: What is AMP?" ]]> ∅)) [].

(** The surroundings of a document request: the bucket [docs] in
    Sydney, a uuid generator, the clock, the id of a new record, S3 up
    and the ingestion service down. *)
Definition sampleUuid (n : nat) : string :=
  match n with
  | 4%nat => "2f1e4fc0"
  | 6%nat => "a3bb189e"
  | _ => "1b4e28ba"
  end.

Definition docEnv (t : Z) (id : string) : DocEnv :=
  mkDocEnv "docs" "ap-southeast-2" sampleUuid t id false false ingestionDown.

Definition feesPdf : UploadedFile := mkUploadedFile "fees.pdf" "application/pdf".

(** [sampleCloud] after the upload of [feesPdf] by [u1] at time 200. *)
Definition uploadedCloud : Cloud :=
  mkCloud
    [ mkDocument idA "u1" "rates.pdf"
        "https://docs.s3.ap-southeast-2.amazonaws.com/1b4e28ba-rates.pdf"
        "application/pdf" 100;
      mkDocument idB "u1" "fees.pdf"
        "https://docs.s3.ap-southeast-2.amazonaws.com/2f1e4fc0-fees.pdf"
        "application/pdf" 200 ]
    [ "1b4e28ba-rates.pdf"; "7c9e6679-fees.pdf"; "2f1e4fc0-fees.pdf" ]
    [ mkIngestionJob KNOWLEDGE_BASE_ID (Some "DS0") 1 "Ingestion for file: 1b4e28ba-rates.pdf";
      mkIngestionJob KNOWLEDGE_BASE_ID (Some "DS0") 3 "Ingestion for file: 7c9e6679-fees.pdf";
      mkIngestionJob KNOWLEDGE_BASE_ID (Some "DS0") 5 "Ingestion for file: 2f1e4fc0-fees.pdf" ]
    6.

(** An upload, a read of the new record, the delete of the old one and
    a listing. *)
Definition sampleDocTrace : list (DocEnv * DocRequest) :=
  [ (docEnv 200 idB, UploadDocument "u1" (Some feesPdf));
    (docEnv 300 "", GetDocument idB);
    (docEnv 400 "", DeleteDocument idA);
    (docEnv 500 "", GetDocuments "u1") ].


(** C5 as the specification words it: a delete after which objects
    remain in the bucket has submitted exactly one ingestion job, under
    a token drawn for it. *)
Definition oneJobWhenObjectsRemain (c : Cloud) (r : Outcome (Response unit) * Cloud) : Prop :=
  bucket (snd r) <> [] ->
  exists job,
    ingestionJobs (snd r) = ingestionJobs c ++ [job] /\ clientToken job = uuidCount c.

(** S3 deletes the object and then rejects the listing of the bucket. *)
Definition listingDown : Aws := mkAws false true false.


(** [idA] as a client may spell it: the digits of the same ObjectId in
    upper case. *)
Definition idAUpper : string := "65F1A0C2E4B0A1B2C3D4E5F6".


(* ================================================================ *)
(** * Properties of the generation gateway *)
(* ================================================================ *)

Lemma alter_lookup_Some {A} (f : A -> A) (m : gmap string A) k x :
  m !! k = Some x -> alter f k m = <[k := f x]> m.
Proof.
  intros Hk. apply map_eq. intros j.
  destruct (decide (k = j)) as [->|Hne].
  - rewrite lookup_alter_eq, lookup_insert_eq, Hk. reflexivity.
  - rewrite lookup_alter_ne, lookup_insert_ne by assumption. reflexivity.
Qed.

Lemma lookupSession_Own sessions userId h :
  lookupSession sessions userId = Own h <-> sessions !! userId = Some h.
Proof.
  unfold lookupSession. destruct (sessions !! userId) as [h'|].
  - split; intros E; congruence.
  - split; intros E; [case_bool_decide; discriminate | discriminate].
Qed.

(** What [generate] does, case by case. *)
Lemma generate_unfold mk query userId g :
  generate mk query userId g =
  match lookupSession (userSessions g) userId with
  | Inherited => (Throws TypeError, g)
  | _ =>
      let h := bufferOf g userId in
      let c := mk (promptOf (conversationContext h) query) in
      let asked := h ++ ["User: " +:+ query] in
      match upstream (calls g) c with
      | Returns text =>
          (Returns (orFallback text),
           mkGateway (<[userId := asked ++ ["Bot: " +:+ orFallback text]]> (userSessions g))
                     (calls g ++ [c]))
      | Throws e =>
          (Throws e, mkGateway (<[userId := asked]> (userSessions g)) (calls g ++ [c]))
      end
  end.
Proof.
  unfold generate, openSession, bind, get.
  destruct (lookupSession (userSessions g) userId) as [h| |] eqn:Hslot.
  - apply lookupSession_Own in Hslot.
    unfold bufferOf. rewrite Hslot. cbn.
    rewrite (alter_lookup_Some _ _ _ _ Hslot).
    destruct (upstream (calls g) _) as [text|e]; cbn; [|reflexivity].
    rewrite alter_insert_eq. reflexivity.
  - reflexivity.
  - assert (Hnone : userSessions g !! userId = None).
    { unfold lookupSession in Hslot. destruct (userSessions g !! userId); [discriminate|reflexivity]. }
    unfold bufferOf. rewrite Hnone. cbn.
    rewrite alter_insert_eq, ?insert_insert_eq.
    destruct (upstream (calls g) _) as [text|e]; cbn; [|reflexivity].
    rewrite alter_insert_eq. reflexivity.
Qed.

Lemma after_generate ep query userId g :
  after ep query userId g = snd (generate (commandOf ep) query userId g).
Proof.
  destruct ep; cbn [after commandOf];
    unfold retrieveAndGenerateResponse, generateWithBedrock, retrieveAndGenerate,
      try_catch, bind, ret;
    destruct (generate _ query userId g) as [[text|e] g']; reflexivity.
Qed.

(** ** The window of [slice(-5)] *)

Lemma slice_last_length {A} n (a : list A) :
  length (slice_last n a) = Nat.min n (length a).
Proof. unfold slice_last. rewrite length_drop. lia. Qed.

Lemma slice_last_suffix {A} n (a : list A) :
  a = take (length a - n) a ++ slice_last n a.
Proof. unfold slice_last. symmetry. apply take_drop. Qed.

Lemma slice_last_exact {A} n (older recent : list A) :
  length recent = n -> slice_last n (older ++ recent) = recent.
Proof.
  intros Hn. unfold slice_last. rewrite length_app.
  replace (length older + length recent - n)%nat with (length older) by lia.
  apply drop_app_length.
Qed.

Lemma slice_last_snoc {A} n (a : list A) x :
  slice_last (S n) (a ++ [x]) = slice_last n a ++ [x].
Proof.
  unfold slice_last. rewrite length_app. cbn [length].
  replace (length a + 1 - S n)%nat with (length a - n)%nat by lia.
  rewrite drop_app_le by lia. reflexivity.
Qed.

(** C7. The context put into the prompt is the join of the last five
    turns of the user's buffer (fewer when the buffer is shorter), in
    buffer order, however long the buffer has grown; and the buffer
    itself only ever grows. *)
Theorem context_is_last_five_turns :
  forall (ep : EntryPoint) (query userId : string) (g : Gateway),
    let buffer := bufferOf g userId in
    let window := slice_last 5 buffer in
    let g' := after ep query userId g in
    match lookupSession (userSessions g) userId with
    | Inherited => g' = g
    | _ => calls g' = calls g ++ [commandOf ep (promptOf (join LF window) query)]
    end /\
    length window = Nat.min 5 (length buffer) /\
    (exists older, buffer = older ++ window) /\
    (forall older recent,
        buffer = older ++ recent -> length recent = 5%nat -> window = recent) /\
    (exists added, bufferOf g' userId = buffer ++ added).
Proof.
  intros ep query userId g buffer window g'.
  assert (Hg' : g' = snd (generate (commandOf ep) query userId g))
    by apply after_generate.
  rewrite generate_unfold in Hg'.
  repeat split.
  - rewrite Hg'.
    destruct (lookupSession (userSessions g) userId); cbn;
      try reflexivity;
      destruct (upstream (calls g) _); reflexivity.
  - apply slice_last_length.
  - eexists. apply slice_last_suffix.
  - intros older recent Hb Hlen. subst window. rewrite Hb.
    apply slice_last_exact, Hlen.
  - rewrite Hg'. unfold bufferOf at 1.
    destruct (lookupSession (userSessions g) userId); cbn;
      try (exists []; rewrite app_nil_r; reflexivity);
      destruct (upstream (calls g) _); cbn; rewrite lookup_insert_eq; cbn;
      fold buffer; eexists; try reflexivity;
      rewrite <- app_assoc; reflexivity.
Qed.

(** C10. A generation whose backend call fails leaves the user turn in
    the buffer and adds no bot turn: the buffer has grown by exactly
    that one entry, which is the newest turn of the context of the
    user's next request. *)
Theorem failed_generation_keeps_user_turn :
  forall (ep : EntryPoint) (query userId : string) (g : Gateway) (c : Call) (e : Err),
    calls (after ep query userId g) = calls g ++ [c] ->
    upstream (calls g) c = Throws e ->
    let g' := after ep query userId g in
    let turn := "User: " +:+ query in
    bufferOf g' userId = bufferOf g userId ++ [turn] /\
    length (bufferOf g' userId) = S (length (bufferOf g userId)) /\
    slice_last 5 (bufferOf g' userId) = slice_last 4 (bufferOf g userId) ++ [turn] /\
    (forall query2,
        calls (after ep query2 userId g') =
        calls g' ++
          [commandOf ep
             (promptOf (join LF (slice_last 4 (bufferOf g userId) ++ [turn])) query2)]).
Proof.
  intros ep query userId g c e Hsent Hfail. cbv zeta.
  remember (after ep query userId g) as g' eqn:Hg'.
  set (turn := "User: " +:+ query).
  rewrite after_generate, generate_unfold in Hg'.
  assert (Hbuf : bufferOf g' userId = bufferOf g userId ++ [turn] /\
                 userSessions g' !! userId = Some (bufferOf g userId ++ [turn])).
  { destruct (lookupSession (userSessions g) userId); cbn in Hg'.
    - destruct (upstream (calls g) _) eqn:Hup; subst g'; cbn in Hsent;
        apply app_inv_head in Hsent; injection Hsent as <-; [congruence|].
      unfold bufferOf at 1. cbn. rewrite lookup_insert_eq. split; reflexivity.
    - exfalso. subst g'. assert (Hl := f_equal length Hsent).
      rewrite length_app in Hl. cbn in Hl. lia.
    - destruct (upstream (calls g) _) eqn:Hup; subst g'; cbn in Hsent;
        apply app_inv_head in Hsent; injection Hsent as <-; [congruence|].
      unfold bufferOf at 1. cbn. rewrite lookup_insert_eq. split; reflexivity. }
  destruct Hbuf as [Hbuf Hown].
  assert (Hwin : slice_last 5 (bufferOf g' userId) =
                 slice_last 4 (bufferOf g userId) ++ [turn])
    by (rewrite Hbuf; apply slice_last_snoc).
  repeat split.
  - exact Hbuf.
  - rewrite Hbuf, length_app. cbn. lia.
  - exact Hwin.
  - intros query2. rewrite after_generate, generate_unfold.
    assert (Hslot : lookupSession (userSessions g') userId =
                    Own (bufferOf g userId ++ [turn]))
      by (apply lookupSession_Own; exact Hown).
    rewrite Hslot. cbn zeta. unfold conversationContext. rewrite Hwin.
    destruct (upstream (calls g') _); reflexivity.
Qed.

(** ** Who absorbs a backend failure *)

Lemma orFallback_spec g c text :
  upstream (calls g) c = Returns text -> generatedOrFallback g (orFallback text).
Proof.
  intros Hup. unfold orFallback, generatedOrFallback.
  destruct text as [t|]; [|left; reflexivity].
  destruct (truthy t); [right; exists c; exact Hup | left; reflexivity].
Qed.

Lemma generate_outcome mk query userId g :
  match fst (generate mk query userId g) with
  | Returns text => generatedOrFallback g text
  | Throws e =>
      lookupSession (userSessions g) userId = Inherited \/
      exists c, calls (snd (generate mk query userId g)) = calls g ++ [c] /\
                upstream (calls g) c = Throws e
  end.
Proof.
  rewrite generate_unfold.
  destruct (lookupSession (userSessions g) userId); cbn.
  2: { left; reflexivity. }
  all: destruct (upstream (calls g) _) eqn:Hup; cbn.
  all: first [ eapply orFallback_spec; exact Hup
             | right; eexists; split; [reflexivity | exact Hup] ].
Qed.

(** What an entry point answers, read off the session of the user and
    the reply of the backend to the one command sent. *)
Lemma generate_fst mk query userId g :
  fst (generate mk query userId g) =
    match lookupSession (userSessions g) userId with
    | Inherited => Throws TypeError
    | _ =>
        match upstream (calls g) (mk (promptOf (conversationContext (bufferOf g userId)) query)) with
        | Returns text => Returns (orFallback text)
        | Throws e => Throws e
        end
    end.
Proof.
  rewrite generate_unfold. cbv zeta.
  destruct (lookupSession (userSessions g) userId); [|reflexivity|];
    destruct (upstream (calls g) _); reflexivity.
Qed.

(** C4, as the code has it.  The two gateway functions of
    [utils/bedrockService.js] never fail their caller: each returns
    the generated text, the fallback, or its own error sentinel.  The
    route /api/retrieve-and-generate answers 200 with the generated
    text or the fallback when the generation went through, and 500
    with an error body when it threw.  The last three parts give each
    answer exactly: the sentinel, or the 500 of the route, answers a
    user id that names an inherited property and every command the
    backend rejects, and nothing else. *)
Theorem gateway_absorbs_route_reports :
  forall (query userId : string) (g : Gateway),
    let sent ep := commandOf ep (promptOf (conversationContext (bufferOf g userId)) query) in
    (exists text,
        fst (retrieveAndGenerateResponse query userId g) = Returns text /\
        (generatedOrFallback g text \/ text = "Error retrieving from Knowledge Base")) /\
    (exists text,
        fst (generateWithBedrock query userId g) = Returns text /\
        (generatedOrFallback g text \/ text = "Error in AI generation")) /\
    ((exists text,
         fst (retrieveAndGenerate userId query g) =
           Returns (mkResponse 200 (ResponseField text)) /\
         generatedOrFallback g text) \/
     (fst (retrieveAndGenerate userId query g) =
        Returns (mkResponse 500 (ErrorField "Error retrieving from Knowledge Base")) /\
      exists e,
        fst (generate (commandOf Route) query userId g) = Throws e)) /\
    fst (retrieveAndGenerateResponse query userId g) =
      Returns
        match lookupSession (userSessions g) userId with
        | Inherited => "Error retrieving from Knowledge Base"
        | _ =>
            match upstream (calls g) (sent Grounded) with
            | Returns text => orFallback text
            | Throws _ => "Error retrieving from Knowledge Base"
            end
        end /\
    fst (generateWithBedrock query userId g) =
      Returns
        match lookupSession (userSessions g) userId with
        | Inherited => "Error in AI generation"
        | _ =>
            match upstream (calls g) (sent FreeForm) with
            | Returns text => orFallback text
            | Throws _ => "Error in AI generation"
            end
        end /\
    fst (retrieveAndGenerate userId query g) =
      Returns
        match lookupSession (userSessions g) userId with
        | Inherited => mkResponse 500 (ErrorField "Error retrieving from Knowledge Base")
        | _ =>
            match upstream (calls g) (sent Route) with
            | Returns text => mkResponse 200 (ResponseField (orFallback text))
            | Throws _ => mkResponse 500 (ErrorField "Error retrieving from Knowledge Base")
            end
        end.
Proof.
  intros query userId g sent.
  assert (Hfst : forall (A : Type) (m : Js Gateway A) h,
            fst (try_catch m h g) =
              match fst (m g) with
              | Returns a => Returns a
              | Throws e => fst (h e (snd (m g)))
              end).
  { intros A m h. unfold try_catch. destruct (m g) as [[a|e] g']; reflexivity. }
  split; [|split; [|split; [|split; [|split]]]].
  - pose proof (generate_outcome (commandOf Grounded) query userId g) as H.
    unfold retrieveAndGenerateResponse, try_catch. cbn [commandOf] in H.
    destruct (generate _ query userId g) as [[text|e] g']; cbn in *; eauto.
  - pose proof (generate_outcome (commandOf FreeForm) query userId g) as H.
    unfold generateWithBedrock, try_catch. cbn [commandOf] in H.
    destruct (generate _ query userId g) as [[text|e] g']; cbn in *; eauto.
  - pose proof (generate_outcome (commandOf Route) query userId g) as H.
    unfold retrieveAndGenerate, try_catch, bind. cbn [commandOf] in *.
    destruct (generate _ query userId g) as [[text|e] g']; cbn in *; eauto.
  - unfold retrieveAndGenerateResponse. rewrite Hfst, generate_fst.
    destruct (lookupSession (userSessions g) userId); [|reflexivity|];
      (change (RetrieveAndGenerate (promptOf (conversationContext (bufferOf g userId)) query) None)
         with (sent Grounded));
      destruct (upstream (calls g) (sent Grounded)); reflexivity.
  - unfold generateWithBedrock. rewrite Hfst, generate_fst.
    destruct (lookupSession (userSessions g) userId); [|reflexivity|];
      (change (InvokeModel (promptOf (conversationContext (bufferOf g userId)) query))
         with (sent FreeForm));
      destruct (upstream (calls g) (sent FreeForm)); reflexivity.
  - unfold retrieveAndGenerate. rewrite Hfst.
    assert (Hbind : forall (k : string -> Js Gateway (Response unit)),
              (forall a s, fst (k a s) = Returns (mkResponse 200 (ResponseField a))) ->
              fst (bind (generate (commandOf Route) query userId) k g) =
                match fst (generate (commandOf Route) query userId g) with
                | Returns a => Returns (mkResponse 200 (ResponseField a))
                | Throws e => Throws e
                end).
    { intros k Hk. unfold bind.
      destruct (generate (commandOf Route) query userId g) as [[a|e] g']; [apply Hk | reflexivity]. }
    change (fun text : string => RetrieveAndGenerate text None) with (commandOf Route).
    rewrite Hbind by reflexivity. rewrite generate_fst.
    destruct (lookupSession (userSessions g) userId); [|reflexivity|];
      fold (sent Route); destruct (upstream (calls g) (sent Route)); reflexivity.
Qed.

(** ** Instant lookup *)

Lemma dataSources_unknown key :
  key ∉ dataSourceKeys -> key ∉ objectPrototypeNames -> dataSources key = Undefined.
Proof.
  intros Hkeys Hproto. unfold dataSources, dataSourceKeys in *.
  repeat case_bool_decide; try reflexivity; subst; exfalso.
  - apply Hkeys. apply list_elem_of_here.
  - apply Hkeys. apply list_elem_of_further, list_elem_of_here.
  - contradiction.
Qed.

(** C3, as the code has it.  For a data source that the mapping does
    not know (and that names no inherited property), no command is
    sent; the error raised inside [fetchInstantResponse] is caught
    there, so that the caller receives status 200 with the sentinel
    text; status 400 answers only a missing query or data source. *)
Theorem unknown_data_source_answers_sentinel :
  forall (query dataSource : string) (g : Gateway),
    dataSource ∉ dataSourceKeys ->
    dataSource ∉ objectPrototypeNames ->
    instantLookup query dataSource g =
      (Returns
         (if truthy query && truthy dataSource
          then mkResponse 200 (ResponseField "Error retrieving response.")
          else mkResponse 400 (ErrorField "Query and Data Source are required")),
       g).
Proof.
  intros query dataSource g Hkeys Hproto.
  unfold instantLookup, fetchInstantResponse, try_catch, bind.
  rewrite (dataSources_unknown _ Hkeys Hproto).
  destruct (truthy query), (truthy dataSource); reflexivity.
Qed.

(* ================================================================ *)
(** * Properties of the document delete *)
(* ================================================================ *)

(** A record is found under every string that names its ObjectId. *)
Lemma hasObjectId_same (a b : string) :
  hasObjectId (toHexString a) b = true <-> toHexString b = toHexString a.
Proof. unfold hasObjectId. apply bool_decide_eq_true. Qed.

Lemma hasObjectId_refl (id : string) : hasObjectId (toHexString id) id = true.
Proof. apply hasObjectId_same. reflexivity. Qed.

Lemma triggerBedrockReIngestion_eq aws c :
  triggerBedrockReIngestion aws c =
    (Returns tt,
     if listObjectsFails aws then c
     else match bucket c with
          | [] => c
          | _ :: _ =>
              mkCloud (Document c) (bucket c) (ingestionJobs c ++ [reIngestionJob c])
                (S (uuidCount c))
          end).
Proof.
  unfold triggerBedrockReIngestion, try_catch, bind, listObjectKeys, get.
  destruct (listObjectsFails aws); [reflexivity|]. cbn.
  destruct c as [docs keys jobs n]. destruct keys as [|k keys]; cbn; [reflexivity|].
  unfold startIngestionJob, bind, modify. cbn.
  destruct (startIngestionFails aws); reflexivity.
Qed.

Lemma deleteDocument_found aws id c document :
  validObjectId id = true ->
  findOne (byDocId id) (Document c) = Some document ->
  deleteObjectFails aws = false ->
  deleteDocument aws id c =
    (Returns (mkResponse 200 (Message "Document deleted and Bedrock Knowledge Base updated!")),
     snd (triggerBedrockReIngestion aws
            (mkCloud (deleteFirst (byDocId id) (Document c))
               (filter (fun k => k <> last_segment (fileUrl document)) (bucket c))
               (ingestionJobs c) (uuidCount c)))).
Proof.
  intros Hvalid Hfound Hdel. unfold byDocId in *.
  unfold deleteDocument, try_catch, bind, castObjectId, get.
  rewrite Hvalid. cbn. rewrite Hfound. cbn.
  unfold deleteObject. rewrite Hdel. cbn.
  rewrite triggerBedrockReIngestion_eq. reflexivity.
Qed.

(** C5, as the code has it.  A document delete whose record exists and
    whose object S3 removes answers 200 whatever becomes of the
    listing of the bucket and of the ingestion trigger.  When the
    bucket holds no object afterwards, or when its listing is
    rejected, no ingestion job is submitted and no uuid is drawn; when
    the listing goes through and objects remain, exactly one job is
    submitted, and its [clientToken] is the uuid drawn for it, which
    no job on record carries. *)
Theorem delete_reingests_only_when_objects_remain :
  forall (aws : Aws) (id : string) (c : Cloud) (document : DocumentDoc),
    validObjectId id = true ->
    findOne (byDocId id) (Document c) = Some document ->
    deleteObjectFails aws = false ->
    let remaining := filter (fun k => k <> last_segment (fileUrl document)) (bucket c) in
    let c' := snd (deleteDocument aws id c) in
    fst (deleteDocument aws id c) =
      Returns (mkResponse 200 (Message "Document deleted and Bedrock Knowledge Base updated!")) /\
    bucket c' = remaining /\
    Document c' = deleteFirst (byDocId id) (Document c) /\
    (remaining = [] \/ listObjectsFails aws = true ->
       ingestionJobs c' = ingestionJobs c /\ uuidCount c' = uuidCount c) /\
    (remaining <> [] -> listObjectsFails aws = false ->
       ingestionJobs c' = ingestionJobs c ++ [reIngestionJob c] /\
       clientToken (reIngestionJob c) = uuidCount c /\
       uuidCount c' = S (uuidCount c) /\
       (tokensDrawn c ->
          (forall job, job ∈ ingestionJobs c ->
                       clientToken job <> clientToken (reIngestionJob c)) /\
          tokensDrawn c')).
Proof.
  intros aws id c document Hvalid Hfound Hdel. cbv zeta.
  rewrite (deleteDocument_found _ _ _ _ Hvalid Hfound Hdel).
  rewrite triggerBedrockReIngestion_eq. cbn [fst snd bucket].
  destruct (listObjectsFails aws).
  { cbn. split; [reflexivity|]. split; [reflexivity|]. split; [reflexivity|].
    split; [intros _; split; reflexivity | intros _ Hlist; discriminate Hlist]. }
  generalize (filter (fun k => k <> last_segment (fileUrl document)) (bucket c)).
  intros [|k rest]; cbn.
  - split; [reflexivity|]. split; [reflexivity|]. split; [reflexivity|].
    split; [intros _; split; reflexivity | intros Hne; congruence].
  - split; [reflexivity|]. split; [reflexivity|]. split; [reflexivity|].
    split; [intros [Hnil|Hlist]; discriminate|]. intros _ _.
    split; [reflexivity|]. split; [reflexivity|]. split; [reflexivity|].
    intros Hdrawn. split.
    + intros job Hjob Heq. apply Hdrawn in Hjob. lia.
    + intros job Hjob. cbn in *. apply elem_of_app in Hjob as [Hjob|Hjob].
      * apply Hdrawn in Hjob. lia.
      * apply list_elem_of_singleton in Hjob. subst job. cbn. lia.
Qed.

(* ================================================================ *)
(** * Properties of the chat listing *)
(* ================================================================ *)

(** ** Collections *)

Lemma byUser_true u d : byUser u d = true <-> userId d = u.
Proof. unfold byUser. apply bool_decide_eq_true. Qed.

Lemma findOne_updateFirst_byUser coll v f u :
  (forall d, userId d = v -> userId (f d) = v) ->
  findOne (byUser u) (updateFirst (byUser v) f coll) =
    if decide (u = v) then f <$> findOne (byUser v) coll
    else findOne (byUser u) coll.
Proof.
  intros Hf. unfold findOne.
  induction coll as [|d coll IH]; cbn.
  - destruct (decide (u = v)); reflexivity.
  - destruct (byUser v d) eqn:Hv; cbn.
    + apply byUser_true in Hv. pose proof (Hf d Hv) as Hfd.
      destruct (decide (u = v)) as [->|Hne].
      * replace (byUser v (f d)) with true
          by (symmetry; apply byUser_true; exact Hfd).
        reflexivity.
      * replace (byUser u (f d)) with false; [replace (byUser u d) with false|].
        -- reflexivity.
        -- symmetry. apply bool_decide_eq_false. congruence.
        -- symmetry. apply bool_decide_eq_false. congruence.
    + destruct (byUser u d) eqn:Hu; [|exact IH].
      destruct (decide (u = v)) as [->|Hne]; [congruence|reflexivity].
Qed.

Lemma findOne_app {D} (q : D -> bool) coll d :
  findOne q (coll ++ [d]) =
    match findOne q coll with
    | Some x => Some x
    | None => if q d then Some d else None
    end.
Proof.
  unfold findOne. induction coll as [|x coll IH]; cbn; [reflexivity|].
  destruct (q x); [reflexivity | exact IH].
Qed.

Lemma updateFirst_none {D} (q : D -> bool) f coll :
  findOne q coll = None -> updateFirst q f coll = coll.
Proof.
  unfold findOne. induction coll as [|x coll IH]; cbn; [reflexivity|].
  destruct (q x); [discriminate|]. intros H. rewrite IH by exact H. reflexivity.
Qed.

Lemma filter_byUser_nil coll u :
  List.filter (byUser u) coll = [] <-> findOne (byUser u) coll = None.
Proof.
  unfold findOne. induction coll as [|x coll IH]; cbn; [tauto|].
  destruct (byUser u x); [split; discriminate | exact IH].
Qed.

Lemma touch_userId stamps t d : userId (touch stamps t d) = userId d.
Proof. unfold touch. destruct stamps; reflexivity. Qed.

Lemma touch_chats stamps t d : chats (touch stamps t d) = chats d.
Proof. unfold touch. destruct stamps; reflexivity. Qed.

(** The listing of a user after an update of the first document of [v]. *)
Lemma listing_updateFirst coll v f u :
  (forall d, userId d = v -> userId (f d) = v) ->
  listing (updateFirst (byUser v) f coll) u =
    if decide (u = v)
    then match findOne (byUser v) coll with
         | Some d => chats (f d)
         | None => []
         end
    else listing coll u.
Proof.
  intros Hf. unfold listing. rewrite findOne_updateFirst_byUser by exact Hf.
  destruct (decide (u = v)) as [->|]; [|reflexivity].
  destruct (findOne (byUser v) coll); reflexivity.
Qed.

Lemma listing_app coll d u :
  findOne (byUser (userId d)) coll = None ->
  listing (coll ++ [d]) u =
    if decide (u = userId d) then chats d else listing coll u.
Proof.
  intros Hnone. unfold listing. rewrite findOne_app.
  destruct (decide (u = userId d)) as [->|Hne].
  - rewrite Hnone. replace (byUser (userId d) d) with true; [reflexivity|].
    symmetry. apply byUser_true. reflexivity.
  - destruct (findOne (byUser u) coll); [reflexivity|].
    replace (byUser u d) with false; [reflexivity|].
    symmetry. apply bool_decide_eq_false. congruence.
Qed.

(** ** Ids of a listing *)

Lemma ids_app l c : ids (l ++ [c]) = ids l ++ [_id c].
Proof. unfold ids. rewrite map_app. reflexivity. Qed.

Lemma elem_of_ids chatId l : chatId ∈ ids l <-> exists c, c ∈ l /\ _id c = chatId.
Proof.
  unfold ids. rewrite list_elem_of_fmap. split; intros [c [H1 H2]]; exists c; split; auto.
Qed.

Lemma ids_pull chatId l x :
  x ∈ ids (filter (fun c => _id c <> chatId) l) <-> x ∈ ids l /\ x <> chatId.
Proof.
  rewrite !elem_of_ids. split.
  - intros [c [Hc Hid]]. apply list_elem_of_filter in Hc as [Hne Hc].
    split; [exists c; split; assumption | congruence].
  - intros [[c [Hc Hid]] Hne]. exists c. split; [|exact Hid].
    apply list_elem_of_filter. split; [congruence | exact Hc].
Qed.

Lemma ids_setTitleAt chatId newTitle l :
  ids (updateFirst (hasId chatId) (setTitle newTitle) l) = ids l.
Proof.
  unfold ids. induction l as [|c l IH]; cbn; [reflexivity|].
  destruct (hasId chatId c); cbn; [reflexivity|]. rewrite IH. reflexivity.
Qed.

Lemma existsb_hasId chatId l : existsb (hasId chatId) l = true <-> chatId ∈ ids l.
Proof.
  rewrite existsb_exists, elem_of_ids. unfold hasId.
  split; intros [c [Hc Hid]]; exists c.
  - apply bool_decide_eq_true in Hid. split; [apply list_elem_of_In; exact Hc | exact Hid].
  - split; [apply list_elem_of_In; exact Hc | apply bool_decide_eq_true; exact Hid].
Qed.

Lemma NoDup_ids_pull chatId l :
  NoDup (ids l) -> NoDup (ids (filter (fun c => _id c <> chatId) l)).
Proof.
  unfold ids. induction l as [|c l IH]; cbn; intros Hnd; [constructor|].
  apply NoDup_cons in Hnd as [Hnotin Hnd].
  destruct (decide (_id c <> chatId)); cbn; [|apply IH; exact Hnd].
  apply NoDup_cons. split; [|apply IH; exact Hnd].
  intros Hin. apply Hnotin. apply (ids_pull chatId l). exact Hin.
Qed.

Lemma NoDup_ids_app l c : NoDup (ids l) -> _id c ∉ ids l -> NoDup (ids (l ++ [c])).
Proof.
  intros Hnd Hnotin. rewrite ids_app. apply NoDup_app. split; [exact Hnd|].
  split; [|apply NoDup_singleton].
  intros x Hx Hx'. apply list_elem_of_singleton in Hx'. subst x. contradiction.
Qed.

(** ** The handlers, unfolded *)

Lemma try_catch_bind_throws {St A B} (m : Js St A) (k : A -> Js St B) h s e s' :
  m s = (Throws e, s') -> try_catch (bind m k) h s = h e s'.
Proof. intros H. unfold try_catch, bind. rewrite H. reflexivity. Qed.

Lemma try_catch_bind {St A B} (m : Js St A) (k : A -> Js St B) h s a s' :
  m s = (Returns a, s') -> try_catch (bind m k) h s = try_catch (k a) h s'.
Proof. intros H. unfold try_catch, bind. rewrite H. reflexivity. Qed.

Lemma updateOne_snd {D} `{EqDecision D} (q : D -> bool) f coll :
  snd (updateOne q f coll) = updateFirst q f coll.
Proof.
  unfold updateOne. destruct (findOne q coll) eqn:Hfind; cbn; [reflexivity|].
  symmetry. apply updateFirst_none. exact Hfind.
Qed.

Lemma UserChats_updateOne_eq env q f db :
  UserChats_updateOne env q f db =
    (Returns (fst (updateOne q (fun d => touch ucTimestamps (now env) (f d)) (UserChats db))),
     mkDb (Chat db)
          (updateFirst q (fun d => touch ucTimestamps (now env) (f d)) (UserChats db))
          (PinnedChats db)).
Proof.
  unfold UserChats_updateOne, bind, get.
  rewrite <- updateOne_snd.
  destruct (updateOne q _ (UserChats db)) as [r coll]. reflexivity.
Qed.

Lemma PinnedChats_updateOne_eq env q f db :
  PinnedChats_updateOne env q f db =
    (Returns (fst (updateOne q (fun d => touch true (now env) (f d)) (PinnedChats db))),
     mkDb (Chat db) (UserChats db)
          (updateFirst q (fun d => touch true (now env) (f d)) (PinnedChats db))).
Proof.
  unfold PinnedChats_updateOne, bind, get.
  rewrite <- updateOne_snd.
  destruct (updateOne q _ (PinnedChats db)) as [r coll]. reflexivity.
Qed.

(** A pin of an id that is already pinned changes nothing. *)
Lemma pinChat_already env chatId title db :
  chatId ∈ ids (PinnedChatsOf db demouser) ->
  pinChat env chatId title db = (Returns pinnedResponse, db).
Proof.
  intros Hin. apply existsb_hasId in Hin.
  unfold PinnedChatsOf, listing in Hin.
  unfold pinChat, try_catch, bind, get.
  destruct (findOne (byUser demouser) (PinnedChats db)) as [d|]; cbn in *.
  - rewrite Hin. reflexivity.
  - discriminate.
Qed.

(** A pin of an id that is not pinned yet: the new entry goes to the
    end of the pinned listing and the id leaves the active one, unless
    the save is rejected, which leaves everything as it was. *)
Lemma pinChat_fresh env chatId title db :
  chatId ∉ ids (PinnedChatsOf db demouser) ->
  let found := findOne (byUser demouser) (PinnedChats db) in
  let doc := push (mkSummary chatId title (now env))
               (default (mkListing demouser [] None) found) in
  pinChat env chatId title db =
    if validListing doc
    then (Returns pinnedResponse,
          mkDb (Chat db)
               (updateFirst (byUser demouser)
                  (fun d => touch ucTimestamps (now env) (pull chatId d)) (UserChats db))
               (match found with
                | None => PinnedChats db ++ [touch true (now env) doc]
                | Some _ =>
                    updateFirst (byUser demouser) (fun _ => touch true (now env) doc)
                      (PinnedChats db)
                end))
    else (Returns (mkResponse 500 (Message "Error pinning chat!")), db).
Proof.
  intros Hnotin found doc.
  assert (Hex : existsb (hasId chatId) (chats (default (mkListing demouser [] None) found))
                = false).
  { apply not_true_is_false. intros Hex. apply Hnotin. apply existsb_hasId.
    unfold PinnedChatsOf, listing. fold found. destruct found; exact Hex. }
  unfold pinChat, try_catch, bind, get. fold found.
  replace (match found with Some d => d | None => mkListing demouser [] None end)
    with (default (mkListing demouser [] None) found) by (destruct found; reflexivity).
  rewrite Hex. cbn [negb].
  unfold PinnedChats_save, bind, get, Listing_save. fold doc.
  assert (Huser : userId doc = demouser).
  { subst doc. cbn. destruct found as [d|] eqn:Hf; cbn; [|reflexivity].
    apply byUser_true. apply (find_some _ _ Hf). }
  destruct (validListing doc); cbn -[UserChats_updateOne touch]; [|reflexivity].
  rewrite UserChats_updateOne_eq. cbn -[touch]. cbn in Huser. rewrite Huser.
  destruct found; reflexivity.
Qed.

Lemma unpinChat_absent env chatId db :
  chatId ∉ ids (PinnedChatsOf db demouser) ->
  unpinChat env chatId db = (Returns unpinnedResponse, db).
Proof.
  intros Hnotin. unfold unpinChat, try_catch, bind, get.
  unfold PinnedChatsOf, listing in Hnotin.
  destruct (findOne (byUser demouser) (PinnedChats db)) as [d|]; [|reflexivity].
  destruct (List.find (hasId chatId) (chats d)) as [c|] eqn:Hfind; [|reflexivity].
  exfalso. apply Hnotin. apply existsb_hasId. apply existsb_exists.
  exists c. apply find_some in Hfind. exact Hfind.
Qed.

Lemma unpinChat_present env chatId db pinnedChats chatToMove :
  findOne (byUser demouser) (PinnedChats db) = Some pinnedChats ->
  List.find (hasId chatId) (chats pinnedChats) = Some chatToMove ->
  unpinChat env chatId db =
    if validListing (pull chatId pinnedChats)
    then (Returns unpinnedResponse,
          mkDb (Chat db)
               (upsertOne (byUser demouser)
                  (fun d => touch ucTimestamps (now env) (push chatToMove d))
                  (touch ucTimestamps (now env) (mkListing demouser [chatToMove] None))
                  (UserChats db))
               (updateFirst (byUser demouser)
                  (fun _ => touch true (now env) (pull chatId pinnedChats))
                  (PinnedChats db)))
    else (Returns (mkResponse 500 (Message "Error unpinning chat!")), db).
Proof.
  intros Hdoc Hfind. unfold unpinChat, try_catch, bind, get.
  rewrite Hdoc, Hfind.
  unfold PinnedChats_save, bind, get, Listing_save.
  assert (Huser : userId pinnedChats = demouser)
    by (apply byUser_true; apply (find_some _ _ Hdoc)).
  destruct (validListing (pull chatId pinnedChats)); cbn -[touch upsertOne]; [|reflexivity].
  rewrite Huser. reflexivity.
Qed.

Lemma listing_upsertOne coll v f fresh u :
  (forall d, userId d = v -> userId (f d) = v) ->
  userId fresh = v ->
  listing (upsertOne (byUser v) f fresh coll) u =
    if decide (u = v)
    then match findOne (byUser v) coll with
         | Some d => chats (f d)
         | None => chats fresh
         end
    else listing coll u.
Proof.
  intros Hf Hfresh. unfold upsertOne.
  destruct (findOne (byUser v) coll) as [d|] eqn:Hfind.
  - rewrite listing_updateFirst by exact Hf. rewrite Hfind. reflexivity.
  - rewrite listing_app by (rewrite Hfresh; exact Hfind).
    rewrite Hfresh. reflexivity.
Qed.

(** ** What a request does to the two listings *)

Lemma effectOf_refl env req db : effectOf env req db db.
Proof. split; [intros u _; split; reflexivity | apply eff_same; reflexivity]. Qed.

Lemma listing_pull coll v stamps t chatId u :
  listing (updateFirst (byUser v) (fun d => touch stamps t (pull chatId d)) coll) u =
    if decide (u = v) then filter (fun c => _id c <> chatId) (listing coll v)
    else listing coll u.
Proof.
  rewrite listing_updateFirst
    by (intros d Hd; rewrite touch_userId; exact Hd).
  destruct (decide (u = v)); [|reflexivity].
  unfold listing. destruct (findOne (byUser v) coll); [|reflexivity].
  rewrite touch_chats. reflexivity.
Qed.

Lemma pinChat_effect env chatId title db :
  effectOf env (PinChat chatId title) db (snd (pinChat env chatId title db)).
Proof.
  destruct (decide (chatId ∈ ids (PinnedChatsOf db demouser))) as [Hin|Hnotin].
  - rewrite pinChat_already by exact Hin. apply effectOf_refl.
  - rewrite pinChat_fresh by exact Hnotin.
    destruct (validListing _); [|apply effectOf_refl]. cbn [snd].
    assert (Hpinned : forall u,
      listing
        match findOne (byUser demouser) (PinnedChats db) with
        | Some _ =>
            updateFirst (byUser demouser)
              (fun _ => touch true (now env)
                 (push (mkSummary chatId title (now env))
                    (default (mkListing demouser [] None)
                       (findOne (byUser demouser) (PinnedChats db)))))
              (PinnedChats db)
        | None =>
            PinnedChats db ++
              [touch true (now env)
                 (push (mkSummary chatId title (now env))
                    (default (mkListing demouser [] None)
                       (findOne (byUser demouser) (PinnedChats db))))]
        end u =
      if decide (u = demouser)
      then listing (PinnedChats db) demouser ++ [mkSummary chatId title (now env)]
      else listing (PinnedChats db) u).
    { intros u. unfold listing at 2.
      destruct (findOne (byUser demouser) (PinnedChats db)) as [d|] eqn:Hfound.
      - rewrite listing_updateFirst; [rewrite Hfound; reflexivity|].
        intros d' _. cbn. apply byUser_true. apply (find_some _ _ Hfound).
      - rewrite listing_app by exact Hfound. reflexivity. }
    split.
    + intros u Hu. unfold ActiveChats, PinnedChatsOf. cbn [UserChats PinnedChats].
      rewrite listing_pull, Hpinned.
      destruct (decide (u = demouser)); [contradiction|]. split; reflexivity.
    + unfold ActiveChats, PinnedChatsOf. cbn [UserChats PinnedChats].
      rewrite listing_pull, Hpinned.
      destruct (decide (demouser = demouser)); [|contradiction].
      apply eff_pin. exact Hnotin.
Qed.

Lemma unpinChat_effect env chatId db :
  effectOf env (UnpinChat chatId) db (snd (unpinChat env chatId db)).
Proof.
  destruct (decide (chatId ∈ ids (PinnedChatsOf db demouser))) as [Hin|Hnotin].
  2: { rewrite unpinChat_absent by exact Hnotin. apply effectOf_refl. }
  apply existsb_hasId in Hin. unfold PinnedChatsOf, listing in Hin.
  destruct (findOne (byUser demouser) (PinnedChats db)) as [d|] eqn:Hdoc;
    [|discriminate].
  destruct (List.find (hasId chatId) (chats d)) as [c|] eqn:Hfind.
  2: { apply existsb_exists in Hin as [c [Hc Hid]].
       pose proof (find_none _ _ Hfind c Hc). congruence. }
  rewrite (unpinChat_present _ _ _ _ _ Hdoc Hfind).
  destruct (validListing _); [|apply effectOf_refl]. cbn [snd].
  assert (Huser : userId d = demouser)
    by (apply byUser_true; apply (find_some _ _ Hdoc)).
  assert (Hactive : forall u,
    listing (upsertOne (byUser demouser)
               (fun d => touch ucTimestamps (now env) (push c d))
               (touch ucTimestamps (now env) (mkListing demouser [c] None))
               (UserChats db)) u =
    if decide (u = demouser) then listing (UserChats db) demouser ++ [c]
    else listing (UserChats db) u).
  { intros u. rewrite listing_upsertOne.
    - destruct (decide (u = demouser)); [|reflexivity].
      unfold listing. destruct (findOne (byUser demouser) (UserChats db));
        rewrite touch_chats; reflexivity.
    - intros d' Hd'. rewrite touch_userId. exact Hd'.
    - rewrite touch_userId. reflexivity. }
  assert (Hpinned : forall u,
    listing (updateFirst (byUser demouser)
               (fun _ => touch true (now env) (pull chatId d)) (PinnedChats db)) u =
    if decide (u = demouser) then filter (fun c => _id c <> chatId) (chats d)
    else listing (PinnedChats db) u).
  { intros u. rewrite listing_updateFirst.
    - rewrite Hdoc. reflexivity.
    - intros d' _. cbn. exact Huser. }
  split.
  - intros u Hu. unfold ActiveChats, PinnedChatsOf. cbn [UserChats PinnedChats].
    rewrite Hactive, Hpinned.
    destruct (decide (u = demouser)); [contradiction|]. split; reflexivity.
  - unfold ActiveChats, PinnedChatsOf. cbn [UserChats PinnedChats].
    rewrite Hactive, Hpinned.
    destruct (decide (demouser = demouser)); [|contradiction].
    unfold listing at 2 3. rewrite Hdoc.
    apply find_some in Hfind as [Hc Hid].
    apply eff_unpin.
    + apply list_elem_of_In. exact Hc.
    + unfold hasId in Hid. apply bool_decide_eq_true in Hid. exact Hid.
Qed.

(** The store a delete leaves, whatever it answers: both pulls are
    done before the Chat collection is touched. *)
Lemma deleteChat_listings env chatId db :
  let db' := snd (deleteChat env chatId db) in
  UserChats db' =
    updateFirst (byUser demouser)
      (fun d => touch ucTimestamps (now env) (pull chatId d)) (UserChats db) /\
  PinnedChats db' =
    updateFirst (byUser demouser)
      (fun d => touch true (now env) (pull chatId d)) (PinnedChats db) /\
  Chat db' =
    if validObjectId chatId
    then deleteFirst (byChatId chatId) (Chat db)
    else Chat db.
Proof.
  unfold deleteChat.
  rewrite (try_catch_bind _ _ _ _ _ _ (UserChats_updateOne_eq _ _ _ _)).
  rewrite (try_catch_bind _ _ _ _ _ _ (PinnedChats_updateOne_eq _ _ _ _)).
  cbn [UserChats PinnedChats Chat].
  unfold castObjectId, try_catch, bind.
  destruct (validObjectId chatId); cbn; [|repeat split; reflexivity].
  destruct (existsb _ (Chat db)); cbn; repeat split; reflexivity.
Qed.

Lemma deleteChat_effect env chatId db :
  effectOf env (DeleteChat chatId) db (snd (deleteChat env chatId db)).
Proof.
  destruct (deleteChat_listings env chatId db) as (Hu & Hp & _).
  split.
  - intros u Hne. unfold ActiveChats, PinnedChatsOf. rewrite Hu, Hp, !listing_pull.
    destruct (decide (u = demouser)); [contradiction|]. split; reflexivity.
  - unfold ActiveChats, PinnedChatsOf. rewrite Hu, Hp, !listing_pull.
    destruct (decide (demouser = demouser)); [|contradiction].
    apply eff_delete.
Qed.

Lemma listing_updateFirst_other coll (q : ListingDoc -> bool) f u v :
  (forall d, q d = true -> userId d = u) ->
  (forall d, userId (f d) = userId d) ->
  v <> u ->
  listing (updateFirst q f coll) v = listing coll v.
Proof.
  intros Hq Hf Hne. unfold listing, findOne.
  induction coll as [|d coll IH]; cbn [updateFirst List.find]; [reflexivity|].
  destruct (q d) eqn:Hqd; cbn [List.find].
  - apply Hq in Hqd.
    replace (byUser v (f d)) with false
      by (symmetry; apply bool_decide_eq_false; rewrite Hf; congruence).
    replace (byUser v d) with false
      by (symmetry; apply bool_decide_eq_false; congruence).
    reflexivity.
  - destruct (byUser v d); [reflexivity | exact IH].
Qed.

(** A rename keeps the ids of every listing. *)
Lemma ids_listing_setTitleAt coll stamps t u chatId newTitle v :
  ids (listing (updateFirst (byUserAndChat u chatId)
                  (fun d => touch stamps t (setTitleAt chatId newTitle d)) coll) v) =
  ids (listing coll v).
Proof.
  unfold listing, findOne.
  induction coll as [|d coll IH]; cbn [updateFirst List.find]; [reflexivity|].
  destruct (byUserAndChat u chatId d) eqn:Hq; cbn [List.find].
  - assert (Hsame : byUser v (touch stamps t (setTitleAt chatId newTitle d)) = byUser v d).
    { unfold byUser. rewrite touch_userId. reflexivity. }
    rewrite Hsame. destruct (byUser v d); [|reflexivity].
    rewrite touch_chats. cbn [chats setTitleAt]. apply ids_setTitleAt.
  - destruct (byUser v d); [reflexivity | exact IH].
Qed.

Lemma renameChat_effect env chatId newTitle db :
  effectOf env (RenameChat chatId newTitle) db (snd (renameChat env chatId newTitle db)).
Proof.
  assert (Hids : forall u,
    ids (ActiveChats (snd (renameChat env chatId newTitle db)) u) = ids (ActiveChats db u) /\
    ids (PinnedChatsOf (snd (renameChat env chatId newTitle db)) u) =
      ids (PinnedChatsOf db u)).
  { intros u. unfold renameChat.
    rewrite (try_catch_bind _ _ _ _ _ _ (UserChats_updateOne_eq _ _ _ _)).
    destruct (bool_decide (modifiedCount _ = 0%nat)).
    - rewrite (try_catch_bind _ _ _ _ _ _ (PinnedChats_updateOne_eq _ _ _ _)).
      unfold try_catch. destruct (bool_decide _); cbn -[touch];
        unfold ActiveChats, PinnedChatsOf; cbn -[touch];
        rewrite !ids_listing_setTitleAt; split; reflexivity.
    - unfold try_catch, bind. cbn -[touch].
      destruct (bool_decide _); cbn -[touch];
        unfold ActiveChats, PinnedChatsOf; cbn -[touch];
        rewrite !ids_listing_setTitleAt; split; reflexivity. }
  split.
  - intros u Hne. unfold renameChat.
    rewrite (try_catch_bind _ _ _ _ _ _ (UserChats_updateOne_eq _ _ _ _)).
    assert (Hq : forall d, byUserAndChat demouser chatId d = true -> userId d = demouser).
    { intros d Hd. unfold byUserAndChat in Hd. apply andb_true_iff in Hd as [Hd _].
      apply byUser_true. exact Hd. }
    assert (Hf : forall stamps d,
              userId (touch stamps (now env) (setTitleAt chatId newTitle d)) = userId d).
    { intros stamps d. rewrite touch_userId. reflexivity. }
    destruct (bool_decide (modifiedCount _ = 0%nat)).
    + rewrite (try_catch_bind _ _ _ _ _ _ (PinnedChats_updateOne_eq _ _ _ _)).
      unfold try_catch. destruct (bool_decide _); cbn -[touch];
        unfold ActiveChats, PinnedChatsOf; cbn -[touch];
        rewrite !(listing_updateFirst_other _ _ _ demouser) by auto;
        split; reflexivity.
    + unfold try_catch, bind. cbn -[touch].
      destruct (bool_decide _); cbn -[touch];
        unfold ActiveChats, PinnedChatsOf; cbn -[touch];
        rewrite !(listing_updateFirst_other _ _ _ demouser) by auto;
        split; reflexivity.
  - apply eff_same; apply Hids.
Qed.

Lemma updateFirst_fixed {D} (q : D -> bool) (f : D -> D) coll d :
  findOne q coll = Some d -> f d = d -> updateFirst q f coll = coll.
Proof.
  unfold findOne. induction coll as [|x coll IH]; cbn; [discriminate|].
  destruct (q x).
  - intros [= ->] Hfix. rewrite Hfix. reflexivity.
  - intros Hfind Hfix. rewrite IH by assumption. reflexivity.
Qed.

Lemma updateOne_unmodified {D} `{EqDecision D} (q : D -> bool) (f : D -> D) coll :
  modifiedCount (fst (updateOne q f coll)) = 0%nat -> snd (updateOne q f coll) = coll.
Proof.
  unfold updateOne. destruct (findOne q coll) as [d|] eqn:Hfind; cbn; [|reflexivity].
  destruct (decide (f d = d)) as [Hfix|]; [|discriminate].
  intros _. apply (updateFirst_fixed _ _ _ _ Hfind Hfix).
Qed.

(** What the rename handler does, step by step: the second update is
    made exactly when the first one modified nothing, and the answer
    is 404 exactly when the last update made modified nothing. *)
Lemma renameChat_unfold env chatId newTitle db :
  let first := updateOne (byUserAndChat demouser chatId)
                 (fun d => touch ucTimestamps (now env) (setTitleAt chatId newTitle d))
                 (UserChats db) in
  let second := updateOne (byUserAndChat demouser chatId)
                  (fun d => touch true (now env) (setTitleAt chatId newTitle d))
                  (PinnedChats db) in
  renameChat env chatId newTitle db =
    if bool_decide (modifiedCount (fst first) = 0%nat)
    then (Returns (if bool_decide (0 < modifiedCount (fst second))%nat
                   then mkResponse 200 (Message "Chat renamed successfully!")
                   else mkResponse 404 (Message "Chat not found in UserChats or PinnedChats!")),
          mkDb (Chat db) (UserChats db) (snd second))
    else (Returns (mkResponse 200 (Message "Chat renamed successfully!")),
          mkDb (Chat db) (snd first) (PinnedChats db)).
Proof.
  intros first second. unfold renameChat.
  rewrite (try_catch_bind _ _ _ _ _ _ (UserChats_updateOne_eq _ _ _ _)).
  fold first. rewrite <- (updateOne_snd _ _ (UserChats db)). fold first.
  case_bool_decide as Hfirst.
  - rewrite (try_catch_bind _ _ _ _ _ _ (PinnedChats_updateOne_eq _ _ _ _)).
    cbn [Chat UserChats PinnedChats]. fold second.
    rewrite <- (updateOne_snd _ _ (PinnedChats db)). fold second.
    replace (snd first) with (UserChats db)
      by (symmetry; apply updateOne_unmodified; exact Hfirst).
    unfold try_catch. destruct (bool_decide _); reflexivity.
  - unfold try_catch, bind, ret.
    case_bool_decide as Hpos; [reflexivity|]. exfalso. lia.
Qed.

(** A rename writes to at most one of the two collections. *)
Lemma rename_changes_at_most_one_projection env chatId newTitle db :
  UserChats (snd (renameChat env chatId newTitle db)) = UserChats db \/
  PinnedChats (snd (renameChat env chatId newTitle db)) = PinnedChats db.
Proof.
  rewrite renameChat_unfold. destruct (bool_decide _); [left|right]; reflexivity.
Qed.

Lemma getUserChats_state db : snd (getUserChats db) = db.
Proof. reflexivity. Qed.

Lemma getPinnedChats_state db : snd (getPinnedChats db) = db.
Proof. reflexivity. Qed.

Lemma getChat_state id db : snd (getChat id db) = db.
Proof.
  unfold getChat, try_catch, bind, castObjectId.
  destruct (validObjectId id); reflexivity.
Qed.

Lemma appendChat_listings id question assistantResponse db :
  UserChats (snd (appendChat id question assistantResponse db)) = UserChats db /\
  PinnedChats (snd (appendChat id question assistantResponse db)) = PinnedChats db.
Proof.
  unfold appendChat, try_catch, bind, castObjectId.
  destruct (validObjectId id); cbn; [|split; reflexivity].
  destruct (updateOne _ _ (Chat db)) as [r coll]. cbn. split; reflexivity.
Qed.

Lemma Chat_save_eq env u h db :
  Chat_save env u h db =
    if negb (truthy u && forallb validTurn h) then (Throws ValidationError, db)
    else if existsb (byChatId (newObjectId env)) (Chat db)
         then (Throws DuplicateKey, db)
         else (Returns (mkChat (newObjectId env) u h (now env) (now env)),
               setChat (fun coll => coll ++ [mkChat (newObjectId env) u h (now env) (now env)]) db).
Proof.
  unfold Chat_save. destruct (negb _); [reflexivity|].
  unfold bind, get. destruct (existsb _ (Chat db)); reflexivity.
Qed.

(** When a creation goes through, the chat is stored and its entry
    ends the active listing; a rejected one lists nothing new. *)
Lemma createChat_cases env text assistantResponse db :
  let r := createChat env text assistantResponse db in
  (status_of r = 500%nat /\
   UserChats (snd r) = UserChats db /\ PinnedChats (snd r) = PinnedChats db) \/
  (fst r = Returns (mkResponse 201 (Data (ChatIdOf (newObjectId env)))) /\
   Chat (snd r) = Chat db ++ [createdChat env text assistantResponse] /\
   PinnedChats (snd r) = PinnedChats db /\
   forall u, listing (UserChats (snd r)) u =
             if decide (u = demouser)
             then listing (UserChats db) demouser ++ [createdEntry env text]
             else listing (UserChats db) u).
Proof.
  intros r. subst r. unfold createChat.
  pose proof (Chat_save_eq env demouser
                [mkTurn "user" text; mkTurn "assistant" assistantResponse] db) as Hsave.
  destruct (negb _).
  { rewrite (try_catch_bind_throws _ _ _ _ _ _ Hsave). left. cbn. auto. }
  destruct (existsb _ (Chat db)).
  { rewrite (try_catch_bind_throws _ _ _ _ _ _ Hsave). left. cbn. auto. }
  rewrite (try_catch_bind _ _ _ _ _ _ Hsave). clear Hsave.
  rewrite (try_catch_bind get _ _ _ _ _ eq_refl).
  cbn [setChat UserChats chat_id].
  fold (createdEntry env text). fold (createdChat env text assistantResponse).
  case_bool_decide as Hlen.
  - apply length_zero_iff_nil, filter_byUser_nil in Hlen.
    unfold UserChats_save, Listing_save, bind, get, try_catch.
    cbn [UserChats PinnedChats Chat].
    destruct (validListing _); cbn -[touch]; [right | left; auto].
    repeat split; try reflexivity.
    intros u. rewrite listing_app by (rewrite touch_userId; exact Hlen).
    rewrite touch_userId, touch_chats. cbn [userId chats].
    destruct (decide (u = demouser)); [|reflexivity].
    unfold listing. rewrite Hlen. reflexivity.
  - right.
    assert (Hupd : forall db0,
      (do UserChats_updateOne env (byUser demouser) (push (createdEntry env text))
       then ret tt) db0 =
      (Returns tt,
       mkDb (Chat db0)
         (updateFirst (byUser demouser)
            (fun d => touch ucTimestamps (now env) (push (createdEntry env text) d))
            (UserChats db0))
         (PinnedChats db0))).
    { intros db0. unfold bind. rewrite UserChats_updateOne_eq. reflexivity. }
    rewrite (try_catch_bind _ _ _ _ _ _ (Hupd _)).
    unfold try_catch, ret. cbn -[touch].
    repeat split; try reflexivity.
    intros u. rewrite listing_updateFirst
      by (intros d Hd; rewrite touch_userId; exact Hd).
    destruct (decide (u = demouser)); [|reflexivity].
    unfold listing. destruct (findOne (byUser demouser) (UserChats db)) eqn:Hfind.
    + rewrite touch_chats. reflexivity.
    + exfalso. apply Hlen. apply length_zero_iff_nil, filter_byUser_nil. exact Hfind.
Qed.

Lemma createChat_effect env text assistantResponse db :
  effectOf env (CreateChat text assistantResponse) db
    (snd (createChat env text assistantResponse db)).
Proof.
  destruct (createChat_cases env text assistantResponse db) as [(_ & Hu & Hp)|(_ & _ & Hp & Hu)].
  - split.
    + intros u _. unfold ActiveChats, PinnedChatsOf. rewrite Hu, Hp. split; reflexivity.
    + unfold ActiveChats, PinnedChatsOf. rewrite Hu, Hp. apply eff_same; reflexivity.
  - split.
    + intros u Hne. unfold ActiveChats, PinnedChatsOf. rewrite Hu, Hp.
      destruct (decide (u = demouser)); [contradiction|]. split; reflexivity.
    + unfold ActiveChats, PinnedChatsOf. rewrite Hu, Hp.
      destruct (decide (demouser = demouser)); [|contradiction].
      apply eff_create.
Qed.

(** Every request is one of the effects. *)
Lemma handle_effect env req db : effectOf env req db (snd (handle env req db)).
Proof.
  assert (Hrun : forall (m : Js Db Resp) dflt, snd (run m db dflt) = snd (m db)).
  { intros m dflt. unfold run. destruct (m db) as [[r|e] db']; reflexivity. }
  unfold handle. rewrite Hrun. destruct req; cbn [route].
  - apply createChat_effect.
  - rewrite getUserChats_state. apply effectOf_refl.
  - rewrite getChat_state. apply effectOf_refl.
  - destruct (appendChat_listings id question assistantResponse db) as [Hu Hp].
    split.
    + intros u _. unfold ActiveChats, PinnedChatsOf. rewrite Hu, Hp. split; reflexivity.
    + unfold ActiveChats, PinnedChatsOf. rewrite Hu, Hp. apply eff_same; reflexivity.
  - apply deleteChat_effect.
  - apply renameChat_effect.
  - apply pinChat_effect.
  - apply unpinChat_effect.
  - rewrite getPinnedChats_state. apply effectOf_refl.
Qed.

(** ** Completed pins and unpins *)

(** A first pin that went through. *)
Lemma pinChat_completed env chatId title db db' :
  chatId ∉ ids (PinnedChatsOf db demouser) ->
  pinChat env chatId title db = (Returns pinnedResponse, db') ->
  Chat db' = Chat db /\
  (forall u, ActiveChats db' u =
             if decide (u = demouser)
             then filter (fun c => _id c <> chatId) (ActiveChats db demouser)
             else ActiveChats db u) /\
  (forall u, PinnedChatsOf db' u =
             if decide (u = demouser)
             then PinnedChatsOf db demouser ++ [mkSummary chatId title (now env)]
             else PinnedChatsOf db u).
Proof.
  intros Hnotin Hpin. rewrite pinChat_fresh in Hpin by exact Hnotin.
  destruct (validListing _); [|discriminate].
  injection Hpin as <-. cbn [Chat]. split; [reflexivity|]. split.
  - intros u. unfold ActiveChats. cbn [UserChats]. apply listing_pull.
  - intros u. unfold PinnedChatsOf. cbn [PinnedChats]. unfold listing at 2 3.
    destruct (findOne (byUser demouser) (PinnedChats db)) as [d|] eqn:Hfound.
    + rewrite listing_updateFirst; [rewrite Hfound; reflexivity|].
      intros d' _. cbn. apply byUser_true. apply (find_some _ _ Hfound).
    + rewrite listing_app by exact Hfound. reflexivity.
Qed.

(** An unpin of a pinned id that went through: the entry found in the
    pinned listing is the one now ending the active listing. *)
Lemma unpinChat_completed env chatId db db' :
  chatId ∈ ids (PinnedChatsOf db demouser) ->
  unpinChat env chatId db = (Returns unpinnedResponse, db') ->
  exists chatToMove,
    List.find (hasId chatId) (PinnedChatsOf db demouser) = Some chatToMove /\
    Chat db' = Chat db /\
    (forall u, ActiveChats db' u =
               if decide (u = demouser) then ActiveChats db demouser ++ [chatToMove]
               else ActiveChats db u) /\
    (forall u, PinnedChatsOf db' u =
               if decide (u = demouser)
               then filter (fun c => _id c <> chatId) (PinnedChatsOf db demouser)
               else PinnedChatsOf db u).
Proof.
  intros Hin Hunpin.
  apply existsb_hasId in Hin. unfold PinnedChatsOf at 1, listing in Hin.
  destruct (findOne (byUser demouser) (PinnedChats db)) as [d|] eqn:Hdoc;
    [|discriminate].
  destruct (List.find (hasId chatId) (chats d)) as [c|] eqn:Hfind.
  2: { apply existsb_exists in Hin as [c [Hc Hid]].
       pose proof (find_none _ _ Hfind c Hc). congruence. }
  rewrite (unpinChat_present _ _ _ _ _ Hdoc Hfind) in Hunpin.
  destruct (validListing _); [|discriminate].
  injection Hunpin as <-.
  assert (Huser : userId d = demouser)
    by (apply byUser_true; apply (find_some _ _ Hdoc)).
  exists c. split; [unfold PinnedChatsOf, listing; rewrite Hdoc; exact Hfind|].
  split; [reflexivity|]. split.
  - intros u. unfold ActiveChats. cbn [UserChats]. rewrite listing_upsertOne.
    + destruct (decide (u = demouser)); [|reflexivity].
      unfold listing. destruct (findOne (byUser demouser) (UserChats db));
        rewrite touch_chats; reflexivity.
    + intros d' Hd'. rewrite touch_userId. exact Hd'.
    + rewrite touch_userId. reflexivity.
  - intros u. unfold PinnedChatsOf. cbn [PinnedChats]. rewrite listing_updateFirst.
    + unfold listing at 2. rewrite Hdoc. reflexivity.
    + intros d' _. cbn. exact Huser.
Qed.

(** ** Counting entries *)

Lemma countId_zero chatId l : countId chatId l = 0%nat <-> chatId ∉ ids l.
Proof.
  unfold countId. rewrite length_zero_iff_nil, elem_of_ids. split.
  - intros Hnil [c [Hc Hid]].
    assert (Hin : c ∈ filter (fun c => _id c = chatId) l)
      by (apply list_elem_of_filter; split; assumption).
    rewrite Hnil in Hin. inversion Hin.
  - intros Hnone. destruct (filter _ l) as [|c rest] eqn:Hf; [reflexivity|].
    exfalso. apply Hnone. exists c.
    assert (Hin : c ∈ filter (fun c => _id c = chatId) l)
      by (rewrite Hf; apply list_elem_of_here).
    apply list_elem_of_filter in Hin as [Hid Hc]. split; assumption.
Qed.

Lemma countId_app chatId l1 l2 :
  countId chatId (l1 ++ l2) = (countId chatId l1 + countId chatId l2)%nat.
Proof. unfold countId. rewrite filter_app, length_app. reflexivity. Qed.

Lemma countId_one chatId l :
  NoDup (ids l) -> chatId ∈ ids l -> countId chatId l = 1%nat.
Proof.
  induction l as [|c l IH]; intros Hnd Hin.
  - inversion Hin.
  - cbn in Hnd. apply NoDup_cons in Hnd as [Hnotin Hnd].
    change (c :: l) with ([c] ++ l). rewrite countId_app.
    destruct (decide (_id c = chatId)) as [Heq|Hne].
    + assert (Hrest : countId chatId l = 0%nat)
        by (apply countId_zero; rewrite <- Heq; exact Hnotin).
      rewrite Hrest. unfold countId. cbn.
      destruct (decide (_id c = chatId)); [reflexivity|contradiction].
    + assert (Hhead : countId chatId [c] = 0%nat).
      { apply countId_zero. cbn. intros Hc. apply list_elem_of_singleton in Hc.
        congruence. }
      rewrite Hhead. cbn in Hin. apply elem_of_cons in Hin as [Hin|Hin]; [congruence|].
      apply IH; assumption.
Qed.

(** ** The invariants *)

Lemma effect_exclusive env req a p a' p' :
  Effect env req a p a' p' ->
  match req with
  | CreateChat _ _ => newObjectId env ∉ ids p
  | _ => True
  end ->
  (forall x, x ∈ ids a -> x ∉ ids p) ->
  forall x, x ∈ ids a' -> x ∉ ids p'.
Proof.
  intros Heff Hfresh Hex x.
  destruct Heff as [req a p a' p' Ha Hp| text resp a p | chatId title a p Hnotin
                   | chatId s a p Hs Hid | chatId a p].
  - rewrite Ha, Hp. apply Hex.
  - rewrite ids_app. cbn [_id]. intros Hx.
    apply elem_of_app in Hx as [Hx|Hx]; [apply Hex; exact Hx|].
    apply list_elem_of_singleton in Hx. subst x. exact Hfresh.
  - intros Hx. apply ids_pull in Hx as [Hx Hne].
    rewrite ids_app. cbn [_id]. intros Hx'.
    apply elem_of_app in Hx' as [Hx'|Hx']; [exact (Hex x Hx Hx')|].
    apply list_elem_of_singleton in Hx'. contradiction.
  - rewrite ids_app. intros Hx Hx'. apply ids_pull in Hx' as [Hx' Hne].
    apply elem_of_app in Hx as [Hx|Hx]; [exact (Hex x Hx Hx')|].
    apply list_elem_of_singleton in Hx. congruence.
  - intros Hx Hx'. apply ids_pull in Hx as [Hx _]. apply ids_pull in Hx' as [Hx' _].
    exact (Hex x Hx Hx').
Qed.

Lemma handle_exclusive env req db :
  freshId env req db -> mutuallyExclusive db ->
  mutuallyExclusive (snd (handle env req db)).
Proof.
  intros Hfresh Hex u chatId [Ha Hp].
  destruct (handle_effect env req db) as [Hothers Heff].
  destruct (decide (u = demouser)) as [->|Hne].
  - revert Hp. eapply effect_exclusive; [exact Heff | | | exact Ha].
    + destruct req; try exact I. apply Hfresh.
    + intros x Hx Hx'. apply (Hex demouser x). split; assumption.
  - destruct (Hothers u Hne) as [Hau Hpu]. rewrite Hau in Ha. rewrite Hpu in Hp.
    apply (Hex u chatId). split; assumption.
Qed.

Lemma emptyDb_exclusive : mutuallyExclusive emptyDb.
Proof. intros u chatId [Ha _]. inversion Ha. Qed.

(** C1. After any sequence of requests, served from a store in which
    no id is listed twice over (the empty store is one), no chat id
    of any user is in both the active and the pinned listing,
    provided the id generated for each new chat is not listed
    already. *)
Theorem listings_stay_mutually_exclusive :
  forall (trace : list (Env * Request)) (db : Db),
    mutuallyExclusive db ->
    freshIds trace db ->
    forall u chatId,
      ~ (chatId ∈ ids (ActiveChats (serve trace db) u) /\
         chatId ∈ ids (PinnedChatsOf (serve trace db) u)).
Proof.
  induction trace as [|[env req] trace IH]; intros db Hex Hfresh.
  - exact Hex.
  - cbn [serve]. destruct Hfresh as [Hnow Hlater].
    apply IH; [|exact Hlater].
    apply handle_exclusive; assumption.
Qed.

Lemma effect_inv env req a p a' p' :
  Effect env req a p a' p' ->
  match req with
  | CreateChat _ _ => (newObjectId env ∉ ids a) /\ (newObjectId env ∉ ids p)
  | _ => True
  end ->
  NoDup (ids a) -> NoDup (ids p) -> (forall x, x ∈ ids a -> x ∉ ids p) ->
  NoDup (ids a') /\ NoDup (ids p').
Proof.
  intros Heff Hfresh Hna Hnp Hex.
  destruct Heff as [req a p a' p' Ha Hp| text resp a p | chatId title a p Hnotin
                   | chatId s a p Hs Hid | chatId a p].
  - rewrite Ha, Hp. split; assumption.
  - split; [|exact Hnp]. apply NoDup_ids_app; [exact Hna | apply Hfresh].
  - split; [apply NoDup_ids_pull; exact Hna|].
    apply NoDup_ids_app; [exact Hnp | exact Hnotin].
  - split; [|apply NoDup_ids_pull; exact Hnp].
    apply NoDup_ids_app; [exact Hna|].
    intros Hin. apply (Hex _ Hin). apply elem_of_ids. exists s. split; [exact Hs|reflexivity].
  - split; apply NoDup_ids_pull; assumption.
Qed.

Lemma handle_listingInv env req db :
  freshId env req db -> listingInv db demouser ->
  listingInv (snd (handle env req db)) demouser.
Proof.
  intros Hfresh (Hna & Hnp & Hex).
  destruct (handle_effect env req db) as [_ Heff].
  assert (Hfresh' : match req with
                    | CreateChat _ _ =>
                        (newObjectId env ∉ ids (ActiveChats db demouser)) /\
                        (newObjectId env ∉ ids (PinnedChatsOf db demouser))
                    | _ => True
                    end) by (destruct req; try exact I; exact Hfresh).
  destruct (effect_inv _ _ _ _ _ _ Heff Hfresh' Hna Hnp Hex) as [Hna' Hnp'].
  split; [exact Hna'|]. split; [exact Hnp'|].
  eapply effect_exclusive; [exact Heff | | exact Hex].
  destruct req; try exact I. apply Hfresh.
Qed.

Lemma serve_listingInv trace db :
  listingInv db demouser -> freshIds trace db -> listingInv (serve trace db) demouser.
Proof.
  revert db. induction trace as [|[env req] trace IH]; intros db Hinv Hfresh.
  - exact Hinv.
  - cbn [serve]. destruct Hfresh as [Hnow Hlater].
    apply IH; [|exact Hlater]. apply handle_listingInv; assumption.
Qed.

Lemma emptyDb_listingInv u : listingInv emptyDb u.
Proof.
  repeat split; try apply NoDup_nil_2. intros x Hx. inversion Hx.
Qed.

(** C6. A pin that went through has the id pinned; pinning the same
    id once more answers the same and changes nothing, and the id has
    exactly one pinned entry and no active one.  In particular a pin
    of an id that is already pinned is such a repetition. *)
Theorem pin_is_idempotent :
  forall (env1 env2 : Env) (chatId title1 title2 : string) (db db1 : Db),
    listingInv db demouser ->
    pinChat env1 chatId title1 db = (Returns pinnedResponse, db1) ->
    chatId ∈ ids (PinnedChatsOf db1 demouser) /\
    pinChat env2 chatId title2 db1 = (Returns pinnedResponse, db1) /\
    countId chatId (PinnedChatsOf db1 demouser) = 1%nat /\
    countId chatId (ActiveChats db1 demouser) = 0%nat.
Proof.
  intros env1 env2 chatId title1 title2 db db1 (Hna & Hnp & Hex) Hpin.
  destruct (decide (chatId ∈ ids (PinnedChatsOf db demouser))) as [Hin|Hnotin].
  - rewrite pinChat_already in Hpin by exact Hin. injection Hpin as <-.
    split; [exact Hin|]. split; [apply pinChat_already; exact Hin|].
    split; [apply countId_one; assumption|].
    apply countId_zero. intros Ha. exact (Hex _ Ha Hin).
  - destruct (pinChat_completed _ _ _ _ _ Hnotin Hpin) as (_ & Ha & Hp).
    specialize (Ha demouser). specialize (Hp demouser).
    destruct (decide (demouser = demouser)); [|contradiction].
    assert (Hin1 : chatId ∈ ids (PinnedChatsOf db1 demouser)).
    { rewrite Hp, ids_app. apply elem_of_app. right. apply list_elem_of_here. }
    split; [exact Hin1|]. split; [apply pinChat_already; exact Hin1|].
    split.
    + rewrite Hp, countId_app.
      replace (countId chatId (PinnedChatsOf db demouser)) with 0%nat
        by (symmetry; apply countId_zero; exact Hnotin).
      unfold countId. cbn. destruct (decide (chatId = chatId)); [reflexivity|contradiction].
    + apply countId_zero. rewrite Ha. intros Hin'. apply ids_pull in Hin' as [_ Hne].
      contradiction.
Qed.

(** C2, as the code has it.  An unpin moves the pinned entry, as it
    is, to the end of the active listing.  A pin of the same id after
    it restores the membership (pinned, not active); the entry it
    pins is a new one, with the title of the pin request and the time
    of the pin as [createdAt]. *)
Theorem unpin_then_pin_restores_membership :
  forall (env1 env2 : Env) (chatId newTitle : string) (db db1 db2 : Db),
    chatId ∈ ids (PinnedChatsOf db demouser) ->
    unpinChat env1 chatId db = (Returns unpinnedResponse, db1) ->
    pinChat env2 chatId newTitle db1 = (Returns pinnedResponse, db2) ->
    (exists moved,
        List.find (hasId chatId) (PinnedChatsOf db demouser) = Some moved /\
        ActiveChats db1 demouser = ActiveChats db demouser ++ [moved] /\
        chatId ∉ ids (PinnedChatsOf db1 demouser)) /\
    chatId ∈ ids (PinnedChatsOf db2 demouser) /\
    (chatId ∉ ids (ActiveChats db2 demouser)) /\
    (forall c, c ∈ PinnedChatsOf db2 demouser -> _id c = chatId ->
               c = mkSummary chatId newTitle (now env2)).
Proof.
  intros env1 env2 chatId newTitle db db1 db2 Hin Hunpin Hpin.
  destruct (unpinChat_completed _ _ _ _ Hin Hunpin) as (moved & Hfind & _ & Ha1 & Hp1).
  specialize (Ha1 demouser). specialize (Hp1 demouser).
  destruct (decide (demouser = demouser)); [|contradiction].
  assert (Hout : chatId ∉ ids (PinnedChatsOf db1 demouser)).
  { rewrite Hp1. intros Hx. apply ids_pull in Hx as [_ Hne]. contradiction. }
  destruct (pinChat_completed _ _ _ _ _ Hout Hpin) as (_ & Ha2 & Hp2).
  specialize (Ha2 demouser). specialize (Hp2 demouser).
  destruct (decide (demouser = demouser)); [|contradiction].
  split; [exists moved; repeat split; assumption|].
  split; [rewrite Hp2, ids_app; apply elem_of_app; right; apply list_elem_of_here|].
  split.
  - rewrite Ha2. intros Hx. apply ids_pull in Hx as [_ Hne]. contradiction.
  - intros c Hc Hid. rewrite Hp2 in Hc. apply elem_of_app in Hc as [Hc|Hc].
    + exfalso. apply Hout. apply elem_of_ids. exists c. split; assumption.
    + apply list_elem_of_singleton in Hc. exact Hc.
Qed.

(** ** Delete, then fetch *)

Lemma deleteChat_response env chatId db :
  fst (deleteChat env chatId db) =
    Returns
      (if validObjectId chatId
       then if existsb (byChatId chatId) (Chat db)
            then mkResponse 200 (Message "Chat deleted successfully!")
            else mkResponse 404 (Message "Chat not found!")
       else mkResponse 500 (Message "Error deleting chat!")).
Proof.
  unfold deleteChat.
  rewrite (try_catch_bind _ _ _ _ _ _ (UserChats_updateOne_eq _ _ _ _)).
  rewrite (try_catch_bind _ _ _ _ _ _ (PinnedChats_updateOne_eq _ _ _ _)).
  unfold castObjectId, try_catch, bind.
  destruct (validObjectId chatId); cbn; [|reflexivity].
  unfold byChatId. destruct (existsb _ (Chat db)); reflexivity.
Qed.

Lemma findOne_deleteFirst chatId (q : ChatDoc -> bool) coll :
  NoDup (map (fun c => toHexString (chat_id c)) coll) ->
  findOne (fun c => byChatId chatId c && q c) (deleteFirst (byChatId chatId) coll) = None.
Proof.
  unfold findOne. induction coll as [|c coll IH]; cbn; intros Hnd; [reflexivity|].
  apply NoDup_cons in Hnd as [Hnotin Hnd].
  destruct (byChatId chatId c) eqn:Hc; cbn.
  - unfold byChatId, hasObjectId in Hc. apply bool_decide_eq_true in Hc.
    clear IH. induction coll as [|c' coll IH']; cbn; [reflexivity|].
    cbn in Hnotin. apply not_elem_of_cons in Hnotin as [Hne Hnotin].
    apply NoDup_cons in Hnd as [_ Hnd].
    replace (byChatId chatId c') with false
      by (symmetry; unfold byChatId, hasObjectId; apply bool_decide_eq_false; congruence).
    cbn. apply IH'; assumption.
  - rewrite Hc. cbn. apply IH. exact Hnd.
Qed.

(** C9, as far as the code goes, and where it stops.  The delete of an
    existing chat answers 200 and leaves the id in neither listing and
    no record of it in the Chat collection, no two records carrying
    the same ObjectId.  The fetch by id that follows finds nothing and
    answers status 200 with a null body: the route has no not-found
    answer. *)
Theorem delete_then_fetch_answers_null :
  forall (env : Env) (chatId : string) (db : Db),
    validObjectId chatId = true ->
    NoDup (map (fun c => toHexString (chat_id c)) (Chat db)) ->
    existsb (byChatId chatId) (Chat db) = true ->
    let db' := snd (deleteChat env chatId db) in
    fst (deleteChat env chatId db) =
      Returns (mkResponse 200 (Message "Chat deleted successfully!")) /\
    (chatId ∉ ids (ActiveChats db' demouser)) /\
    (chatId ∉ ids (PinnedChatsOf db' demouser)) /\
    existsb (byChatId chatId) (Chat db') = false /\
    getChat chatId db' = (Returns (mkResponse 200 (Data (ChatOf None))), db').
Proof.
  intros env chatId db Hvalid Hnd Hex. cbv zeta.
  destruct (deleteChat_listings env chatId db) as (Hu & Hp & Hc).
  rewrite Hvalid in Hc.
  split; [rewrite deleteChat_response, Hvalid, Hex; reflexivity|].
  split; [unfold ActiveChats; rewrite Hu, listing_pull;
          destruct (decide (demouser = demouser)); [|contradiction];
          intros Hx; apply ids_pull in Hx as [_ Hne]; contradiction|].
  split; [unfold PinnedChatsOf; rewrite Hp, listing_pull;
          destruct (decide (demouser = demouser)); [|contradiction];
          intros Hx; apply ids_pull in Hx as [_ Hne]; contradiction|].
  assert (Hgone : forall q,
    findOne (fun c => byChatId chatId c && q c) (Chat (snd (deleteChat env chatId db)))
    = None).
  { intros q. rewrite Hc. apply findOne_deleteFirst. exact Hnd. }
  split.
  - apply not_true_is_false. intros Hstill. apply existsb_exists in Hstill as [c [Hin Hid]].
    pose proof (find_none _ _ (Hgone (fun _ => true)) c Hin) as Hno.
    cbn in Hno. rewrite Hid in Hno. discriminate.
  - unfold getChat, try_catch, bind, castObjectId. rewrite Hvalid. cbn.
    specialize (Hgone (fun c => bool_decide (chat_userId c = demouser))).
    unfold byChatId in Hgone. rewrite Hgone. reflexivity.
Qed.

(* ================================================================ *)
(** * Properties of the chat records *)
(* ================================================================ *)

Lemma substring_0_length n s :
  String.length (substring 0 n s) = Nat.min n (String.length s).
Proof.
  revert s. induction n as [|n IH]; intros [|c s]; cbn; try reflexivity.
  rewrite IH. reflexivity.
Qed.

Lemma substring_0_prefix n s : exists rest, s = substring 0 n s +:+ rest.
Proof.
  revert s. induction n as [|n IH]; intros [|c s]; cbn.
  - exists "". reflexivity.
  - exists (String c s). reflexivity.
  - exists "". reflexivity.
  - destruct (IH s) as [rest Hrest]. exists rest.
    change (String c s = String c (substring 0 n s +:+ rest)). f_equal. exact Hrest.
Qed.

Lemma truthy_true s : truthy s = true <-> s <> "".
Proof.
  unfold truthy. case_bool_decide; cbn; split; intros; congruence.
Qed.

Lemma truthy_title text : text <> "" -> truthy (substring 0 30 text) = true.
Proof.
  intros Htext. apply truthy_true. destruct text as [|c s]; [contradiction|].
  cbn. discriminate.
Qed.

(** A creation whose fields pass the validators, under an id the Chat
    collection does not hold. *)
Lemma createChat_completed env text assistantResponse db :
  text <> "" -> assistantResponse <> "" -> newObjectId env <> "" ->
  existsb (byChatId (newObjectId env)) (Chat db) = false ->
  let r := createChat env text assistantResponse db in
  fst r = Returns (mkResponse 201 (Data (ChatIdOf (newObjectId env)))) /\
  Chat (snd r) = Chat db ++ [createdChat env text assistantResponse] /\
  PinnedChats (snd r) = PinnedChats db /\
  listing (UserChats (snd r)) demouser =
    listing (UserChats db) demouser ++ [createdEntry env text].
Proof.
  intros Htext Hresp Hid Hnew r. subst r. unfold createChat.
  pose proof (Chat_save_eq env demouser
                [mkTurn "user" text; mkTurn "assistant" assistantResponse] db) as Hsave.
  assert (Hvalid : negb (truthy demouser &&
                         forallb validTurn
                           [mkTurn "user" text; mkTurn "assistant" assistantResponse]) = false).
  { cbn [forallb]. unfold validTurn. cbn [role content].
    rewrite (proj2 (truthy_true text) Htext), (proj2 (truthy_true _) Hresp).
    reflexivity. }
  rewrite Hvalid in Hsave. rewrite Hnew in Hsave.
  rewrite (try_catch_bind _ _ _ _ _ _ Hsave). clear Hsave.
  rewrite (try_catch_bind get _ _ _ _ _ eq_refl).
  cbn [setChat UserChats chat_id].
  fold (createdEntry env text). fold (createdChat env text assistantResponse).
  case_bool_decide as Hlen.
  - apply length_zero_iff_nil, filter_byUser_nil in Hlen.
    unfold UserChats_save, Listing_save, bind, get, try_catch.
    cbn [UserChats PinnedChats Chat].
    assert (Hok : validListing (mkListing demouser [createdEntry env text] None) = true).
    { unfold validListing, validSummary, createdEntry. cbn [userId chats forallb _id title].
      rewrite (proj2 (truthy_true _) Hid), (truthy_title text Htext). reflexivity. }
    rewrite Hok. cbn -[touch].
    repeat split; try reflexivity.
    rewrite listing_app by (rewrite touch_userId; exact Hlen).
    rewrite touch_userId, touch_chats. cbn [userId chats].
    destruct (decide (demouser = demouser)); [|contradiction].
    unfold listing. rewrite Hlen. reflexivity.
  - assert (Hupd : forall db0,
      (do UserChats_updateOne env (byUser demouser) (push (createdEntry env text))
       then ret tt) db0 =
      (Returns tt,
       mkDb (Chat db0)
         (updateFirst (byUser demouser)
            (fun d => touch ucTimestamps (now env) (push (createdEntry env text) d))
            (UserChats db0))
         (PinnedChats db0))).
    { intros db0. unfold bind. rewrite UserChats_updateOne_eq. reflexivity. }
    rewrite (try_catch_bind _ _ _ _ _ _ (Hupd _)).
    unfold try_catch, ret. cbn -[touch].
    repeat split; try reflexivity.
    rewrite listing_updateFirst
      by (intros d Hd; rewrite touch_userId; exact Hd).
    destruct (decide (demouser = demouser)); [|contradiction].
    unfold listing. destruct (findOne (byUser demouser) (UserChats db)) eqn:Hfind.
    + rewrite touch_chats. reflexivity.
    + exfalso. apply Hlen. apply length_zero_iff_nil, filter_byUser_nil. exact Hfind.
Qed.

Lemma findOne_app_none {D} (q : D -> bool) coll d :
  findOne q coll = None -> q d = true -> findOne q (coll ++ [d]) = Some d.
Proof. intros Hnone Hq. rewrite findOne_app, Hnone, Hq. reflexivity. Qed.

Lemma findOne_weaken {D} (q q' : D -> bool) coll :
  existsb q coll = false -> findOne (fun d => q d && q' d) coll = None.
Proof.
  induction coll as [|d coll IH]; cbn; [reflexivity|].
  intros H. apply orb_false_iff in H as [Hd Hrest]. rewrite Hd. cbn. apply IH, Hrest.
Qed.

(** X1. A chat created with a non-empty question and answer, under an id
    the Chat collection does not hold yet, is answered 201 with that
    id; the record holds the two turns, the active listing of the user
    gains one entry at its end whose title is the first 30 characters
    of the question, the pinned listings stay, and a fetch of the id
    returns the record. *)
Theorem created_chat_is_stored_listed_and_fetched :
  forall (env : Env) (text assistantResponse : string) (db : Db),
    text <> "" -> assistantResponse <> "" -> newObjectId env <> "" ->
    validObjectId (newObjectId env) = true ->
    existsb (byChatId (newObjectId env)) (Chat db) = false ->
    let db' := snd (createChat env text assistantResponse db) in
    let entry := createdEntry env text in
    let record := createdChat env text assistantResponse in
    fst (createChat env text assistantResponse db) =
      Returns (mkResponse 201 (Data (ChatIdOf (newObjectId env)))) /\
    Chat db' = Chat db ++ [record] /\
    history record = [ mkTurn "user" text; mkTurn "assistant" assistantResponse ] /\
    ActiveChats db' demouser = ActiveChats db demouser ++ [entry] /\
    _id entry = newObjectId env /\
    String.length (title entry) = Nat.min 30 (String.length text) /\
    (exists rest, text = title entry +:+ rest) /\
    PinnedChats db' = PinnedChats db /\
    getChat (newObjectId env) db' =
      (Returns (mkResponse 200 (Data (ChatOf (Some record)))), db').
Proof.
  intros env text assistantResponse db Htext Hresp Hid Hvalid Hnew db' entry record.
  destruct (createChat_completed env text assistantResponse db Htext Hresp Hid Hnew)
    as (Hfst & Hchat & Hpinned & Hlist).
  fold db' in Hchat, Hpinned, Hlist.
  split; [exact Hfst|]. split; [exact Hchat|]. split; [reflexivity|].
  split; [exact Hlist|]. split; [reflexivity|].
  split; [apply substring_0_length|]. split; [apply substring_0_prefix|].
  split; [exact Hpinned|].
  unfold getChat, try_catch, bind, castObjectId. rewrite Hvalid. cbn.
  rewrite Hchat.
  rewrite (findOne_app_none _ (Chat db) record).
  - reflexivity.
  - apply (findOne_weaken (byChatId (newObjectId env))). exact Hnew.
  - cbn. rewrite hasObjectId_refl, bool_decide_eq_true_2 by reflexivity. reflexivity.
Qed.

(** X2. A creation with an empty question or answer, or under an id the
    Chat collection holds already, is answered 500 with the error of
    the save, and nothing is stored or listed. *)
Theorem rejected_create_stores_nothing :
  forall (env : Env) (text assistantResponse : string) (db : Db),
    text = "" \/ assistantResponse = "" \/
    existsb (byChatId (newObjectId env)) (Chat db) = true ->
    createChat env text assistantResponse db =
      (Returns
         (mkResponse 500
            (MessageError "Error creating chat!"
               (if truthy text && truthy assistantResponse
                then DuplicateKey else ValidationError))),
       db).
Proof.
  intros env text assistantResponse db Hbad. unfold createChat.
  pose proof (Chat_save_eq env demouser
                [mkTurn "user" text; mkTurn "assistant" assistantResponse] db) as Hsave.
  cbn [forallb] in Hsave. unfold validTurn in Hsave. cbn [role content] in Hsave.
  change (truthy demouser) with true in Hsave. change (truthy "user") with true in Hsave.
  change (truthy "assistant") with true in Hsave. cbn [andb] in Hsave.
  rewrite andb_true_r in Hsave.
  destruct (truthy text && truthy assistantResponse) eqn:Hvalid; cbn [negb] in Hsave.
  - destruct Hbad as [->| [->|Hdup]].
    + discriminate Hvalid.
    + rewrite andb_comm in Hvalid. discriminate Hvalid.
    + rewrite Hdup in Hsave.
      rewrite (try_catch_bind_throws _ _ _ _ _ _ Hsave). reflexivity.
  - rewrite (try_catch_bind_throws _ _ _ _ _ _ Hsave). reflexivity.
Qed.

Lemma updateFirst_ids {D K} (key : D -> K) (q : D -> bool) (f : D -> D) coll :
  (forall d, key (f d) = key d) -> map key (updateFirst q f coll) = map key coll.
Proof.
  intros Hkey. induction coll as [|d coll IH]; cbn; [reflexivity|].
  destruct (q d); cbn; [rewrite Hkey | rewrite IH]; reflexivity.
Qed.

Lemma updateFirst_others {D} (q : D -> bool) (f : D -> D) coll other :
  (forall d, q d = true -> q (f d) = true) -> q other = false ->
  other ∈ updateFirst q f coll <-> other ∈ coll.
Proof.
  intros Hq Hother. induction coll as [|d coll IH]; cbn; [reflexivity|].
  destruct (q d) eqn:Hd.
  - rewrite !elem_of_cons. split; (intros [->|Hin]; [|right; exact Hin]).
    + rewrite (Hq d Hd) in Hother. discriminate.
    + rewrite Hd in Hother. discriminate.
  - rewrite !elem_of_cons, IH. reflexivity.
Qed.

Lemma findOne_updateFirst {D} (q : D -> bool) (f : D -> D) coll d :
  findOne q coll = Some d -> q (f d) = true ->
  findOne q (updateFirst q f coll) = Some (f d).
Proof.
  induction coll as [|x coll IH]; cbn; [discriminate|].
  destruct (q x) eqn:Hx.
  - intros [= ->] Hf. cbn. rewrite Hf. reflexivity.
  - intros Hfind Hf. cbn. rewrite Hx. apply IH; assumption.
Qed.

Lemma app_neq_self {A} (l extra : list A) : extra <> [] -> l ++ extra <> l.
Proof.
  intros Hne Heq. apply (f_equal length) in Heq. rewrite length_app in Heq.
  destruct extra; [contradiction|]. cbn in Heq. lia.
Qed.

(** X3. An append to a chat of the user, found by the ObjectId the
    request names in whatever spelling, answers 200 and adds the
    question and the answer, in this order and whatever they are, to
    the end of the history of that chat alone; with no chat of the
    user under that ObjectId it answers 200 with a result of zero
    matches, with an id that is no ObjectId 500, and in both cases the
    store stays as it is.  The listings are never touched. *)
Theorem append_adds_two_turns_to_one_chat :
  forall (id question assistantResponse : string) (db : Db),
    let newItems := [ mkTurn "user" question; mkTurn "assistant" assistantResponse ] in
    let mine := fun c => byChatId id c && bool_decide (chat_userId c = demouser) in
    let r := appendChat id question assistantResponse db in
    UserChats (snd r) = UserChats db /\
    PinnedChats (snd r) = PinnedChats db /\
    map chat_id (Chat (snd r)) = map chat_id (Chat db) /\
    (validObjectId id = false ->
       r = (Returns (mkResponse 500 (Text "Error updating chat!")), db)) /\
    (validObjectId id = true ->
       match findOne mine (Chat db) with
       | None => r = (Returns (mkResponse 200 (Data (Updated (mkUpdateResult 0 0)))), db)
       | Some c =>
           fst r = Returns (mkResponse 200 (Data (Updated (mkUpdateResult 1 1)))) /\
           findOne mine (Chat (snd r)) =
             Some (mkChat (chat_id c) (chat_userId c) (history c ++ newItems)
                     (chat_createdAt c) (chat_updatedAt c)) /\
           (forall other, mine other = false ->
                          other ∈ Chat (snd r) <-> other ∈ Chat db)
       end).
Proof.
  intros id question assistantResponse db newItems mine r.
  destruct (appendChat_listings id question assistantResponse db) as [Hu Hp].
  split; [exact Hu|]. split; [exact Hp|].
  subst r. unfold appendChat, try_catch, bind, castObjectId.
  destruct (validObjectId id); cbn -[updateOne].
  2:{ split; [reflexivity|]. split; [reflexivity | discriminate]. }
  fold newItems.
  change (fun c : ChatDoc => hasObjectId (toHexString id) (chat_id c)
                             && bool_decide (chat_userId c = demouser)) with mine.
  set (f := fun c : ChatDoc =>
              mkChat (chat_id c) (chat_userId c) (history c ++ newItems)
                (chat_createdAt c) (chat_updatedAt c)).
  unfold updateOne. destruct (findOne mine (Chat db)) as [c|] eqn:Hfind; cbn.
  - split; [apply updateFirst_ids; reflexivity|].
    split; [discriminate|]. intros _.
    assert (Hmine : forall d, mine d = true -> mine (f d) = true) by (intros d Hd; exact Hd).
    split; [|split].
    + destruct (decide (f c = c)) as [Heq|_]; [|reflexivity].
      exfalso. apply (f_equal history) in Heq. cbn in Heq.
      revert Heq. apply app_neq_self. discriminate.
    + apply (findOne_updateFirst mine f (Chat db) c Hfind).
      apply Hmine. apply (find_some _ _ Hfind).
    + intros other Hother. apply updateFirst_others; assumption.
  - split; [reflexivity|]. split; [discriminate|]. intros _.
    destruct db; reflexivity.
Qed.

Lemma deleteFirst_none {D} (q : D -> bool) coll :
  existsb q coll = false -> deleteFirst q coll = coll.
Proof.
  induction coll as [|d coll IH]; cbn; [reflexivity|].
  intros H. apply orb_false_iff in H as [Hd Hrest]. rewrite Hd, IH by exact Hrest.
  reflexivity.
Qed.

(** X4. Whatever its outcome, a delete removes the id, as the request
    spells it, from both listings of the user and keeps the other
    ids; when the id is no ObjectId the answer is 500, when no record
    carries the ObjectId it names the answer is 404, and in both cases
    the Chat collection is as before. *)
Theorem delete_unlists_even_when_it_fails :
  forall (env : Env) (chatId : string) (db : Db),
    let r := deleteChat env chatId db in
    (forall x, x ∈ ids (ActiveChats (snd r) demouser) <->
               x ∈ ids (ActiveChats db demouser) /\ x <> chatId) /\
    (forall x, x ∈ ids (PinnedChatsOf (snd r) demouser) <->
               x ∈ ids (PinnedChatsOf db demouser) /\ x <> chatId) /\
    (validObjectId chatId = false ->
       fst r = Returns (mkResponse 500 (Message "Error deleting chat!")) /\
       Chat (snd r) = Chat db) /\
    (validObjectId chatId = true -> existsb (byChatId chatId) (Chat db) = false ->
       fst r = Returns (mkResponse 404 (Message "Chat not found!")) /\
       Chat (snd r) = Chat db).
Proof.
  intros env chatId db r.
  destruct (deleteChat_listings env chatId db) as (Hu & Hp & Hc).
  pose proof (deleteChat_response env chatId db) as Hresp.
  fold r in Hu, Hp, Hc, Hresp.
  split; [|split; [|split]].
  - intros x. unfold ActiveChats. rewrite Hu, listing_pull.
    destruct (decide (demouser = demouser)); [|contradiction]. apply ids_pull.
  - intros x. unfold PinnedChatsOf. rewrite Hp, listing_pull.
    destruct (decide (demouser = demouser)); [|contradiction]. apply ids_pull.
  - intros Hinvalid. rewrite Hinvalid in Hc, Hresp. split; assumption.
  - intros Hvalid Hnone. rewrite Hvalid in Hc, Hresp. rewrite Hnone in Hresp.
    split; [exact Hresp|]. rewrite Hc. apply deleteFirst_none. exact Hnone.
Qed.

(** ** Renaming *)

Lemma idAndDate_listing_setTitleAt coll stamps t u chatId newTitle v :
  map idAndDate (listing (updateFirst (byUserAndChat u chatId)
                  (fun d => touch stamps t (setTitleAt chatId newTitle d)) coll) v) =
  map idAndDate (listing coll v).
Proof.
  unfold listing, findOne.
  induction coll as [|d coll IH]; cbn [updateFirst List.find]; [reflexivity|].
  destruct (byUserAndChat u chatId d) eqn:Hq; cbn [List.find].
  - assert (Hsame : byUser v (touch stamps t (setTitleAt chatId newTitle d)) = byUser v d).
    { unfold byUser. rewrite touch_userId. reflexivity. }
    rewrite Hsame. destruct (byUser v d); [|reflexivity].
    rewrite touch_chats. cbn [chats setTitleAt]. apply updateFirst_ids. reflexivity.
  - destruct (byUser v d); [reflexivity | exact IH].
Qed.

(** X5. A rename answers 200 or 404 and never 500; answering 404 it
    has changed nothing.  Whatever it answers, it keeps the Chat
    collection, writes to at most one of the two listing collections,
    keeps the ids and creation dates of every listing in their order,
    and keeps the listings of the other users entirely. *)
Theorem rename_changes_titles_only :
  forall (env : Env) (chatId newTitle : string) (db : Db),
    let r := renameChat env chatId newTitle db in
    (status_of r = 200%nat \/ status_of r = 404%nat) /\
    (status_of r = 404%nat -> snd r = db) /\
    Chat (snd r) = Chat db /\
    (UserChats (snd r) = UserChats db \/ PinnedChats (snd r) = PinnedChats db) /\
    (forall u,
        map idAndDate (ActiveChats (snd r) u) = map idAndDate (ActiveChats db u) /\
        map idAndDate (PinnedChatsOf (snd r) u) = map idAndDate (PinnedChatsOf db u)) /\
    (forall u, u <> demouser ->
        ActiveChats (snd r) u = ActiveChats db u /\
        PinnedChatsOf (snd r) u = PinnedChatsOf db u).
Proof.
  intros env chatId newTitle db r.
  destruct (renameChat_effect env chatId newTitle db) as [Hothers _]. fold r in Hothers.
  pose proof (renameChat_unfold env chatId newTitle db) as Hr. cbv zeta in Hr. fold r in Hr.
  rewrite !updateOne_snd in Hr.
  assert (Hkeys : forall u,
    map idAndDate (ActiveChats (snd r) u) = map idAndDate (ActiveChats db u) /\
    map idAndDate (PinnedChatsOf (snd r) u) = map idAndDate (PinnedChatsOf db u)).
  { intros u. rewrite Hr. destruct (bool_decide (modifiedCount _ = 0%nat));
      unfold ActiveChats, PinnedChatsOf; cbn [snd UserChats PinnedChats];
      rewrite ?idAndDate_listing_setTitleAt; split; reflexivity. }
  split; [|split; [|split; [|split; [|split]]]]; try assumption.
  - rewrite Hr. destruct (bool_decide (modifiedCount _ = 0%nat)); [|left; reflexivity].
    destruct (bool_decide (0 < _)%nat); [left|right]; reflexivity.
  - rewrite Hr. case_bool_decide as Hfirst; [|discriminate].
    case_bool_decide as Hsecond; [discriminate|]. intros _. cbn [snd].
    rewrite <- (updateOne_snd _ _ (PinnedChats db)), updateOne_unmodified by lia.
    destruct db; reflexivity.
  - rewrite Hr. destruct (bool_decide (modifiedCount _ = 0%nat)); reflexivity.
  - apply rename_changes_at_most_one_projection.
Qed.

Lemma findOne_byUserAndChat coll u chatId d :
  findOne (byUser u) coll = Some d ->
  existsb (hasId chatId) (chats d) = true ->
  findOne (byUserAndChat u chatId) coll = Some d /\
  forall f, updateFirst (byUserAndChat u chatId) f coll = updateFirst (byUser u) f coll.
Proof.
  unfold findOne, byUserAndChat.
  induction coll as [|x coll IH]; cbn [List.find updateFirst]; [discriminate|].
  destruct (byUser u x) eqn:Hx; cbn [andb].
  - intros [= ->] Hlisted. rewrite Hlisted. split; reflexivity.
  - intros Hfind Hlisted. destruct (IH Hfind Hlisted) as [Hfound Hupd].
    split; [exact Hfound|]. intros f. rewrite Hupd. reflexivity.
Qed.

Lemma updateFirst_changes {D} (q : D -> bool) (g : D -> D) l c :
  List.find q l = Some c -> g c <> c -> updateFirst q g l <> l.
Proof.
  induction l as [|x l IH]; cbn; [discriminate|].
  destruct (q x).
  - intros [= ->] Hg [= Heq]. contradiction.
  - intros Hfind Hg [= Heq]. exact (IH Hfind Hg Heq).
Qed.

(** The update of a rename on a collection whose listing for the user
    names the id under another title. *)
Lemma updateOne_retitles coll stamps t u chatId newTitle c :
  List.find (hasId chatId) (listing coll u) = Some c ->
  title c <> newTitle ->
  let upd := updateOne (byUserAndChat u chatId)
               (fun d => touch stamps t (setTitleAt chatId newTitle d)) coll in
  modifiedCount (fst upd) = 1%nat /\
  listing (snd upd) u = updateFirst (hasId chatId) (setTitle newTitle) (listing coll u) /\
  List.find (hasId chatId) (listing (snd upd) u) =
    Some (mkSummary chatId newTitle (createdAt c)).
Proof.
  intros Hfind Htitle upd. subst upd.
  unfold listing in Hfind. destruct (findOne (byUser u) coll) as [d|] eqn:Hd; [|discriminate].
  assert (Hlisted : existsb (hasId chatId) (chats d) = true).
  { apply existsb_exists. exists c. split; [apply (find_some _ _ Hfind)|].
    apply (find_some _ _ Hfind). }
  destruct (findOne_byUserAndChat coll u chatId d Hd Hlisted) as [Hfound Hupd].
  assert (Hid : _id c = chatId).
  { pose proof (proj2 (find_some _ _ Hfind)) as H. unfold hasId in H.
    apply bool_decide_eq_true in H. exact H. }
  assert (Hlist : listing (snd (updateOne (byUserAndChat u chatId)
                     (fun d => touch stamps t (setTitleAt chatId newTitle d)) coll)) u =
                  updateFirst (hasId chatId) (setTitle newTitle) (listing coll u)).
  { rewrite updateOne_snd, Hupd.
    rewrite listing_updateFirst by (intros d' Hd'; rewrite touch_userId; exact Hd').
    destruct (decide (u = u)); [|contradiction].
    unfold listing. rewrite Hd, touch_chats. reflexivity. }
  split; [|split].
  - unfold updateOne. rewrite Hfound. cbn [fst modifiedCount].
    destruct (decide (_ = d)) as [Heq|_]; [|reflexivity].
    exfalso. apply (f_equal chats) in Heq. rewrite touch_chats in Heq. cbn [chats setTitleAt] in Heq.
    revert Heq. apply (updateFirst_changes _ _ _ c Hfind).
    intros Heq. apply (f_equal title) in Heq. cbn in Heq. congruence.
  - exact Hlist.
  - rewrite Hlist. unfold listing. rewrite Hd.
    replace (mkSummary chatId newTitle (createdAt c)) with (setTitle newTitle c)
      by (unfold setTitle; rewrite Hid; reflexivity).
    apply (findOne_updateFirst (hasId chatId) (setTitle newTitle) (chats d) c Hfind).
    unfold hasId, setTitle. cbn. apply bool_decide_eq_true. exact Hid.
Qed.

(** X6. A rename of a chat the active listing of the user names under
    another title answers 200; the first entry with that id carries
    the new title (also an empty one) and keeps its date, the other
    entries and the records of the other collections stay. *)
Theorem rename_retitles_an_active_chat :
  forall (env : Env) (chatId newTitle : string) (db : Db) (c : Summary),
    List.find (hasId chatId) (ActiveChats db demouser) = Some c ->
    title c <> newTitle ->
    let r := renameChat env chatId newTitle db in
    fst r = Returns (mkResponse 200 (Message "Chat renamed successfully!")) /\
    ActiveChats (snd r) demouser =
      updateFirst (hasId chatId) (setTitle newTitle) (ActiveChats db demouser) /\
    List.find (hasId chatId) (ActiveChats (snd r) demouser) =
      Some (mkSummary chatId newTitle (createdAt c)) /\
    PinnedChats (snd r) = PinnedChats db /\
    Chat (snd r) = Chat db.
Proof.
  intros env chatId newTitle db c Hfind Htitle r.
  pose proof (renameChat_unfold env chatId newTitle db) as Hr. cbv zeta in Hr. fold r in Hr.
  destruct (updateOne_retitles (UserChats db) ucTimestamps (now env) demouser chatId newTitle c
              Hfind Htitle) as (Hmod & Hlist & Hnew).
  rewrite Hmod in Hr. rewrite bool_decide_eq_false_2 in Hr by discriminate.
  rewrite Hr. cbn [fst snd]. unfold ActiveChats. cbn [UserChats PinnedChats Chat].
  split; [reflexivity|]. split; [exact Hlist|]. split; [exact Hnew|]. split; reflexivity.
Qed.

(** X7. A rename of a chat no active listing document of the user
    names, and the pinned listing names under another title, goes on
    to the pinned listing and answers 200: the first pinned entry with
    that id carries the new title and keeps its date, and the active
    listings and the Chat collection stay. *)
Theorem rename_reaches_a_pinned_chat :
  forall (env : Env) (chatId newTitle : string) (db : Db) (c : Summary),
    findOne (byUserAndChat demouser chatId) (UserChats db) = None ->
    List.find (hasId chatId) (PinnedChatsOf db demouser) = Some c ->
    title c <> newTitle ->
    let r := renameChat env chatId newTitle db in
    fst r = Returns (mkResponse 200 (Message "Chat renamed successfully!")) /\
    PinnedChatsOf (snd r) demouser =
      updateFirst (hasId chatId) (setTitle newTitle) (PinnedChatsOf db demouser) /\
    List.find (hasId chatId) (PinnedChatsOf (snd r) demouser) =
      Some (mkSummary chatId newTitle (createdAt c)) /\
    UserChats (snd r) = UserChats db /\
    Chat (snd r) = Chat db.
Proof.
  intros env chatId newTitle db c Hnone Hfind Htitle r.
  pose proof (renameChat_unfold env chatId newTitle db) as Hr. cbv zeta in Hr. fold r in Hr.
  destruct (updateOne_retitles (PinnedChats db) true (now env) demouser chatId newTitle c
              Hfind Htitle) as (Hmod & Hlist & Hnew).
  assert (Hfirst : modifiedCount (fst (updateOne (byUserAndChat demouser chatId)
                     (fun d => touch ucTimestamps (now env) (setTitleAt chatId newTitle d))
                     (UserChats db))) = 0%nat)
    by (unfold updateOne; rewrite Hnone; reflexivity).
  rewrite Hfirst in Hr. rewrite bool_decide_eq_true_2 in Hr by reflexivity.
  rewrite Hmod in Hr. rewrite bool_decide_eq_true_2 in Hr by lia.
  rewrite Hr. cbn [fst snd]. unfold PinnedChatsOf. cbn [UserChats PinnedChats Chat].
  split; [reflexivity|]. split; [exact Hlist|]. split; [exact Hnew|]. split; reflexivity.
Qed.

(** ** Pinning and unpinning *)

(** X8. A pin of an id that is not pinned, sent without a title or
    without an id, is answered 500 and changes nothing: the entry does
    not pass the validators of the pinned listing, and the active
    listing is not reached. *)
Theorem pin_without_title_or_id_is_rejected :
  forall (env : Env) (chatId title : string) (db : Db),
    chatId ∉ ids (PinnedChatsOf db demouser) ->
    chatId = "" \/ title = "" ->
    pinChat env chatId title db =
      (Returns (mkResponse 500 (Message "Error pinning chat!")), db).
Proof.
  intros env chatId newTitle db Hnotin Hempty.
  rewrite (pinChat_fresh env chatId newTitle db Hnotin). cbv zeta.
  replace (validListing _) with false; [reflexivity|].
  symmetry. unfold validListing, push. cbn [userId chats].
  rewrite forallb_app. cbn [forallb]. unfold validSummary at 2. cbn [_id title].
  destruct Hempty as [->| ->]; cbn; rewrite ?andb_false_r; reflexivity.
Qed.

(** X9. An unpin that went through leaves the id unpinned, and a second
    unpin of it is answered the same with the store unchanged; the
    unpin of an id that was not pinned changes nothing either. *)
Theorem unpin_is_idempotent :
  forall (env1 env2 : Env) (chatId : string) (db db1 : Db),
    unpinChat env1 chatId db = (Returns unpinnedResponse, db1) ->
    (chatId ∉ ids (PinnedChatsOf db1 demouser)) /\
    unpinChat env2 chatId db1 = (Returns unpinnedResponse, db1) /\
    (chatId ∉ ids (PinnedChatsOf db demouser) -> db1 = db).
Proof.
  intros env1 env2 chatId db db1 Hunpin.
  assert (Hgone : chatId ∉ ids (PinnedChatsOf db1 demouser)).
  { destruct (decide (chatId ∈ ids (PinnedChatsOf db demouser))) as [Hin|Hnotin].
    - destruct (unpinChat_completed env1 chatId db db1 Hin Hunpin)
        as (moved & _ & _ & _ & Hpinned).
      rewrite Hpinned. destruct (decide (demouser = demouser)); [|contradiction].
      intros Hx. apply ids_pull in Hx as [_ Hne]. contradiction.
    - rewrite (unpinChat_absent env1 chatId db Hnotin) in Hunpin.
      injection Hunpin as <-. exact Hnotin. }
  split; [exact Hgone|]. split.
  - apply unpinChat_absent. exact Hgone.
  - intros Hnotin. rewrite (unpinChat_absent env1 chatId db Hnotin) in Hunpin.
    injection Hunpin as <-. reflexivity.
Qed.

(** ** Invariants of the chat store *)

(** X10. Over any sequence of requests served from a store whose
    listings of the user name no id twice, new chats getting unlisted
    ids, every id is listed at most once, counting both listings
    together. *)
Theorem no_chat_is_listed_twice :
  forall (trace : list (Env * Request)) (db : Db),
    listingInv db demouser ->
    freshIds trace db ->
    forall chatId,
      (countId chatId (ActiveChats (serve trace db) demouser) +
       countId chatId (PinnedChatsOf (serve trace db) demouser) <= 1)%nat.
Proof.
  intros trace db Hinv Hfresh chatId.
  destruct (serve_listingInv trace db Hinv Hfresh) as (Ha & Hp & Hex).
  destruct (decide (chatId ∈ ids (ActiveChats (serve trace db) demouser))) as [Hin|Hnotin].
  - rewrite (countId_one _ _ Ha Hin).
    rewrite (proj2 (countId_zero _ _) (Hex _ Hin)). lia.
  - rewrite (proj2 (countId_zero _ _) Hnotin).
    destruct (decide (chatId ∈ ids (PinnedChatsOf (serve trace db) demouser))) as [Hin|Hnotin'].
    + rewrite (countId_one _ _ Hp Hin). lia.
    + rewrite (proj2 (countId_zero _ _) Hnotin'). lia.
Qed.

(** X11. No sequence of requests changes what the two listings show
    for a user other than the one the handlers work for. *)
Theorem other_users_listings_are_never_touched :
  forall (trace : list (Env * Request)) (db : Db) (u : string),
    u <> demouser ->
    ActiveChats (serve trace db) u = ActiveChats db u /\
    PinnedChatsOf (serve trace db) u = PinnedChatsOf db u.
Proof.
  intros trace. induction trace as [|[env req] rest IH]; intros db u Hne; cbn [serve].
  - split; reflexivity.
  - destruct (IH (snd (handle env req db)) u Hne) as [Ha Hp].
    destruct (handle_effect env req db) as [Hothers _].
    destruct (Hothers u Hne) as [Ha' Hp'].
    rewrite Ha, Hp, Ha', Hp'. split; reflexivity.
Qed.

Lemma createChat_chat env text assistantResponse db :
  Chat (snd (createChat env text assistantResponse db)) = Chat db \/
  (existsb (byChatId (newObjectId env)) (Chat db) = false /\
   Chat (snd (createChat env text assistantResponse db)) =
     Chat db ++ [createdChat env text assistantResponse]).
Proof.
  unfold createChat.
  pose proof (Chat_save_eq env demouser
                [mkTurn "user" text; mkTurn "assistant" assistantResponse] db) as Hsave.
  destruct (negb _).
  { rewrite (try_catch_bind_throws _ _ _ _ _ _ Hsave). left. reflexivity. }
  destruct (existsb _ (Chat db)) eqn:Hnew.
  { rewrite (try_catch_bind_throws _ _ _ _ _ _ Hsave). left. reflexivity. }
  right. split; [first [exact Hnew | reflexivity]|].
  rewrite (try_catch_bind _ _ _ _ _ _ Hsave). clear Hsave.
  rewrite (try_catch_bind get _ _ _ _ _ eq_refl).
  cbn [setChat UserChats chat_id].
  fold (createdEntry env text). fold (createdChat env text assistantResponse).
  case_bool_decide as Hlen.
  - unfold UserChats_save, Listing_save, bind, get, try_catch.
    cbn [UserChats PinnedChats Chat].
    destruct (validListing _); reflexivity.
  - assert (Hupd : forall db0,
      (do UserChats_updateOne env (byUser demouser) (push (createdEntry env text))
       then ret tt) db0 =
      (Returns tt,
       mkDb (Chat db0)
         (updateFirst (byUser demouser)
            (fun d => touch ucTimestamps (now env) (push (createdEntry env text) d))
            (UserChats db0))
         (PinnedChats db0))).
    { intros db0. unfold bind. rewrite UserChats_updateOne_eq. reflexivity. }
    rewrite (try_catch_bind _ _ _ _ _ _ (Hupd _)). reflexivity.
Qed.

Lemma pinChat_chat env chatId title db : Chat (snd (pinChat env chatId title db)) = Chat db.
Proof.
  destruct (decide (chatId ∈ ids (PinnedChatsOf db demouser))) as [Hin|Hnotin].
  - rewrite (pinChat_already env chatId title db Hin). reflexivity.
  - rewrite (pinChat_fresh env chatId title db Hnotin). cbv zeta.
    destruct (validListing _); reflexivity.
Qed.

Lemma unpinChat_chat env chatId db : Chat (snd (unpinChat env chatId db)) = Chat db.
Proof.
  destruct (findOne (byUser demouser) (PinnedChats db)) as [pinnedChats|] eqn:Hdoc.
  - destruct (List.find (hasId chatId) (chats pinnedChats)) as [chatToMove|] eqn:Hfind.
    + rewrite (unpinChat_present env chatId db pinnedChats chatToMove Hdoc Hfind).
      destruct (validListing _); reflexivity.
    + unfold unpinChat, try_catch, bind, get. rewrite Hdoc, Hfind. reflexivity.
  - unfold unpinChat, try_catch, bind, get. rewrite Hdoc. reflexivity.
Qed.

Lemma NoDup_deleteFirst {D K} (key : D -> K) (q : D -> bool) coll :
  NoDup (map key coll) -> NoDup (map key (deleteFirst q coll)).
Proof.
  induction coll as [|d coll IH]; cbn; [auto|].
  intros Hnd. apply NoDup_cons in Hnd as [Hnotin Hnd].
  destruct (q d); [exact Hnd|]. cbn. apply NoDup_cons. split; [|apply IH, Hnd].
  intros Hin. apply Hnotin. clear -Hin.
  induction coll as [|x coll IH]; cbn in *; [exact Hin|].
  destruct (q x); [right; exact Hin|].
  cbn in Hin. apply elem_of_cons in Hin as [->|Hin]; [left | right; apply IH, Hin].
Qed.

Lemma handle_chat_ids env req db :
  NoDup (map chat_id (Chat db)) -> NoDup (map chat_id (Chat (snd (handle env req db)))).
Proof.
  intros Hnd.
  assert (Hrun : forall (m : Js Db Resp) dflt, snd (run m db dflt) = snd (m db)).
  { intros m dflt. unfold run. destruct (m db) as [[r|e] db']; reflexivity. }
  unfold handle. rewrite Hrun. destruct req; cbn [route].
  - destruct (createChat_chat env text assistantResponse db) as [->|[Hnew ->]]; [exact Hnd|].
    rewrite map_app. cbn [map createdChat chat_id].
    apply NoDup_app. split; [exact Hnd|]. split; [|apply NoDup_singleton].
    intros x Hx Hx'. apply list_elem_of_singleton in Hx'. subst x.
    apply list_elem_of_fmap in Hx as (c & Hid & Hc).
    assert (Hex : existsb (byChatId (newObjectId env)) (Chat db) = true).
    { apply existsb_exists. exists c. split; [apply list_elem_of_In; exact Hc|].
      unfold byChatId. apply bool_decide_eq_true. congruence. }
    congruence.
  - exact Hnd.
  - rewrite getChat_state. exact Hnd.
  - unfold appendChat, try_catch, bind, castObjectId.
    destruct (validObjectId id); cbn -[updateOne]; [|exact Hnd].
    unfold updateOne. destruct (findOne _ (Chat db)); cbn; [|exact Hnd].
    rewrite (updateFirst_ids chat_id) by reflexivity. exact Hnd.
  - destruct (deleteChat_listings env id db) as (_ & _ & ->).
    destruct (validObjectId id); [|exact Hnd]. apply NoDup_deleteFirst. exact Hnd.
  - rewrite renameChat_unfold. destruct (bool_decide _); exact Hnd.
  - rewrite pinChat_chat. exact Hnd.
  - rewrite unpinChat_chat. exact Hnd.
  - exact Hnd.
Qed.

(** X12. No sequence of requests makes two records of the Chat
    collection carry the same id: a creation under an id on record is
    rejected, an append keeps the ids, a delete drops a record, and the
    other routes leave the collection alone. *)
Theorem chat_ids_stay_unique :
  forall (trace : list (Env * Request)) (db : Db),
    NoDup (map chat_id (Chat db)) ->
    NoDup (map chat_id (Chat (serve trace db))).
Proof.
  intros trace. induction trace as [|[env req] rest IH]; intros db Hnd; cbn [serve].
  - exact Hnd.
  - apply IH. apply handle_chat_ids. exact Hnd.
Qed.

(** The same of the ObjectIds the records carry, whatever strings name
    them. *)
Lemma handle_objectIds env req db :
  NoDup (map (fun c => toHexString (chat_id c)) (Chat db)) ->
  NoDup (map (fun c => toHexString (chat_id c)) (Chat (snd (handle env req db)))).
Proof.
  intros Hnd.
  assert (Hrun : forall (m : Js Db Resp) dflt, snd (run m db dflt) = snd (m db)).
  { intros m dflt. unfold run. destruct (m db) as [[r|e] db']; reflexivity. }
  unfold handle. rewrite Hrun. destruct req; cbn [route].
  - destruct (createChat_chat env text assistantResponse db) as [->|[Hnew ->]]; [exact Hnd|].
    rewrite map_app. cbn [map createdChat chat_id].
    apply NoDup_app. split; [exact Hnd|]. split; [|apply NoDup_singleton].
    intros x Hx Hx'. apply list_elem_of_singleton in Hx'. subst x.
    apply list_elem_of_fmap in Hx as (c & Hid & Hc).
    assert (Hex : existsb (byChatId (newObjectId env)) (Chat db) = true).
    { apply existsb_exists. exists c. split; [apply list_elem_of_In; exact Hc|].
      unfold byChatId. apply hasObjectId_same. symmetry. exact Hid. }
    congruence.
  - exact Hnd.
  - rewrite getChat_state. exact Hnd.
  - unfold appendChat, try_catch, bind, castObjectId.
    destruct (validObjectId id); cbn -[updateOne]; [|exact Hnd].
    unfold updateOne. destruct (findOne _ (Chat db)); cbn; [|exact Hnd].
    rewrite (updateFirst_ids (fun c => toHexString (chat_id c))) by reflexivity. exact Hnd.
  - destruct (deleteChat_listings env id db) as (_ & _ & ->).
    destruct (validObjectId id); [|exact Hnd].
    apply (NoDup_deleteFirst (fun c => toHexString (chat_id c))). exact Hnd.
  - rewrite renameChat_unfold. destruct (bool_decide _); exact Hnd.
  - rewrite pinChat_chat. exact Hnd.
  - rewrite unpinChat_chat. exact Hnd.
  - exact Hnd.
Qed.

Lemma serve_objectIds trace db :
  NoDup (map (fun c => toHexString (chat_id c)) (Chat db)) ->
  NoDup (map (fun c => toHexString (chat_id c)) (Chat (serve trace db))).
Proof.
  revert db. induction trace as [|[env req] rest IH]; intros db Hnd; cbn [serve].
  - exact Hnd.
  - apply IH. apply handle_objectIds. exact Hnd.
Qed.

(** ** Round trips *)

Lemma findOne_appended {D} (q : D -> bool) coll d :
  existsb q coll = false -> q d = true -> findOne q (coll ++ [d]) = Some d.
Proof.
  intros Hnone Hq. rewrite findOne_app, Hq.
  replace (findOne q coll) with (@None D); [reflexivity|].
  symmetry. unfold findOne. induction coll as [|x coll IH]; [reflexivity|].
  cbn in *. apply orb_false_iff in Hnone as [Hx Hrest]. rewrite Hx. apply IH, Hrest.
Qed.

Lemma deleteFirst_appended {D} (q : D -> bool) coll d :
  existsb q coll = false -> q d = true -> deleteFirst q (coll ++ [d]) = coll.
Proof.
  intros Hnone Hq. induction coll as [|x coll IH]; cbn.
  - rewrite Hq. reflexivity.
  - cbn in Hnone. apply orb_false_iff in Hnone as [Hx Hrest]. rewrite Hx, IH by exact Hrest.
    reflexivity.
Qed.

Lemma filter_id_appended chatId l c :
  chatId ∉ ids l -> _id c = chatId ->
  filter (fun c => _id c <> chatId) (l ++ [c]) = l.
Proof.
  intros Hnotin Hid. rewrite filter_app.
  rewrite filter_cons_False by (intros H; apply H; exact Hid).
  rewrite filter_nil, app_nil_r.
  induction l as [|x l IH]; [reflexivity|].
  cbn in Hnotin. apply not_elem_of_cons in Hnotin as [Hne Hnotin].
  rewrite filter_cons_True by congruence. rewrite IH by exact Hnotin. reflexivity.
Qed.

Lemma filter_id_absent chatId l :
  chatId ∉ ids l -> filter (fun c => _id c <> chatId) l = l.
Proof.
  induction l as [|x l IH]; [reflexivity|].
  intros Hnotin. cbn in Hnotin. apply not_elem_of_cons in Hnotin as [Hne Hnotin].
  rewrite filter_cons_True by congruence. rewrite IH by exact Hnotin. reflexivity.
Qed.

Lemma find_hasId_appended chatId l c :
  chatId ∉ ids l -> _id c = chatId -> List.find (hasId chatId) (l ++ [c]) = Some c.
Proof.
  intros Hnotin Hid. apply (findOne_appended (hasId chatId)).
  - apply not_true_is_false. intros H. apply Hnotin. apply existsb_hasId. exact H.
  - unfold hasId. apply bool_decide_eq_true. exact Hid.
Qed.

(** X13. A creation that went through, under an id that was not listed,
    followed by the delete of the new chat, is answered 200 and leaves
    the Chat collection and both listings of the user with the entries
    they had before the creation. *)
Theorem create_then_delete_restores_the_store :
  forall (env env2 : Env) (text assistantResponse : string) (db : Db),
    text <> "" -> assistantResponse <> "" -> newObjectId env <> "" ->
    validObjectId (newObjectId env) = true ->
    existsb (byChatId (newObjectId env)) (Chat db) = false ->
    newObjectId env ∉ ids (ActiveChats db demouser) ->
    newObjectId env ∉ ids (PinnedChatsOf db demouser) ->
    let db1 := snd (createChat env text assistantResponse db) in
    let r := deleteChat env2 (newObjectId env) db1 in
    fst r = Returns (mkResponse 200 (Message "Chat deleted successfully!")) /\
    Chat (snd r) = Chat db /\
    ActiveChats (snd r) demouser = ActiveChats db demouser /\
    PinnedChatsOf (snd r) demouser = PinnedChatsOf db demouser.
Proof.
  intros env env2 text assistantResponse db Htext Hresp Hid Hvalid Hnew Ha Hp db1 r.
  destruct (createChat_completed env text assistantResponse db Htext Hresp Hid Hnew)
    as (_ & Hchat & Hpinned & Hlist).
  fold db1 in Hchat, Hpinned, Hlist.
  destruct (deleteChat_listings env2 (newObjectId env) db1) as (Hu' & Hp' & Hc').
  pose proof (deleteChat_response env2 (newObjectId env) db1) as Hr.
  fold r in Hu', Hp', Hc', Hr. rewrite Hvalid in Hc', Hr.
  assert (Hq : byChatId (newObjectId env) (createdChat env text assistantResponse) = true)
    by (unfold byChatId; apply hasObjectId_refl).
  split; [|split; [|split]].
  - rewrite Hr, Hchat, existsb_app. cbn [existsb]. rewrite Hq, orb_true_r. reflexivity.
  - rewrite Hc', Hchat.
    apply (deleteFirst_appended (byChatId (newObjectId env)) _ _ Hnew Hq).
  - unfold ActiveChats. rewrite Hu', listing_pull.
    destruct (decide (demouser = demouser)); [|contradiction].
    rewrite Hlist. apply filter_id_appended; [exact Ha | reflexivity].
  - unfold PinnedChatsOf. rewrite Hp', listing_pull.
    destruct (decide (demouser = demouser)); [|contradiction].
    rewrite Hpinned. apply filter_id_absent. exact Hp.
Qed.

(** X14. A first pin that went through, followed by an unpin that went
    through, leaves the pinned listing as it was; the chat is back at
    the end of the active listing, under the title sent with the pin
    and with the time of the pin as its date, whatever entry the active
    listing held for it before. *)
Theorem pin_then_unpin_returns_the_pinned_entry :
  forall (env1 env2 : Env) (chatId title : string) (db db1 db2 : Db),
    chatId ∉ ids (PinnedChatsOf db demouser) ->
    pinChat env1 chatId title db = (Returns pinnedResponse, db1) ->
    unpinChat env2 chatId db1 = (Returns unpinnedResponse, db2) ->
    PinnedChatsOf db2 demouser = PinnedChatsOf db demouser /\
    ActiveChats db2 demouser =
      filter (fun c => _id c <> chatId) (ActiveChats db demouser) ++
        [ mkSummary chatId title (now env1) ] /\
    Chat db2 = Chat db.
Proof.
  intros env1 env2 chatId title db db1 db2 Hnotin Hpin Hunpin.
  destruct (pinChat_completed env1 chatId title db db1 Hnotin Hpin) as (Hc1 & Ha1 & Hp1).
  specialize (Ha1 demouser). specialize (Hp1 demouser).
  destruct (decide (demouser = demouser)); [|contradiction].
  assert (Hin : chatId ∈ ids (PinnedChatsOf db1 demouser)).
  { rewrite Hp1, ids_app. apply elem_of_app. right. apply list_elem_of_here. }
  destruct (unpinChat_completed env2 chatId db1 db2 Hin Hunpin)
    as (moved & Hfind & Hc2 & Ha2 & Hp2).
  specialize (Ha2 demouser). specialize (Hp2 demouser).
  destruct (decide (demouser = demouser)); [|contradiction].
  rewrite Hp1 in Hfind.
  rewrite (find_hasId_appended chatId _ (mkSummary chatId title (now env1)) Hnotin eq_refl)
    in Hfind.
  injection Hfind as <-.
  split; [|split].
  - rewrite Hp2, Hp1. apply filter_id_appended; [exact Hnotin | reflexivity].
  - rewrite Ha2, Ha1. reflexivity.
  - rewrite Hc2, Hc1. reflexivity.
Qed.

(* ================================================================ *)
(** * Further properties of the generation gateway *)
(* ================================================================ *)

Lemma orFallback_nonempty text : orFallback text <> "".
Proof.
  unfold orFallback. destruct text as [t|]; [|discriminate].
  destruct (truthy t) eqn:Ht; [|discriminate]. apply truthy_true. exact Ht.
Qed.

Lemma orFallback_idem text : orFallback (Some (orFallback text)) = orFallback text.
Proof.
  unfold orFallback at 1.
  rewrite (proj2 (truthy_true _) (orFallback_nonempty text)). reflexivity.
Qed.

(** X15. A generation for one user id, answered or failed, through any
    of the three entry points, leaves the buffer of every other user
    id as it was. *)
Theorem sessions_are_isolated :
  forall (ep : EntryPoint) (query userId other : string) (g : Gateway),
    other <> userId ->
    userSessions (after ep query userId g) !! other = userSessions g !! other /\
    bufferOf (after ep query userId g) other = bufferOf g other.
Proof.
  intros ep query userId other g Hne.
  assert (Hsame : userSessions (after ep query userId g) !! other = userSessions g !! other).
  { rewrite after_generate, generate_unfold. cbv zeta.
    destruct (lookupSession (userSessions g) userId); [|reflexivity|];
      destruct (upstream (calls g) _); cbn [snd userSessions];
      apply lookup_insert_ne; congruence. }
  split; [exact Hsame|]. unfold bufferOf. rewrite Hsame. reflexivity.
Qed.

(** X16. A generation the backend answers adds two turns to the buffer
    of the user, the question and then the answer, and returns the
    answer: the text of the backend, or the fallback text when the
    backend produced none or an empty one, so that the answer is never
    empty. *)
Theorem answered_generation_appends_both_turns :
  forall (ep : EntryPoint) (query userId : string) (g : Gateway) (text : option string),
    lookupSession (userSessions g) userId <> Inherited ->
    upstream (calls g)
      (commandOf ep (promptOf (conversationContext (bufferOf g userId)) query)) =
      Returns text ->
    let g' := after ep query userId g in
    let answer := orFallback text in
    bufferOf g' userId = bufferOf g userId ++ [ "User: " +:+ query; "Bot: " +:+ answer ] /\
    calls g' =
      calls g ++ [ commandOf ep (promptOf (conversationContext (bufferOf g userId)) query) ] /\
    answer <> "" /\
    (text = None \/ text = Some "" -> answer = "No response generated.") /\
    (forall t, text = Some t -> t <> "" -> answer = t) /\
    match ep with
    | Grounded => fst (retrieveAndGenerateResponse query userId g) = Returns answer
    | FreeForm => fst (generateWithBedrock query userId g) = Returns answer
    | Route =>
        fst (retrieveAndGenerate userId query g) =
          Returns (mkResponse 200 (ResponseField answer))
    end.
Proof.
  intros ep query userId g text Hslot Hup g' answer.
  pose proof (generate_unfold (commandOf ep) query userId g) as Hgen. cbv zeta in Hgen.
  rewrite Hup in Hgen.
  assert (Hgen' : generate (commandOf ep) query userId g =
    (Returns answer,
     mkGateway (<[userId := (bufferOf g userId ++ ["User: " +:+ query]) ++
                            ["Bot: " +:+ answer]]> (userSessions g))
       (calls g ++ [commandOf ep (promptOf (conversationContext (bufferOf g userId)) query)]))).
  { rewrite Hgen. destruct (lookupSession (userSessions g) userId);
      [reflexivity | contradiction | reflexivity]. }
  clear Hgen.
  split; [|split; [|split; [|split; [|split]]]].
  - subst g'. rewrite after_generate, Hgen'. unfold bufferOf. cbn [snd userSessions].
    rewrite lookup_insert_eq. cbn. rewrite <- app_assoc. reflexivity.
  - subst g'. rewrite after_generate, Hgen'. reflexivity.
  - apply orFallback_nonempty.
  - intros [->| ->]; reflexivity.
  - intros t -> Ht. subst answer. unfold orFallback.
    rewrite (proj2 (truthy_true t) Ht). reflexivity.
  - destruct ep;
      unfold retrieveAndGenerateResponse, generateWithBedrock, retrieveAndGenerate,
        try_catch, bind.
    + rewrite (Hgen' : generate (fun text => RetrieveAndGenerate text None) query userId g = _).
      reflexivity.
    + rewrite (Hgen' : generate InvokeModel query userId g = _). reflexivity.
    + rewrite (Hgen' : generate (fun text => RetrieveAndGenerate text None) query userId g = _).
      reflexivity.
Qed.

(** X17. An instant lookup answers 200 or 400 and never 500, 400
    exactly when the query or the data source is missing.  It keeps no
    conversation: the buffers stay as they are, and the one command it
    sends, when the source is configured, carries the query alone. *)
Theorem instant_lookup_is_stateless_and_never_500 :
  forall (query dataSource : string) (g : Gateway),
    let r := instantLookup query dataSource g in
    let command :=
      RetrieveAndGenerate ("User query: " +:+ query) (Some (dataSources dataSource)) in
    (status_of r = 200%nat \/ status_of r = 400%nat) /\
    (status_of r = 400%nat <-> query = "" \/ dataSource = "") /\
    userSessions (snd r) = userSessions g /\
    calls (snd r) =
      (if truthy query && truthy dataSource && truthyValue (dataSources dataSource)
       then calls g ++ [command] else calls g).
Proof.
  intros query dataSource g r command. subst r command.
  unfold instantLookup, fetchInstantResponse, try_catch, bind, send, status_of.
  destruct (truthy query) eqn:Hq; cbn [negb orb andb].
  2:{ cbn. repeat split; auto. intros _. left.
      destruct (decide (query = "")) as [->|Hne]; [reflexivity|].
      apply truthy_true in Hne. congruence. }
  destruct (truthy dataSource) eqn:Hd; cbn [negb orb andb].
  2:{ cbn. repeat split; auto. intros _. right.
      destruct (decide (dataSource = "")) as [->|Hne]; [reflexivity|].
      apply truthy_true in Hne. congruence. }
  apply truthy_true in Hq. apply truthy_true in Hd.
  destruct (truthyValue (dataSources dataSource)); cbn [negb].
  - destruct (upstream (calls g) _); cbn; (split; [left; reflexivity|]);
      (split; [split; [discriminate | intros [?|?]; contradiction]|]);
      split; reflexivity.
  - cbn. split; [left; reflexivity|].
    split; [split; [discriminate | intros [?|?]; contradiction]|].
    split; reflexivity.
Qed.

(** X18. An instant lookup with a query and a data source is always
    answered 200.  When the source is configured, one command with its
    identifier is sent and the body is the text of the backend, the
    fallback text when there is none, or the sentinel when the backend
    rejects the command; when it is not, nothing is sent and the body
    is the sentinel. *)
Theorem instant_lookup_answers_text_fallback_or_sentinel :
  forall (query dataSource : string) (g : Gateway),
    query <> "" -> dataSource <> "" ->
    let command :=
      RetrieveAndGenerate ("User query: " +:+ query) (Some (dataSources dataSource)) in
    instantLookup query dataSource g =
      if truthyValue (dataSources dataSource)
      then (Returns
              (mkResponse 200
                 (ResponseField
                    match upstream (calls g) command with
                    | Returns (Some t) => if truthy t then t else "No response generated."
                    | Returns None => "No response generated."
                    | Throws _ => "Error retrieving response."
                    end)),
            mkGateway (userSessions g) (calls g ++ [command]))
      else (Returns (mkResponse 200 (ResponseField "Error retrieving response.")), g).
Proof.
  intros query dataSource g Hq Hd command. subst command.
  unfold instantLookup, fetchInstantResponse, try_catch, bind, send.
  rewrite (proj2 (truthy_true _) Hq), (proj2 (truthy_true _) Hd). cbn [negb orb].
  destruct (truthyValue (dataSources dataSource)); cbn [negb]; [|reflexivity].
  destruct (upstream (calls g) _) as [text|e]; cbn [ret]; [|reflexivity].
  rewrite orFallback_idem. destruct text as [t|]; reflexivity.
Qed.

(* ================================================================ *)
(** * Properties of the document upload and read *)
(* ================================================================ *)

(** ** The key of an object and its URL *)

Lemma last_segment_from_app acc a b :
  last_segment_from acc (a +:+ b) = last_segment_from (last_segment_from acc a) b.
Proof.
  revert acc. induction a as [|ch a IH]; intros acc; [reflexivity|].
  change (String ch a +:+ b) with (String ch (a +:+ b)). cbn [last_segment_from].
  destruct (Ascii.eqb ch "/"); apply IH.
Qed.

Lemma string_app_nil_r (s : string) : s +:+ "" = s.
Proof.
  induction s as [|ch s IH]; [reflexivity|].
  change (String ch s +:+ "") with (String ch (s +:+ "")). rewrite IH. reflexivity.
Qed.

Lemma string_app_assoc (a b c : string) : (a +:+ b) +:+ c = a +:+ (b +:+ c).
Proof.
  induction a as [|ch a IH]; [reflexivity|].
  change (String ch a +:+ b) with (String ch (a +:+ b)).
  change (String ch (a +:+ b) +:+ c) with (String ch ((a +:+ b) +:+ c)).
  rewrite IH. reflexivity.
Qed.

Lemma last_segment_from_slashFree acc s :
  slashFree s = true -> last_segment_from acc s = acc +:+ s.
Proof.
  revert acc. induction s as [|ch s IH]; intros acc Hfree.
  - cbn. rewrite string_app_nil_r. reflexivity.
  - cbn in Hfree. apply andb_true_iff in Hfree as [Hch Hfree].
    cbn [last_segment_from]. apply negb_true_iff in Hch. rewrite Hch.
    rewrite (IH _ Hfree), string_app_assoc. reflexivity.
Qed.

Lemma slashFree_app a b : slashFree (a +:+ b) = slashFree a && slashFree b.
Proof.
  induction a as [|ch a IH]; [reflexivity|].
  change (String ch a +:+ b) with (String ch (a +:+ b)). cbn [slashFree].
  rewrite IH, andb_assoc. reflexivity.
Qed.

Lemma slashFree_last_segment_from acc s :
  slashFree acc = true -> slashFree (last_segment_from acc s) = true.
Proof.
  revert acc. induction s as [|ch s IH]; intros acc Hacc; [exact Hacc|].
  cbn [last_segment_from]. destruct (Ascii.eqb ch "/") eqn:Hch.
  - apply IH. reflexivity.
  - apply IH. rewrite slashFree_app, Hacc. cbn. rewrite Hch. reflexivity.
Qed.

Lemma last_segment_objectUrl env key : last_segment (objectUrl env key) = last_segment key.
Proof.
  unfold last_segment, objectUrl.
  rewrite !last_segment_from_app.
  generalize (last_segment_from
                (last_segment_from
                   (last_segment_from (last_segment_from "" "https://") (S3_BUCKET_NAME env))
                   ".s3.") (AWS_REGION env)).
  intros acc. reflexivity.
Qed.

(** X19. The key the delete and the read derive from a stored URL is
    the part of the object key after its last slash: it is the key
    under which the object was stored exactly when that key contains
    no slash, whatever the bucket name and the region are. *)
Theorem stored_url_gives_back_a_slash_free_key :
  forall (env : DocEnv) (key : string),
    last_segment (objectUrl env key) = last_segment key /\
    slashFree (last_segment (objectUrl env key)) = true /\
    (last_segment (objectUrl env key) = key <-> slashFree key = true).
Proof.
  intros env key. rewrite last_segment_objectUrl.
  split; [reflexivity|].
  assert (Hfree : slashFree (last_segment key) = true)
    by (apply slashFree_last_segment_from; reflexivity).
  split; [exact Hfree|]. split.
  - intros Heq. rewrite Heq in Hfree. exact Hfree.
  - intros Hkey. unfold last_segment. rewrite (last_segment_from_slashFree _ _ Hkey).
    reflexivity.
Qed.

(** ** Uploading *)

Lemma uploadFileToS3_eq env name c :
  uploadFileToS3 env name c =
    let key := uniqueFileNameOf env (uuidCount c) name in
    if putObjectFails env
    then (Throws UpstreamError,
          mkCloud (Document c) (bucket c) (ingestionJobs c) (S (uuidCount c)))
    else (Returns (objectUrl env key),
          mkCloud (Document c)
            (if bool_decide (key ∈ bucket c) then bucket c else bucket c ++ [key])
            (ingestionJobs c ++ [ingestionJobOf key c]) (S (S (uuidCount c)))).
Proof.
  unfold uploadFileToS3, triggerBedrockIngestion, startIngestionJob, putObject, uuidv4,
    try_catch, bind, modify, throw, ret, ingestionJobOf.
  destruct (putObjectFails env); cbn; [reflexivity|].
  destruct (startIngestionFails (awsOf env)); reflexivity.
Qed.

Lemma truthy_objectUrl env key : truthy (objectUrl env key) = true.
Proof. apply truthy_true. unfold objectUrl. discriminate. Qed.

(** The upload route, case by case. *)
Lemma uploadDocument_eq env userId f c :
  uploadDocument env userId (Some f) c =
    let key := uploadKey env f c in
    let doc := uploadedDocument env userId f c in
    let stored :=
      mkCloud (Document c)
        (if bool_decide (key ∈ bucket c) then bucket c else bucket c ++ [key])
        (ingestionJobs c ++ [ingestionJobOf key c]) (S (S (uuidCount c))) in
    if putObjectFails env
    then (Returns (mkResponse 500 (MessageError "Error uploading document" UpstreamError)),
          mkCloud (Document c) (bucket c) (ingestionJobs c) (S (uuidCount c)))
    else if negb (validDocument doc)
    then (Returns (mkResponse 500 (MessageError "Error uploading document" ValidationError)),
          stored)
    else if existsb (byDocId (newDocumentId env)) (Document c)
    then (Returns (mkResponse 500 (MessageError "Error uploading document" DuplicateKey)),
          stored)
    else (Returns (mkResponse 201 (Data (Saved doc))),
          mkCloud (Document c ++ [doc]) (bucket stored) (ingestionJobs stored)
            (uuidCount stored)).
Proof.
  cbv zeta. unfold uploadDocument.
  pose proof (uploadFileToS3_eq env (originalname f) c) as Hup. cbv zeta in Hup.
  fold (uploadKey env f c) in Hup.
  destruct (putObjectFails env).
  { rewrite (try_catch_bind_throws _ _ _ _ _ _ Hup). reflexivity. }
  rewrite (try_catch_bind _ _ _ _ _ _ Hup). clear Hup.
  fold (uploadedDocument env userId f c).
  unfold Document_save.
  destruct (negb (validDocument _)); [reflexivity|].
  unfold try_catch, bind, get, put, ret. cbn [Document uploadedDocument doc_id].
  destruct (existsb _ (Document c)); reflexivity.
Qed.

Lemma uploadable_valid env userId f c :
  uploadable env userId f c -> validDocument (uploadedDocument env userId f c) = true.
Proof.
  intros (_ & Hu & Hn & Hm & _). unfold validDocument, uploadedDocument.
  cbn [doc_userId fileName fileUrl contentType].
  rewrite (proj2 (truthy_true _) Hu), (proj2 (truthy_true _) Hn),
    (proj2 (truthy_true _) Hm), truthy_objectUrl. reflexivity.
Qed.

Lemma uploadDocument_completed env userId f c :
  uploadable env userId f c ->
  uploadDocument env userId (Some f) c =
    (Returns (mkResponse 201 (Data (Saved (uploadedDocument env userId f c)))),
     mkCloud (Document c ++ [uploadedDocument env userId f c])
       (if bool_decide (uploadKey env f c ∈ bucket c) then bucket c
        else bucket c ++ [uploadKey env f c])
       (ingestionJobs c ++ [ingestionJobOf (uploadKey env f c) c])
       (S (S (uuidCount c)))).
Proof.
  intros Hok. rewrite uploadDocument_eq. cbv zeta.
  rewrite (uploadable_valid _ _ _ _ Hok).
  destruct Hok as (-> & _ & _ & _ & ->). reflexivity.
Qed.

(** X20. An upload nothing stands against is answered 201 with the new
    record, which ends the Document collection and points at the URL
    of the stored object; the bucket holds the object under the key
    made of a fresh uuid and the file name, and one ingestion job for
    that key, with a second fresh uuid as its token, has been
    submitted, whether or not the ingestion service accepted it. *)
Theorem upload_stores_object_record_and_job :
  forall (env : DocEnv) (userId : string) (f : UploadedFile) (c : Cloud),
    uploadable env userId f c ->
    let r := uploadDocument env userId (Some f) c in
    let key := uniqueFileNameOf env (uuidCount c) (originalname f) in
    let doc := mkDocument (newDocumentId env) userId (originalname f)
                 (objectUrl env key) (mimetype f) (docNow env) in
    fst r = Returns (mkResponse 201 (Data (Saved doc))) /\
    Document (snd r) = Document c ++ [doc] /\
    (forall k, k ∈ bucket (snd r) <-> k ∈ bucket c \/ k = key) /\
    ingestionJobs (snd r) =
      ingestionJobs c ++
        [ mkIngestionJob KNOWLEDGE_BASE_ID (DATA_SOURCE_ID processEnv) (S (uuidCount c))
            ("Ingestion for file: " +:+ key) ] /\
    uuidCount (snd r) = S (S (uuidCount c)).
Proof.
  intros env userId f c Hok r key doc. subst r.
  rewrite (uploadDocument_completed env userId f c Hok). cbn [fst snd].
  split; [reflexivity|]. split; [reflexivity|]. split; [|split; reflexivity].
  intros k. cbn [bucket]. fold key. unfold uploadKey. fold key.
  case_bool_decide as Hin.
  - split; [auto|]. intros [Hk| ->]; assumption.
  - rewrite elem_of_app, list_elem_of_singleton. reflexivity.
Qed.

(** X21. An upload without a file is answered 400 and touches nothing.
    An upload S3 rejects is answered 500 with the error of S3: no
    record is stored, the bucket is as before, and no ingestion job is
    submitted. *)
Theorem rejected_upload_stores_nothing :
  forall (env : DocEnv) (userId : string) (c : Cloud),
    uploadDocument env userId None c =
      (Returns (mkResponse 400 (Message "No file uploaded")), c) /\
    (forall f, putObjectFails env = true ->
       let r := uploadDocument env userId (Some f) c in
       fst r = Returns (mkResponse 500 (MessageError "Error uploading document" UpstreamError)) /\
       Document (snd r) = Document c /\
       bucket (snd r) = bucket c /\
       ingestionJobs (snd r) = ingestionJobs c).
Proof.
  intros env userId c. split; [reflexivity|].
  intros f Hfails r. subst r. rewrite uploadDocument_eq. cbv zeta. rewrite Hfails.
  repeat split; reflexivity.
Qed.

(** X22. An upload sent without a user id is answered 500 only after
    the object has been stored and its ingestion job submitted: the
    save of the record fails its validation, no record exists, and the
    object stays in the bucket. *)
Theorem upload_without_user_leaves_the_object_behind :
  forall (env : DocEnv) (f : UploadedFile) (c : Cloud),
    putObjectFails env = false ->
    let r := uploadDocument env "" (Some f) c in
    let key := uniqueFileNameOf env (uuidCount c) (originalname f) in
    fst r =
      Returns (mkResponse 500 (MessageError "Error uploading document" ValidationError)) /\
    Document (snd r) = Document c /\
    key ∈ bucket (snd r) /\
    ingestionJobs (snd r) =
      ingestionJobs c ++
        [ mkIngestionJob KNOWLEDGE_BASE_ID (DATA_SOURCE_ID processEnv) (S (uuidCount c))
            ("Ingestion for file: " +:+ key) ].
Proof.
  intros env f c Hput r key. subst r. rewrite uploadDocument_eq. cbv zeta. rewrite Hput.
  unfold validDocument at 1. cbn [uploadedDocument doc_userId]. cbn [truthy andb negb].
  change (truthy "") with false. cbn [andb negb fst snd Document bucket ingestionJobs].
  split; [reflexivity|]. split; [reflexivity|]. split; [|reflexivity].
  unfold uploadKey. fold key. case_bool_decide as Hin; [exact Hin|].
  apply elem_of_app. right. apply list_elem_of_here.
Qed.

(** ** Uploads followed by reads and deletes *)

Lemma filter_neq_absent (key : string) (l : list string) :
  key ∉ l -> filter (fun k => k <> key) l = l.
Proof.
  induction l as [|x l IH]; [reflexivity|].
  intros Hnotin. apply not_elem_of_cons in Hnotin as [Hne Hnotin].
  rewrite filter_cons_True by congruence. rewrite IH by exact Hnotin. reflexivity.
Qed.

Lemma filter_neq_appended (key : string) (l : list string) :
  key ∉ l -> filter (fun k => k <> key) (l ++ [key]) = l.
Proof.
  intros Hnotin. rewrite filter_app, (filter_neq_absent key l Hnotin).
  rewrite filter_cons_False by (intros H; apply H; reflexivity).
  rewrite filter_nil. apply app_nil_r.
Qed.

(** X23. After an upload that went through, under a key without a
    slash, the read of the new record is answered 200 with a URL
    signed for that very key, which the bucket holds, and for 3600
    seconds; the read changes nothing. *)
Theorem upload_then_read_signs_the_stored_key :
  forall (env env2 : DocEnv) (userId : string) (f : UploadedFile) (c : Cloud),
    uploadable env userId f c ->
    slashFree (uploadKey env f c) = true ->
    validObjectId (newDocumentId env) = true ->
    signFails env2 = false ->
    let c1 := snd (uploadDocument env userId (Some f) c) in
    getDocument env2 (newDocumentId env) c1 =
      (Returns (mkResponse 200 (Data (FileUrl (mkSignedUrl (uploadKey env f c) 3600)))), c1) /\
    uploadKey env f c ∈ bucket c1.
Proof.
  intros env env2 userId f c Hok Hfree Hvalid Hsign c1. subst c1.
  rewrite (uploadDocument_completed env userId f c Hok). cbn [snd].
  destruct Hok as (_ & _ & _ & _ & Hnew).
  split.
  - unfold getDocument, try_catch, bind, castObjectId, get, getSignedUrl.
    rewrite Hvalid, Hsign. cbn [ret Document].
    change (fun d : DocumentDoc => hasObjectId (toHexString (newDocumentId env)) (doc_id d))
      with (byDocId (newDocumentId env)).
    rewrite (findOne_appended _ (Document c) (uploadedDocument env userId f c) Hnew)
      by (unfold byDocId; apply hasObjectId_refl).
    cbn [uploadedDocument fileUrl ret].
    rewrite last_segment_objectUrl. unfold last_segment.
    rewrite (last_segment_from_slashFree _ _ Hfree). reflexivity.
  - cbn [bucket]. case_bool_decide as Hin; [exact Hin|].
    apply elem_of_app. right. apply list_elem_of_here.
Qed.

(** X24. An upload that went through, under a new key without a slash,
    followed by the delete of the new record, leaves the Document
    collection and the bucket as they were before the upload. *)
Theorem upload_then_delete_restores_records_and_bucket :
  forall (env env2 : DocEnv) (userId : string) (f : UploadedFile) (c : Cloud),
    uploadable env userId f c ->
    slashFree (uploadKey env f c) = true ->
    uploadKey env f c ∉ bucket c ->
    validObjectId (newDocumentId env) = true ->
    deleteObjectFails (awsOf env2) = false ->
    let c1 := snd (uploadDocument env userId (Some f) c) in
    let r := deleteDocument (awsOf env2) (newDocumentId env) c1 in
    fst r =
      Returns (mkResponse 200 (Message "Document deleted and Bedrock Knowledge Base updated!")) /\
    Document (snd r) = Document c /\
    bucket (snd r) = bucket c.
Proof.
  intros env env2 userId f c Hok Hfree Hnew Hvalid Hdel c1 r. subst r c1.
  rewrite (uploadDocument_completed env userId f c Hok). cbn [snd].
  destruct Hok as (_ & _ & _ & _ & Hid).
  assert (Hq : byDocId (newDocumentId env) (uploadedDocument env userId f c) = true)
    by (unfold byDocId; apply hasObjectId_refl).
  rewrite (deleteDocument_found (awsOf env2) (newDocumentId env) _
             (uploadedDocument env userId f c) Hvalid)
    by (first [exact Hdel | cbn [Document]; apply findOne_appended; assumption]).
  cbn [fst snd Document bucket ingestionJobs uuidCount uploadedDocument fileUrl].
  rewrite bool_decide_eq_false_2 by exact Hnew.
  rewrite last_segment_objectUrl. unfold last_segment.
  rewrite (last_segment_from_slashFree _ _ Hfree).
  change ("" +:+ uploadKey env f c) with (uploadKey env f c).
  rewrite (filter_neq_appended _ _ Hnew).
  fold (uploadedDocument env userId f c).
  rewrite (deleteFirst_appended _ _ _ Hid Hq).
  rewrite triggerBedrockReIngestion_eq.
  split; [reflexivity|].
  destruct (listObjectsFails (awsOf env2)); cbn [snd Document bucket];
    [split; reflexivity|].
  destruct (bucket c); split; reflexivity.
Qed.

(** X25. After an upload that went through, the list of the records of
    the uploading user is the former one with the new record at its
    end, the lists of the other users are as before, and listing
    changes nothing. *)
Theorem upload_extends_the_list_of_its_user_only :
  forall (env : DocEnv) (userId : string) (f : UploadedFile) (c : Cloud) (u : string),
    uploadable env userId f c ->
    let c1 := snd (uploadDocument env userId (Some f) c) in
    getDocuments u c1 =
      (Returns
         (mkResponse 200
            (Data (Documents
                     (if decide (u = userId)
                      then documentsOf c u ++ [uploadedDocument env userId f c]
                      else documentsOf c u)))),
       c1).
Proof.
  intros env userId f c u Hok c1. subst c1.
  rewrite (uploadDocument_completed env userId f c Hok). cbn [snd].
  unfold getDocuments, try_catch, bind, get, ret, documentsOf. cbn [Document].
  rewrite List.filter_app. cbn [List.filter uploadedDocument doc_userId].
  destruct (decide (u = userId)) as [->|Hne].
  - rewrite bool_decide_eq_true_2 by reflexivity. reflexivity.
  - rewrite bool_decide_eq_false_2 by congruence. rewrite app_nil_r. reflexivity.
Qed.

(** ** Deletes that do not go through *)

(** X26. A delete that does not go through changes nothing: for an id
    that is no ObjectId the answer is 500, for an id that names an
    ObjectId no record carries 404, and when S3 rejects the removal of
    the object 500, the record being kept and no ingestion job
    submitted. *)
Theorem failed_delete_changes_nothing :
  forall (aws : Aws) (id : string) (c : Cloud),
    validObjectId id = false \/
    findOne (byDocId id) (Document c) = None \/
    deleteObjectFails aws = true ->
    deleteDocument aws id c =
      (Returns
         (if validObjectId id
          then match findOne (byDocId id) (Document c) with
               | None => mkResponse 404 (Message "Document not found!")
               | Some _ =>
                   mkResponse 500 (MessageError "Error deleting document" UpstreamError)
               end
          else mkResponse 500 (MessageError "Error deleting document" CastError)),
       c).
Proof.
  intros aws id c Hfail. unfold byDocId in *.
  unfold deleteDocument, try_catch, bind, castObjectId, get.
  destruct (validObjectId id); cbn [ret throw]; [|reflexivity].
  destruct (findOne _ (Document c)) as [document|]; [|reflexivity].
  destruct Hfail as [Hfail|[Hfail|Hfail]]; try discriminate.
  unfold deleteObject. rewrite Hfail. reflexivity.
Qed.

(** ** The tokens of the ingestion jobs *)

Lemma getDocument_state env id c : snd (getDocument env id c) = c.
Proof.
  unfold getDocument, try_catch, bind, castObjectId, get, getSignedUrl.
  destruct (validObjectId id); cbn [ret throw snd]; [|reflexivity].
  destruct (findOne _ (Document c)); [|reflexivity].
  destruct (signFails env); reflexivity.
Qed.

Lemma deleteDocument_state aws id c :
  snd (deleteDocument aws id c) = c \/
  exists c1,
    ingestionJobs c1 = ingestionJobs c /\ uuidCount c1 = uuidCount c /\
    snd (deleteDocument aws id c) = snd (triggerBedrockReIngestion aws c1).
Proof.
  destruct (validObjectId id) eqn:Hvalid.
  2:{ left. unfold deleteDocument, try_catch, bind, castObjectId. rewrite Hvalid. reflexivity. }
  destruct (findOne (byDocId id) (Document c)) as [document|] eqn:Hfind.
  2:{ left. unfold deleteDocument, try_catch, bind, castObjectId, get.
      unfold byDocId in Hfind. rewrite Hvalid. cbn [ret]. rewrite Hfind. reflexivity. }
  destruct (deleteObjectFails aws) eqn:Hdel.
  { left. unfold deleteDocument, try_catch, bind, castObjectId, get, deleteObject.
    unfold byDocId in Hfind. rewrite Hvalid. cbn [ret]. rewrite Hfind, Hdel. reflexivity. }
  right. rewrite (deleteDocument_found aws id c document Hvalid Hfind Hdel).
  eexists. split; [|split; [|reflexivity]]; reflexivity.
Qed.

(** What a request adds to the jobs on record: nothing, or one job
    whose token is a uuid drawn while the request was served. *)
Lemma handleDocument_jobs env req c :
  (ingestionJobs (handleDocument env req c) = ingestionJobs c /\
   (uuidCount c <= uuidCount (handleDocument env req c))%nat) \/
  (exists job,
     ingestionJobs (handleDocument env req c) = ingestionJobs c ++ [job] /\
     (uuidCount c <= clientToken job < uuidCount (handleDocument env req c))%nat).
Proof.
  destruct req as [userId [f|] | userId | id | id]; cbn [handleDocument].
  - rewrite uploadDocument_eq. cbv zeta.
    destruct (putObjectFails env); [left; cbn; split; [reflexivity | lia]|].
    right. exists (ingestionJobOf (uploadKey env f c) c).
    destruct (negb _); [|destruct (existsb _ _)]; cbn; split; try reflexivity; lia.
  - left. cbn. split; [reflexivity | lia].
  - left. cbn. split; [reflexivity | lia].
  - left. rewrite getDocument_state. split; [reflexivity | lia].
  - destruct (deleteDocument_state (awsOf env) id c) as [->|(c1 & Hjobs & Hcount & ->)].
    + left. split; [reflexivity | lia].
    + rewrite triggerBedrockReIngestion_eq. cbn [snd].
      destruct (listObjectsFails (awsOf env)); [left; rewrite Hjobs, Hcount; split; [reflexivity|lia]|].
      destruct (bucket c1); [left; rewrite Hjobs, Hcount; split; [reflexivity|lia]|].
      right. exists (reIngestionJob c1). cbn. rewrite Hjobs, Hcount.
      split; [reflexivity | lia].
Qed.

Lemma handleDocument_tokens env req c :
  tokensDistinct c -> tokensDistinct (handleDocument env req c).
Proof.
  intros [Hnd Hdrawn].
  destruct (handleDocument_jobs env req c) as [[Hjobs Hcount]|(job & Hjobs & Hlo & Hhi)];
    unfold tokensDistinct, tokensDrawn; rewrite Hjobs.
  - split; [exact Hnd|]. intros j Hj. specialize (Hdrawn j Hj). lia.
  - split.
    + rewrite map_app. apply NoDup_app. split; [exact Hnd|].
      split; [|apply NoDup_singleton].
      intros t Ht Ht'. apply list_elem_of_singleton in Ht'. subst t.
      apply list_elem_of_fmap in Ht as (j & Htoken & Hj).
      specialize (Hdrawn j Hj). lia.
    + intros j Hj. apply elem_of_app in Hj as [Hj|Hj].
      * specialize (Hdrawn j Hj). lia.
      * apply list_elem_of_singleton in Hj. subst j. exact Hhi.
Qed.

(** X27. Over any sequence of uploads, reads and deletes, served from
    a store whose ingestion jobs carry distinct tokens that were all
    drawn from the generator, the jobs on record still carry distinct
    tokens, and all of them were drawn. *)
Theorem ingestion_tokens_stay_distinct :
  forall (trace : list (DocEnv * DocRequest)) (c : Cloud),
    tokensDistinct c ->
    NoDup (map clientToken (ingestionJobs (serveDocuments trace c))) /\
    tokensDrawn (serveDocuments trace c).
Proof.
  intros trace. induction trace as [|[env req] rest IH]; intros c Hinv; cbn [serveDocuments].
  - exact Hinv.
  - apply IH. apply handleDocument_tokens. exact Hinv.
Qed.

End Backend.

(* ================================================================== *)
(** * The scenarios, evaluated *)
(* ================================================================== *)

(** Membership in a concrete list of strings, and its negation. *)
Ltac listed := apply list_elem_of_In; vm_compute; tauto.
Ltac not_listed :=
  let H := fresh in
  intros H; apply list_elem_of_In in H; vm_compute in H; intuition discriminate.
Ltac no_duplicates :=
  vm_compute; repeat (apply NoDup_cons_2; [not_listed|]); apply NoDup_nil_2.

Lemma sampleTrace_fresh : freshIds true stampNow isObjectIdHex sampleTrace emptyDb.
Proof.
  cbn [sampleTrace freshIds freshId].
  repeat split; try exact I; not_listed.
Qed.

(** The listings the sample trace ends with. *)
Example sampleTrace_listings :
  ActiveChats (serve true stampNow isObjectIdHex sampleTrace emptyDb) demouser = [] /\
  PinnedChatsOf (serve true stampNow isObjectIdHex sampleTrace emptyDb) demouser =
    [ mkSummary idA "AMP basics" 600 ].
Proof. split; vm_compute; reflexivity. Qed.

Lemma listings_stay_mutually_exclusive_witness :
  ~ (idA ∈ ids (ActiveChats (serve true stampNow isObjectIdHex sampleTrace emptyDb) demouser) /\
     idA ∈ ids (PinnedChatsOf (serve true stampNow isObjectIdHex sampleTrace emptyDb) demouser)).
Proof.
  apply (listings_stay_mutually_exclusive true stampNow isObjectIdHex sampleTrace emptyDb).
  - apply emptyDb_exclusive.
  - apply sampleTrace_fresh.
Defined.

Lemma unpin_then_pin_restores_membership_witness :
  idA ∈ ids (PinnedChatsOf repinnedDb demouser) /\
  (idA ∉ ids (ActiveChats repinnedDb demouser)) /\
  (forall c, c ∈ PinnedChatsOf repinnedDb demouser -> _id c = idA ->
             c = mkSummary idA "AMP basics" 600).
Proof.
  apply (unpin_then_pin_restores_membership true (at_ 500) (at_ 600) idA "AMP basics"
           pinnedDb unpinnedDb repinnedDb).
  - listed.
  - vm_compute. reflexivity.
  - vm_compute. reflexivity.
Defined.

(** C2 fails as worded: pinned at time 300, unpinned at 500 and pinned
    again at 600 under its old title, the chat is listed with
    [createdAt] 600. *)
Lemma round_trip_changes_createdAt :
  ~ roundTripKeepsFields true (at_ 500) (at_ 600) idA "What is AMP?" pinnedDb.
Proof.
  intros H.
  destruct (H (mkSummary idA "What is AMP?" 300)) as (_ & _ & c & Hc & _ & _ & Hcreated).
  - vm_compute. apply list_elem_of_here.
  - reflexivity.
  - vm_compute in Hc. apply list_elem_of_singleton in Hc. subst c.
    vm_compute in Hcreated. discriminate.
Qed.

Lemma unknown_data_source_answers_sentinel_witness :
  instantLookup sampleEnv backendUp "What is AMP?" "unknown-source" emptyGateway =
    (Returns (mkResponse 200 (ResponseField "Error retrieving response.")), emptyGateway).
Proof.
  apply (unknown_data_source_answers_sentinel sampleEnv backendUp
           "What is AMP?" "unknown-source" emptyGateway).
  - not_listed.
  - not_listed.
Defined.

(** C3 fails as worded: the scenario of the specification is answered
    with status 200. *)
Lemma unknown_data_source_is_no_400 :
  ~ failsFastWith400 emptyGateway
      (instantLookup sampleEnv backendUp "What is AMP?" "unknown-source" emptyGateway).
Proof. intros [Hstatus _]. vm_compute in Hstatus. discriminate. Qed.

(** A key found on the prototype chain passes the guard: a command is
    sent. *)
Example inherited_key_reaches_backend :
  calls (snd (instantLookup sampleEnv backendUp "What is AMP?" "constructor" emptyGateway)) =
    [ RetrieveAndGenerate "User query: What is AMP?" (Some Object) ].
Proof. vm_compute. reflexivity. Qed.

(** C4 fails as worded: with the backend down, the route answers 500. *)
Lemma route_fails_caller_when_backend_fails :
  ~ answersSuccess (fst (retrieveAndGenerate backendDown "u1" "What is AMP?" emptyGateway)).
Proof. intros [Hstatus _]. vm_compute in Hstatus. discriminate. Qed.

Lemma delete_reingests_only_when_objects_remain_witness :
  fst (deleteDocument isObjectIdHex sampleEnv ingestionDown idA sampleCloud) =
    Returns (mkResponse 200 (Message "Document deleted and Bedrock Knowledge Base updated!")) /\
  ingestionJobs (snd (deleteDocument isObjectIdHex sampleEnv ingestionDown idA sampleCloud)) =
    ingestionJobs sampleCloud ++ [reIngestionJob sampleEnv sampleCloud] /\
  clientToken (reIngestionJob sampleEnv sampleCloud) = 4%nat.
Proof.
  pose proof (delete_reingests_only_when_objects_remain isObjectIdHex sampleEnv
                ingestionDown idA sampleCloud
                (mkDocument idA "u1" "rates.pdf"
                   "https://docs.s3.ap-southeast-2.amazonaws.com/1b4e28ba-rates.pdf"
                   "application/pdf" 100)) as H.
  cbv zeta in H.
  destruct H as (Hok & _ & _ & _ & Hjob); try (vm_compute; reflexivity).
  destruct Hjob as (Hjobs & Htoken & _); [vm_compute; discriminate | reflexivity |].
  split; [exact Hok|]. split; [exact Hjobs | exact Htoken].
Defined.

(** C5 fails as worded: when S3 rejects the listing of the bucket, the
    delete answers 200, an object remains, and no job is submitted. *)
Lemma rejected_listing_submits_no_job :
  ~ oneJobWhenObjectsRemain sampleCloud
      (deleteDocument isObjectIdHex sampleEnv listingDown idA sampleCloud).
Proof.
  intros H. destruct H as (job & Hjobs & _); [vm_compute; discriminate|].
  apply (f_equal (@length IngestionJob)) in Hjobs. vm_compute in Hjobs. discriminate.
Qed.

(** The answer and the store of that delete. *)
Example rejected_listing_answers_success :
  fst (deleteDocument isObjectIdHex sampleEnv listingDown idA sampleCloud) =
    Returns (mkResponse 200 (Message "Document deleted and Bedrock Knowledge Base updated!")) /\
  bucket (snd (deleteDocument isObjectIdHex sampleEnv listingDown idA sampleCloud)) =
    [ "7c9e6679-fees.pdf" ] /\
  ingestionJobs (snd (deleteDocument isObjectIdHex sampleEnv listingDown idA sampleCloud)) =
    ingestionJobs sampleCloud.
Proof. repeat split; vm_compute; reflexivity. Qed.

Lemma activeDb_listingInv : listingInv activeDb demouser.
Proof.
  split; [|split].
  - no_duplicates.
  - no_duplicates.
  - intros x _ Hx. vm_compute in Hx. inversion Hx.
Qed.

Lemma pin_is_idempotent_witness :
  pinChat true (at_ 350) idA "pinned again" pinnedDb = (Returns pinnedResponse, pinnedDb) /\
  countId idA (PinnedChatsOf pinnedDb demouser) = 1%nat /\
  countId idA (ActiveChats pinnedDb demouser) = 0%nat.
Proof.
  apply (pin_is_idempotent true (at_ 300) (at_ 350) idA "What is AMP?" "pinned again"
           activeDb pinnedDb).
  - apply activeDb_listingInv.
  - vm_compute. reflexivity.
Defined.

(** After twelve turns the context is turns 8 to 12, oldest first. *)
Example twelve_turns_window :
  conversationContext
    [ "t1"; "t2"; "t3"; "t4"; "t5"; "t6"; "t7"; "t8"; "t9"; "t10"; "t11"; "t12" ] =
  join LF [ "t8"; "t9"; "t10"; "t11"; "t12" ].
Proof. reflexivity. Qed.

(** A user id that names an inherited property gets the sentinel of the
    gateway and a 500 of the route, and no command is sent. *)
Example inherited_user_id :
  retrieveAndGenerateResponse backendUp "What is AMP?" "constructor" emptyGateway =
    (Returns "Error retrieving from Knowledge Base", emptyGateway) /\
  retrieveAndGenerate backendUp "constructor" "What is AMP?" emptyGateway =
    (Returns (mkResponse 500 (ErrorField "Error retrieving from Knowledge Base")),
     emptyGateway).
Proof. split; reflexivity. Qed.

Lemma failed_generation_keeps_user_turn_witness :
  bufferOf (after backendDown Grounded "What is AMP?" "u1" emptyGateway) "u1" =
    [ "User: What is AMP?" ].
Proof.
  apply (failed_generation_keeps_user_turn backendDown Grounded "What is AMP?" "u1"
           emptyGateway (RetrieveAndGenerate (promptOf "" "What is AMP?") None)
           UpstreamError).
  - vm_compute. reflexivity.
  - reflexivity.
Defined.

(** C8, where the code departs from it: renaming an active chat to the
    title it has is answered 404, both for a UserChats schema without
    [timestamps] and, in the millisecond of the last write, for one
    with it; a later request under [timestamps] is answered 200. *)
Theorem rename_to_current_title_answers_not_found :
  idA ∈ ids (ActiveChats activeDb demouser) /\
  fst (renameChat false (at_ 900) idA "What is AMP?" activeDb) =
    Returns (mkResponse 404 (Message "Chat not found in UserChats or PinnedChats!")) /\
  fst (renameChat true (at_ 100) idA "What is AMP?" activeDb) =
    Returns (mkResponse 404 (Message "Chat not found in UserChats or PinnedChats!")) /\
  fst (renameChat true (at_ 900) idA "What is AMP?" activeDb) =
    Returns (mkResponse 200 (Message "Chat renamed successfully!")).
Proof.
  split; [listed|]. repeat split; vm_compute; reflexivity.
Qed.

Lemma delete_then_fetch_answers_null_witness :
  fst (deleteChat true isObjectIdHex (at_ 700) idA pinnedDb) =
    Returns (mkResponse 200 (Message "Chat deleted successfully!")) /\
  fst (getChat isObjectIdHex idA (snd (deleteChat true isObjectIdHex (at_ 700) idA pinnedDb))) =
    Returns (mkResponse 200 (Data (ChatOf None))).
Proof.
  pose proof (delete_then_fetch_answers_null true isObjectIdHex (at_ 700) idA pinnedDb) as H.
  cbv zeta in H.
  destruct H as (Hdeleted & _ & _ & _ & Hfetch).
  - vm_compute. reflexivity.
  - no_duplicates.
  - vm_compute. reflexivity.
  - split; [exact Hdeleted|]. rewrite Hfetch. reflexivity.
Defined.

(* ================================================================== *)
(** * Further scenarios: chats *)
(* ================================================================== *)

Lemma created_chat_is_stored_listed_and_fetched_witness :
  ActiveChats
    (snd (createChat true stampNow (creating 200 idB)
            "How do I upload a document to the knowledge base?" "Use the upload page."
            activeDb)) demouser =
    [ mkSummary idA "What is AMP?" 100;
      mkSummary idB "How do I upload a document to " 200 ] /\
  String.length
    (title (createdEntry stampNow (creating 200 idB)
              "How do I upload a document to the knowledge base?")) = 30%nat.
Proof.
  pose proof (created_chat_is_stored_listed_and_fetched true stampNow isObjectIdHex
                (creating 200 idB)
                "How do I upload a document to the knowledge base?" "Use the upload page."
                activeDb) as H.
  cbv zeta in H.
  destruct H as (_ & _ & _ & Hlist & _ & Hlen & _);
    try discriminate; try (vm_compute; reflexivity).
  split; [exact Hlist | exact Hlen].
Defined.

Lemma rejected_create_stores_nothing_witness :
  createChat true stampNow (creating 200 idB) "" "AMP is..." activeDb =
    (Returns (mkResponse 500 (MessageError "Error creating chat!" ValidationError)), activeDb).
Proof.
  apply (rejected_create_stores_nothing true stampNow (creating 200 idB) "" "AMP is..." activeDb).
  left. reflexivity.
Defined.

Lemma rename_retitles_an_active_chat_witness :
  ActiveChats (snd (renameChat true (at_ 400) idA "AMP basics" activeDb)) demouser =
    [ mkSummary idA "AMP basics" 100 ].
Proof.
  pose proof (rename_retitles_an_active_chat true (at_ 400) idA "AMP basics" activeDb
                (mkSummary idA "What is AMP?" 100)) as H.
  cbv zeta in H.
  destruct H as (_ & Hlist & _); [vm_compute; reflexivity | discriminate |].
  exact Hlist.
Defined.

Lemma rename_reaches_a_pinned_chat_witness :
  PinnedChatsOf (snd (renameChat true (at_ 400) idA "AMP basics" pinnedDb)) demouser =
    [ mkSummary idA "AMP basics" 300 ] /\
  UserChats (snd (renameChat true (at_ 400) idA "AMP basics" pinnedDb)) = UserChats pinnedDb.
Proof.
  pose proof (rename_reaches_a_pinned_chat true (at_ 400) idA "AMP basics" pinnedDb
                (mkSummary idA "What is AMP?" 300)) as H.
  cbv zeta in H.
  destruct H as (_ & Hlist & _ & Huser & _);
    [vm_compute; reflexivity | vm_compute; reflexivity | discriminate |].
  split; [exact Hlist | exact Huser].
Defined.

Lemma pin_without_title_or_id_is_rejected_witness :
  pinChat true (at_ 300) idA "" activeDb =
    (Returns (mkResponse 500 (Message "Error pinning chat!")), activeDb).
Proof.
  apply (pin_without_title_or_id_is_rejected true (at_ 300) idA "" activeDb).
  - not_listed.
  - right. reflexivity.
Defined.

Lemma unpin_is_idempotent_witness :
  (idA ∉ ids (PinnedChatsOf unpinnedDb demouser)) /\
  unpinChat true (at_ 550) idA unpinnedDb = (Returns unpinnedResponse, unpinnedDb) /\
  (idA ∉ ids (PinnedChatsOf pinnedDb demouser) -> unpinnedDb = pinnedDb).
Proof.
  apply (unpin_is_idempotent true (at_ 500) (at_ 550) idA pinnedDb unpinnedDb).
  vm_compute. reflexivity.
Defined.

Lemma no_chat_is_listed_twice_witness :
  (countId idA (ActiveChats (serve true stampNow isObjectIdHex sampleTrace emptyDb) demouser) +
   countId idA (PinnedChatsOf (serve true stampNow isObjectIdHex sampleTrace emptyDb) demouser)
   <= 1)%nat.
Proof.
  apply (no_chat_is_listed_twice true stampNow isObjectIdHex sampleTrace emptyDb).
  - apply emptyDb_listingInv.
  - apply sampleTrace_fresh.
Defined.

Lemma other_users_listings_are_never_touched_witness :
  ActiveChats (serve true stampNow isObjectIdHex sampleTrace activeDb) "alice" =
    ActiveChats activeDb "alice" /\
  PinnedChatsOf (serve true stampNow isObjectIdHex sampleTrace activeDb) "alice" =
    PinnedChatsOf activeDb "alice".
Proof.
  apply (other_users_listings_are_never_touched true stampNow isObjectIdHex sampleTrace
           activeDb "alice").
  discriminate.
Defined.

Lemma chat_ids_stay_unique_witness :
  NoDup (map chat_id (Chat (serve true stampNow isObjectIdHex sampleTrace activeDb))).
Proof.
  apply (chat_ids_stay_unique true stampNow isObjectIdHex sampleTrace activeDb).
  no_duplicates.
Defined.

Lemma create_then_delete_restores_the_store_witness :
  Chat (snd (deleteChat true isObjectIdHex (at_ 700) idB
               (snd (createChat true stampNow (creating 200 idB)
                       "How do I upload a document to the knowledge base?"
                       "Use the upload page." activeDb)))) = Chat activeDb /\
  ActiveChats (snd (deleteChat true isObjectIdHex (at_ 700) idB
                      (snd (createChat true stampNow (creating 200 idB)
                              "How do I upload a document to the knowledge base?"
                              "Use the upload page." activeDb)))) demouser =
    ActiveChats activeDb demouser.
Proof.
  pose proof (create_then_delete_restores_the_store true stampNow isObjectIdHex
                (creating 200 idB) (at_ 700)
                "How do I upload a document to the knowledge base?" "Use the upload page."
                activeDb) as H.
  cbv zeta in H.
  destruct H as (_ & Hchat & Hactive & _);
    [discriminate | discriminate | discriminate | vm_compute; reflexivity
    | vm_compute; reflexivity | not_listed | not_listed |].
  split; [exact Hchat | exact Hactive].
Defined.

Lemma pin_then_unpin_returns_the_pinned_entry_witness :
  PinnedChatsOf unpinnedDb demouser = [] /\
  ActiveChats unpinnedDb demouser = [ mkSummary idA "What is AMP?" 300 ] /\
  Chat unpinnedDb = Chat activeDb.
Proof.
  apply (pin_then_unpin_returns_the_pinned_entry true (at_ 300) (at_ 500) idA "What is AMP?"
           activeDb pinnedDb unpinnedDb).
  - not_listed.
  - vm_compute. reflexivity.
  - vm_compute. reflexivity.
Defined.

(* ================================================================== *)
(** * Further scenarios: generation *)
(* ================================================================== *)

Lemma sessions_are_isolated_witness :
  userSessions (after backendUp Grounded "And what is super?" "u1" twoSessions) !! "u2" =
    userSessions twoSessions !! "u2" /\
  bufferOf (after backendUp Grounded "And what is super?" "u1" twoSessions) "u2" =
    bufferOf twoSessions "u2".
Proof.
  apply (sessions_are_isolated backendUp Grounded "And what is super?" "u1" "u2" twoSessions).
  discriminate.
Defined.

Lemma answered_generation_appends_both_turns_witness :
  bufferOf (after backendUp Grounded "And what is super?" "u1" twoSessions) "u1" =
    [ "User: What is AMP?"; "User: And what is super?"; "Bot: AMP is a bank." ] /\
  fst (retrieveAndGenerateResponse backendUp "And what is super?" "u1" twoSessions) =
    Returns "AMP is a bank.".
Proof.
  pose proof (answered_generation_appends_both_turns backendUp Grounded
                "And what is super?" "u1" twoSessions (Some "AMP is a bank.")) as H.
  cbv zeta in H.
  destruct H as (Hbuffer & _ & _ & _ & _ & Hfst);
    [vm_compute; discriminate | reflexivity |].
  split; [exact Hbuffer | exact Hfst].
Defined.

Lemma instant_lookup_answers_text_fallback_or_sentinel_witness :
  instantLookup sampleEnv backendUp "What is AMP?" "amp-data-pipgpt" emptyGateway =
    (Returns (mkResponse 200 (ResponseField "AMP is a bank.")),
     mkGateway ∅ [ RetrieveAndGenerate "User query: What is AMP?" (Some (Str "DS1")) ]).
Proof.
  apply (instant_lookup_answers_text_fallback_or_sentinel sampleEnv backendUp
           "What is AMP?" "amp-data-pipgpt" emptyGateway); discriminate.
Defined.

(* ================================================================== *)
(** * Further scenarios: documents *)
(* ================================================================== *)

Lemma sampleUpload_uploadable : uploadable (docEnv 200 idB) "u1" feesPdf sampleCloud.
Proof. repeat split; try discriminate; vm_compute; reflexivity. Qed.

(** The store the sample upload leaves. *)
Example sampleUpload_result :
  uploadDocument sampleEnv (docEnv 200 idB) "u1" (Some feesPdf) sampleCloud =
    (Returns
       (mkResponse 201
          (Data (Saved (mkDocument idB "u1" "fees.pdf"
                          "https://docs.s3.ap-southeast-2.amazonaws.com/2f1e4fc0-fees.pdf"
                          "application/pdf" 200)))),
     uploadedCloud).
Proof. vm_compute. reflexivity. Qed.

Lemma sampleCloud_tokens : tokensDistinct sampleCloud.
Proof.
  split.
  - cbn. repeat (apply NoDup_cons_2; [intros H; apply list_elem_of_In in H; cbn in H; lia|]).
    apply NoDup_nil_2.
  - intros job Hjob. apply list_elem_of_In in Hjob. cbn in Hjob.
    destruct Hjob as [<-|[<-|[]]]; cbn; lia.
Qed.

Lemma upload_stores_object_record_and_job_witness :
  Document (snd (uploadDocument sampleEnv (docEnv 200 idB) "u1" (Some feesPdf) sampleCloud)) =
    Document uploadedCloud /\
  ingestionJobs (snd (uploadDocument sampleEnv (docEnv 200 idB) "u1" (Some feesPdf) sampleCloud)) =
    ingestionJobs uploadedCloud.
Proof.
  pose proof (upload_stores_object_record_and_job sampleEnv (docEnv 200 idB) "u1" feesPdf
                sampleCloud sampleUpload_uploadable) as H.
  cbv zeta in H. destruct H as (_ & Hrecords & _ & Hjobs & _).
  split; [exact Hrecords | exact Hjobs].
Defined.

Lemma upload_without_user_leaves_the_object_behind_witness :
  fst (uploadDocument sampleEnv (docEnv 200 idB) "" (Some feesPdf) sampleCloud) =
    Returns (mkResponse 500 (MessageError "Error uploading document" ValidationError)) /\
  Document (snd (uploadDocument sampleEnv (docEnv 200 idB) "" (Some feesPdf) sampleCloud)) =
    Document sampleCloud /\
  "2f1e4fc0-fees.pdf" ∈
    bucket (snd (uploadDocument sampleEnv (docEnv 200 idB) "" (Some feesPdf) sampleCloud)).
Proof.
  pose proof (upload_without_user_leaves_the_object_behind sampleEnv (docEnv 200 idB)
                feesPdf sampleCloud) as H.
  cbv zeta in H. destruct H as (Hfst & Hrecords & Hkey & _); [reflexivity|].
  split; [exact Hfst|]. split; [exact Hrecords | exact Hkey].
Defined.

Lemma upload_then_read_signs_the_stored_key_witness :
  getDocument isObjectIdHex (docEnv 300 "") idB
    (snd (uploadDocument sampleEnv (docEnv 200 idB) "u1" (Some feesPdf) sampleCloud)) =
    (Returns (mkResponse 200 (Data (FileUrl (mkSignedUrl "2f1e4fc0-fees.pdf" 3600)))),
     snd (uploadDocument sampleEnv (docEnv 200 idB) "u1" (Some feesPdf) sampleCloud)).
Proof.
  pose proof (upload_then_read_signs_the_stored_key isObjectIdHex sampleEnv
                (docEnv 200 idB) (docEnv 300 "") "u1" feesPdf sampleCloud
                sampleUpload_uploadable) as H.
  cbv zeta in H.
  destruct H as (Hread & _);
    [vm_compute; reflexivity | vm_compute; reflexivity | reflexivity |].
  exact Hread.
Defined.

Lemma upload_then_delete_restores_records_and_bucket_witness :
  Document
    (snd (deleteDocument isObjectIdHex sampleEnv ingestionDown idB
            (snd (uploadDocument sampleEnv (docEnv 200 idB) "u1" (Some feesPdf) sampleCloud)))) =
    Document sampleCloud /\
  bucket
    (snd (deleteDocument isObjectIdHex sampleEnv ingestionDown idB
            (snd (uploadDocument sampleEnv (docEnv 200 idB) "u1" (Some feesPdf) sampleCloud)))) =
    bucket sampleCloud.
Proof.
  pose proof (upload_then_delete_restores_records_and_bucket isObjectIdHex sampleEnv
                (docEnv 200 idB) (docEnv 300 "") "u1" feesPdf sampleCloud
                sampleUpload_uploadable) as H.
  cbv zeta in H.
  destruct H as (_ & Hrecords & Hbucket);
    try (vm_compute; reflexivity); [not_listed|].
  split; [exact Hrecords | exact Hbucket].
Defined.

Lemma upload_extends_the_list_of_its_user_only_witness :
  fst (getDocuments "u1"
         (snd (uploadDocument sampleEnv (docEnv 200 idB) "u1" (Some feesPdf) sampleCloud))) =
    Returns (mkResponse 200 (Data (Documents (Document uploadedCloud)))) /\
  fst (getDocuments "u2"
         (snd (uploadDocument sampleEnv (docEnv 200 idB) "u1" (Some feesPdf) sampleCloud))) =
    Returns (mkResponse 200 (Data (Documents []))).
Proof.
  split.
  - rewrite (upload_extends_the_list_of_its_user_only sampleEnv (docEnv 200 idB) "u1"
               feesPdf sampleCloud "u1" sampleUpload_uploadable).
    reflexivity.
  - rewrite (upload_extends_the_list_of_its_user_only sampleEnv (docEnv 200 idB) "u1"
               feesPdf sampleCloud "u2" sampleUpload_uploadable).
    reflexivity.
Defined.

Lemma failed_delete_changes_nothing_witness :
  deleteDocument isObjectIdHex sampleEnv ingestionDown idB sampleCloud =
    (Returns (mkResponse 404 (Message "Document not found!")), sampleCloud) /\
  deleteDocument isObjectIdHex sampleEnv ingestionDown "rates.pdf" sampleCloud =
    (Returns (mkResponse 500 (MessageError "Error deleting document" CastError)), sampleCloud).
Proof.
  split.
  - apply (failed_delete_changes_nothing isObjectIdHex sampleEnv ingestionDown idB sampleCloud).
    right. left. reflexivity.
  - apply (failed_delete_changes_nothing isObjectIdHex sampleEnv ingestionDown "rates.pdf"
             sampleCloud).
    left. reflexivity.
Defined.

Lemma ingestion_tokens_stay_distinct_witness :
  NoDup (map clientToken
           (ingestionJobs (serveDocuments isObjectIdHex sampleEnv sampleDocTrace sampleCloud))) /\
  tokensDrawn (serveDocuments isObjectIdHex sampleEnv sampleDocTrace sampleCloud).
Proof.
  apply (ingestion_tokens_stay_distinct isObjectIdHex sampleEnv sampleDocTrace sampleCloud).
  apply sampleCloud_tokens.
Defined.

(** The tokens the sample sequence ends with: the upload drew the
    fourth and the fifth uuid, the delete the sixth. *)
Example sampleDocTrace_tokens :
  map clientToken
    (ingestionJobs (serveDocuments isObjectIdHex sampleEnv sampleDocTrace sampleCloud)) =
    [ 1; 3; 5; 6 ]%nat.
Proof. vm_compute. reflexivity. Qed.

(* ================================================================== *)
(** * Further scenarios: the spelling of an id *)
(* ================================================================== *)

(** The digits of an ObjectId may come in either case. *)
Example upper_case_names_the_same_ObjectId :
  isObjectIdHex idAUpper = true /\ toHexString idAUpper = idA /\ toHexString idA = idA.
Proof. repeat split; vm_compute; reflexivity. Qed.

(** Twelve bytes name the ObjectId with these bytes. *)
Example twelve_bytes_name_an_ObjectId :
  toHexString "abcdefghijkl" = "6162636465666768696a6b6c" /\
  toHexString "6162636465666768696A6B6C" = "6162636465666768696a6b6c".
Proof. split; vm_compute; reflexivity. Qed.

(** A fetch and an append under the upper-case spelling reach the
    chat. *)
Example upper_case_id_reaches_the_chat :
  fst (getChat isObjectIdHex idAUpper activeDb) =
    Returns (mkResponse 200 (Data (ChatOf (Some
      (mkChat idA demouser
         [ mkTurn "user" "What is AMP?"; mkTurn "assistant" "AMP is..." ] 100 100))))) /\
  fst (appendChat isObjectIdHex idAUpper "And super?" "Super is..." activeDb) =
    Returns (mkResponse 200 (Data (Updated (mkUpdateResult 1 1)))).
Proof. split; vm_compute; reflexivity. Qed.

(** A delete under the upper-case spelling answers 200 and removes the
    record; the listing, whose ids are strings, keeps its entry. *)
Example upper_case_id_deletes_the_record_only :
  fst (deleteChat true isObjectIdHex (at_ 700) idAUpper activeDb) =
    Returns (mkResponse 200 (Message "Chat deleted successfully!")) /\
  Chat (snd (deleteChat true isObjectIdHex (at_ 700) idAUpper activeDb)) = [] /\
  ActiveChats (snd (deleteChat true isObjectIdHex (at_ 700) idAUpper activeDb)) demouser =
    [ mkSummary idA "What is AMP?" 100 ].
Proof. repeat split; vm_compute; reflexivity. Qed.

(** The delete of a document under the upper-case spelling removes the
    record and its object. *)
Example upper_case_id_deletes_the_document :
  fst (deleteDocument isObjectIdHex sampleEnv ingestionDown idAUpper sampleCloud) =
    Returns (mkResponse 200 (Message "Document deleted and Bedrock Knowledge Base updated!")) /\
  Document (snd (deleteDocument isObjectIdHex sampleEnv ingestionDown idAUpper sampleCloud)) = [] /\
  bucket (snd (deleteDocument isObjectIdHex sampleEnv ingestionDown idAUpper sampleCloud)) =
    [ "7c9e6679-fees.pdf" ].
Proof. repeat split; vm_compute; reflexivity. Qed.
